(** * Komari status plugin: the realtime reconciliation and normalization engine

    A shallow embedding of [komari_realtime] (src/main.py, lines 149-385)
    and of the Python operations it relies on, followed by the properties
    of the specification that concern it.

    Python values are the values a JSON decode can produce.  A [str] is
    represented by its UTF-8 encoding, a [float] by an IEEE 754 binary64
    number ([spec_float] with [prec = 53] and [emax = 1024]), a [dict] by an
    association list in insertion order. *)

From Stdlib Require Import ZArith List String Ascii Bool Lia.
From Stdlib Require Import Floats.SpecFloat Numbers.DecimalString.
Import ListNotations.

Local Open Scope string_scope.
Local Open Scope list_scope.
Local Open Scope Z_scope.

(** ** Exceptions and fallible computations *)

Inductive exn :=
| TypeError
| ValueError
| KeyError
| IndexError
| AttributeError
| OverflowError
| ZeroDivisionError
| ConnectionError.

Inductive result (A : Type) :=
| Ok (a : A)
| Raise (e : exn).

Arguments Ok {A} a.
Arguments Raise {A} e.

Definition bind {A B : Type} (r : result A) (k : A -> result B) : result B :=
  match r with
  | Ok a => k a
  | Raise e => Raise e
  end.

Notation "'do' x <- r ; k" := (bind r (fun x => k))
  (at level 10, x name, r at level 100, k at level 200).

Definition is_ok {A : Type} (r : result A) : bool :=
  match r with Ok _ => true | Raise _ => false end.

(** ** Binary64 floats *)

Module Float64.

Definition prec : Z := 53.
Definition emax : Z := 1024.

Definition of_Z (z : Z) : spec_float := binary_normalize prec emax z 0 false.

Definition div := SFdiv prec emax.
Definition mul := SFmul prec emax.
Definition add := SFadd prec emax.
Definition sub := SFsub prec emax.
Definition ltb := SFltb.
Definition eqb := SFeqb.

Definition is_inf (x : spec_float) : bool :=
  match x with S754_infinity _ => true | _ => false end.

Definition is_nan (x : spec_float) : bool :=
  match x with S754_nan => true | _ => false end.

Definition is_zero (x : spec_float) : bool :=
  match x with S754_zero _ => true | _ => false end.

Definition sign (x : spec_float) : bool :=
  match x with
  | S754_zero s | S754_infinity s | S754_finite s _ _ => s
  | S754_nan => false
  end.

(** The integer a float is equal to, when it is one. *)
Definition to_Z_exact (x : spec_float) : option Z :=
  match x with
  | S754_zero _ => Some 0
  | S754_finite s m e =>
      let v := if 0 <=? e then Some (Zpos m * 2 ^ e)
               else if (Zpos m) mod (2 ^ (- e)) =? 0
                    then Some (Zpos m / 2 ^ (- e)) else None in
      match v with
      | Some a => Some (if s then - a else a)
      | None => None
      end
  | _ => None
  end.

(** The quotient of two integers, correctly rounded (CPython's
    [long_true_divide]); the divisor is not zero. *)
Definition div_Z (a b : Z) : spec_float :=
  let s := xorb (a <? 0) (b <? 0) in
  match Z.abs a, Z.abs b with
  | Zpos ma, Zpos mb => div (S754_finite s ma 0) (S754_finite false mb 0)
  | _, _ => S754_zero s
  end.

(** Nearest integer to [n / d] for [0 < d], ties to even. *)
Definition round_half_even (n d : Z) : Z :=
  let q := n / d in
  match (2 * (n mod d)) ?= d with
  | Lt => q
  | Gt => q + 1
  | Eq => if Z.even q then q else q + 1
  end.

(** [|x| * 10^nd] rounded to the nearest integer, ties to even, for a
    finite [x = m * 2^e]: the decimal digits that CPython's correctly
    rounded conversion produces for [nd] places. *)
Definition scaled_digits (m : positive) (e : Z) (nd : Z) : Z :=
  if 0 <=? e then Zpos m * 2 ^ e * 10 ^ nd
  else round_half_even (Zpos m * 10 ^ nd) (2 ^ (- e)).

(** [round(x, nd)] for a float [x] and [0 <= nd]: the double nearest to
    the decimal rounding of [x]; infinities, NaN and zeros are returned
    as they are. *)
Definition round (x : spec_float) (nd : Z) : spec_float :=
  match x with
  | S754_finite s m e =>
      match scaled_digits m e nd with
      | Zpos k => div (S754_finite s k 0) (of_Z (10 ^ nd))
      | _ => S754_zero s
      end
  | _ => x
  end.

(** [str(z)] for an int. *)
Definition string_of_Z (z : Z) : string :=
  NilZero.string_of_int (Z.to_int z).

(** The last [nd] decimal digits of [k], zero padded. *)
Definition frac_digits (k nd : Z) : string :=
  match string_of_Z (10 ^ nd + k mod 10 ^ nd) with
  | String _ rest => rest
  | EmptyString => EmptyString
  end.

(** [format(x, '.<nd>f')] for [0 < nd]. *)
Definition format_fixed (x : spec_float) (nd : Z) : string :=
  match x with
  | S754_nan => "nan"
  | S754_infinity s => if s then "-inf" else "inf"
  | S754_zero s =>
      ((if s then "-" else "") ++ "0." ++ frac_digits 0 nd)%string
  | S754_finite s m e =>
      let k := scaled_digits m e nd in
      ((if s then "-" else "") ++ string_of_Z (k / 10 ^ nd) ++ "."
         ++ frac_digits k nd)%string
  end.

(** C's [fmod]: the exact remainder of [x / y], with the sign of [x]. *)
Definition fmod (x y : spec_float) : spec_float :=
  match x, y with
  | S754_nan, _ | _, S754_nan => S754_nan
  | S754_infinity _, _ => S754_nan
  | _, S754_zero _ => S754_nan
  | S754_zero _, _ => x
  | S754_finite _ _ _, S754_infinity _ => x
  | S754_finite sx mx ex, S754_finite _ my ey =>
      let e0 := Z.min ex ey in
      let r := (Zpos mx * 2 ^ (ex - e0)) mod (Zpos my * 2 ^ (ey - e0)) in
      binary_normalize prec emax (if sx then - r else r) e0 sx
  end.

(** C's [floor]. *)
Definition floor (x : spec_float) : spec_float :=
  match x with
  | S754_finite s m e =>
      if 0 <=? e then x
      else
        let n := if s then Zneg m else Zpos m in
        binary_normalize prec emax (n / 2 ^ (- e)) 0 s
  | _ => x
  end.

(** Python's [x // y] and [x % y] on floats, for [y] other than zero
    (CPython's [float_floor_div] and [float_rem]). *)
Definition floordiv (x y : spec_float) : spec_float :=
  let m := fmod x y in
  let d := div (sub x m) y in
  let d := if negb (is_zero m) && negb (Bool.eqb (ltb y (S754_zero false))
                                               (ltb m (S754_zero false)))
           then sub d (of_Z 1) else d in
  if is_zero d then S754_zero (sign (div x y))
  else
    let f := floor d in
    if ltb (div_Z 1 2) (sub d f) then add f (of_Z 1) else f.

Definition rem (x y : spec_float) : spec_float :=
  let m := fmod x y in
  if is_zero m then S754_zero (sign y)
  else if negb (Bool.eqb (ltb y (S754_zero false)) (ltb m (S754_zero false)))
       then add m y else m.

End Float64.

(** ** Python values *)

#[local] Set Warnings "-register-all".

Inductive pyval :=
| PNone
| PBool (b : bool)
| PInt (z : Z)
| PFloat (f : spec_float)
| PStr (s : string)
| PList (l : list pyval)
| PDict (d : list (string * pyval)).

(** A [dict] whose keys are strings, in insertion order. *)
Definition dict := list (string * pyval).

Section Assoc.
Context {A : Type}.

Fixpoint assoc_get (k : string) (d : list (string * A)) : option A :=
  match d with
  | [] => None
  | (k', v) :: rest => if String.eqb k k' then Some v else assoc_get k rest
  end.

(** [d[k] = v]: an existing key keeps its place, a new key goes last. *)
Fixpoint assoc_set (k : string) (v : A) (d : list (string * A))
  : list (string * A) :=
  match d with
  | [] => [(k, v)]
  | (k', v') :: rest =>
      if String.eqb k k' then (k, v) :: rest
      else (k', v') :: assoc_set k v rest
  end.

Definition assoc_mem (k : string) (d : list (string * A)) : bool :=
  match assoc_get k d with Some _ => true | None => false end.
End Assoc.

Definition dict_get : string -> dict -> option pyval := assoc_get.
Definition dict_set : string -> pyval -> dict -> dict := assoc_set.
Definition dict_mem : string -> dict -> bool := assoc_mem.

(** [d.get(k, default)] *)
Definition get_default (k : string) (default : pyval) (d : dict) : pyval :=
  match dict_get k d with Some v => v | None => default end.

(** [d.get(k)] *)
Definition get (k : string) (d : dict) : pyval := get_default k PNone d.

Definition is_dict (v : pyval) : bool :=
  match v with PDict _ => true | _ => false end.

Definition is_list (v : pyval) : bool :=
  match v with PList _ => true | _ => false end.

(** [bool(v)] *)
Definition truthy (v : pyval) : bool :=
  match v with
  | PNone => false
  | PBool b => b
  | PInt z => negb (z =? 0)
  | PFloat f => negb (Float64.is_zero f)
  | PStr s => negb (String.eqb s "")
  | PList l => match l with [] => false | _ => true end
  | PDict d => match d with [] => false | _ => true end
  end.

(** Lists and dicts cannot be hashed. *)
Definition hashable (v : pyval) : bool :=
  match v with PList _ | PDict _ => false | _ => true end.

(** *** Numbers: [bool], [int] and [float] *)

Inductive num :=
| NInt (z : Z)
| NFloat (f : spec_float).

Definition as_num (v : pyval) : option num :=
  match v with
  | PBool b => Some (NInt (Z.b2z b))
  | PInt z => Some (NInt z)
  | PFloat f => Some (NFloat f)
  | _ => None
  end.

Definition pyval_of_num (n : num) : pyval :=
  match n with NInt z => PInt z | NFloat f => PFloat f end.

(** Conversion of a number to [float]; an int beyond the range of a
    double raises OverflowError. *)
Definition num_to_float (n : num) : result spec_float :=
  match n with
  | NInt z =>
      let f := Float64.of_Z z in
      if Float64.is_inf f then Raise OverflowError else Ok f
  | NFloat f => Ok f
  end.

(** [a / b] *)
Definition num_truediv (a b : num) : result spec_float :=
  match a, b with
  | NInt x, NInt y =>
      if y =? 0 then Raise ZeroDivisionError
      else
        let q := Float64.div_Z x y in
        if Float64.is_inf q then Raise OverflowError else Ok q
  | _, _ =>
      do fa <- num_to_float a;
      do fb <- num_to_float b;
      if Float64.is_zero fb then Raise ZeroDivisionError
      else Ok (Float64.div fa fb)
  end.

(** [a > c] for an int constant [c] that a double holds exactly. *)
Definition num_gt (a : num) (c : Z) : bool :=
  match a with
  | NInt x => c <? x
  | NFloat f => Float64.ltb (Float64.of_Z c) f
  end.

(** [a // c] and [a % c] for a positive int constant [c]. *)
Definition num_floordiv (a : num) (c : Z) : num :=
  match a with
  | NInt x => NInt (x / c)
  | NFloat f => NFloat (Float64.floordiv f (Float64.of_Z c))
  end.

Definition num_mod (a : num) (c : Z) : num :=
  match a with
  | NInt x => NInt (x mod c)
  | NFloat f => NFloat (Float64.rem f (Float64.of_Z c))
  end.

(** Equality of numbers is exact across [int] and [float]; the decoder
    hands out one NaN object, which a container finds by identity. *)
Definition num_same (a b : num) : bool :=
  match a, b with
  | NInt x, NInt y => x =? y
  | NInt x, NFloat f | NFloat f, NInt x =>
      match Float64.to_Z_exact f with Some y => x =? y | None => false end
  | NFloat f, NFloat g =>
      Float64.eqb f g || (Float64.is_nan f && Float64.is_nan g)
  end.

(** [a is b or a == b], the test that containers use for membership and
    for keys. *)
Fixpoint py_same (a b : pyval) {struct a} : bool :=
  match a with
  | PNone => match b with PNone => true | _ => false end
  | PBool x =>
      match as_num b with
      | Some n => num_same (NInt (Z.b2z x)) n
      | None => false
      end
  | PInt x =>
      match as_num b with Some n => num_same (NInt x) n | None => false end
  | PFloat f =>
      match as_num b with Some n => num_same (NFloat f) n | None => false end
  | PStr s => match b with PStr t => String.eqb s t | _ => false end
  | PList xs =>
      match b with
      | PList ys =>
          (fix all2 (xs ys : list pyval) {struct xs} : bool :=
             match xs, ys with
             | [], [] => true
             | x :: xs', y :: ys' => py_same x y && all2 xs' ys'
             | _, _ => false
             end) xs ys
      | _ => false
      end
  | PDict d =>
      match b with
      | PDict d' =>
          (Nat.eqb (List.length d) (List.length d')
           && (fix all (d : list (string * pyval)) {struct d} : bool :=
                 match d with
                 | [] => true
                 | (k, v) :: rest =>
                     match assoc_get k d' with
                     | Some v' => py_same v v'
                     | None => false
                     end && all rest
                 end) d)%bool
      | _ => false
      end
  end.

(** *** Strings *)

(** Continuation bytes of UTF-8 are 0x80 to 0xBF. *)
Definition is_continuation (c : ascii) : bool :=
  let n := N_of_ascii c in (128 <=? n)%N && (n <? 192)%N.

(** The characters of a string, each one a string of its own. *)
Fixpoint utf8_chars (s : string) : list string :=
  match s with
  | EmptyString => []
  | String c rest =>
      match rest with
      | String c' _ =>
          if is_continuation c' then
            match utf8_chars rest with
            | x :: xs => String c x :: xs
            | [] => [String c EmptyString]
            end
          else String c EmptyString :: utf8_chars rest
      | EmptyString => [String c EmptyString]
      end
  end.

(** [t in s] for two strings. *)
Fixpoint is_substring (t s : string) : bool :=
  String.prefix t s
  || match s with
     | EmptyString => false
     | String _ rest => is_substring t rest
     end.

(** *** Containers *)

(** The elements that [for x in v] visits. *)
Definition py_iter (v : pyval) : result (list pyval) :=
  match v with
  | PList l => Ok l
  | PDict d => Ok (map (fun kv => PStr (fst kv)) d)
  | PStr s => Ok (map PStr (utf8_chars s))
  | _ => Raise TypeError
  end.

(** [x in c] *)
Definition py_contains (c x : pyval) : result bool :=
  match c with
  | PDict d =>
      if hashable x then
        Ok (match x with PStr k => dict_mem k d | _ => false end)
      else Raise TypeError
  | PList l => Ok (existsb (py_same x) l)
  | PStr s =>
      match x with
      | PStr t => Ok (is_substring t s)
      | _ => Raise TypeError
      end
  | _ => Raise TypeError
  end.

(** The position that index [i] denotes in a sequence of length [n]. *)
Definition list_index (i : Z) (n : nat) : option nat :=
  let j := if i <? 0 then i + Z.of_nat n else i in
  if (0 <=? j) && (j <? Z.of_nat n) then Some (Z.to_nat j) else None.

Definition as_index (k : pyval) : option Z :=
  match k with
  | PInt z => Some z
  | PBool b => Some (Z.b2z b)
  | _ => None
  end.

(** [c[k]] *)
Definition py_getitem (c k : pyval) : result pyval :=
  match c with
  | PDict d =>
      if hashable k then
        match k with
        | PStr s =>
            match dict_get s d with Some v => Ok v | None => Raise KeyError end
        | _ => Raise KeyError
        end
      else Raise TypeError
  | PList l =>
      match as_index k with
      | Some i =>
          match list_index i (List.length l) with
          | Some j => match nth_error l j with
                      | Some v => Ok v
                      | None => Raise IndexError
                      end
          | None => Raise IndexError
          end
      | None => Raise TypeError
      end
  | PStr s =>
      match as_index k with
      | Some i =>
          let cs := utf8_chars s in
          match list_index i (List.length cs) with
          | Some j => match nth_error cs j with
                      | Some ch => Ok (PStr ch)
                      | None => Raise IndexError
                      end
          | None => Raise IndexError
          end
      | None => Raise TypeError
      end
  | _ => Raise TypeError
  end.

(** [obj[key] = v] for a string [key]: only a dict accepts it. *)
Definition py_setitem (obj : pyval) (key : string) (v : pyval) : result pyval :=
  match obj with
  | PDict d => Ok (PDict (dict_set key v d))
  | _ => Raise TypeError
  end.

Fixpoint list_replace {A : Type} (j : nat) (v : A) (l : list A) : list A :=
  match l, j with
  | [], _ => []
  | _ :: rest, O => v :: rest
  | x :: rest, S j' => x :: list_replace j' v rest
  end.

(** The container [c] once the object that [c[k]] denotes has become
    [v]; [c[k]] exists. *)
Definition py_replace (c k v : pyval) : pyval :=
  match c with
  | PDict d =>
      match k with PStr s => PDict (dict_set s v d) | _ => c end
  | PList l =>
      match as_index k with
      | Some i =>
          match list_index i (List.length l) with
          | Some j => PList (list_replace j v l)
          | None => c
          end
      | None => c
      end
  | _ => c
  end.

(** [a or b] *)
Definition py_or (a b : pyval) : pyval := if truthy a then a else b.

(** [x == "literal"] *)
Definition eq_str (x : pyval) (lit : string) : bool :=
  match x with PStr s => String.eqb s lit | _ => false end.

(** ** Library functions outside the repository

    [json.loads] (None when it raises), [float] on a [str] (None when it
    raises ValueError) and [str] of a [float] are taken as they come. *)

Class Builtins := {
  json_loads : string -> option pyval;
  float_of_str : string -> option spec_float;
  float_repr : spec_float -> string
}.

(** *** Arithmetic on values *)

Definition py_truediv (a b : pyval) : result spec_float :=
  match as_num a, as_num b with
  | Some x, Some y => num_truediv x y
  | _, _ => Raise TypeError
  end.

Definition py_gt (a : pyval) (c : Z) : result bool :=
  match as_num a with
  | Some x => Ok (num_gt x c)
  | None => Raise TypeError
  end.

Definition py_floordiv (a : pyval) (c : Z) : result num :=
  match as_num a with
  | Some x => Ok (num_floordiv x c)
  | None => Raise TypeError
  end.

Definition py_mod (a : pyval) (c : Z) : result num :=
  match as_num a with
  | Some x => Ok (num_mod x c)
  | None => Raise TypeError
  end.

(** [float(v)] *)
Definition py_float `{B : Builtins} (v : pyval) : result spec_float :=
  match v with
  | PStr s =>
      match float_of_str s with Some f => Ok f | None => Raise ValueError end
  | _ =>
      match as_num v with
      | Some n => num_to_float n
      | None => Raise TypeError
      end
  end.

(** [str(n)] inside an f-string. *)
Definition num_str `{B : Builtins} (n : num) : string :=
  match n with
  | NInt z => Float64.string_of_Z z
  | NFloat f => float_repr f
  end.

(** ** The static inventory index (lines 157-167) *)

(** A dict hashes and compares numbers by value: [True], [1] and [1.0]
    are one key, and so are the NaN literals of one decoder, which all
    denote the same object.  [key_of] gives the key a hashable value stands
    for. *)
Inductive hkey :=
| KNone
| KInt (z : Z)
| KFloat (f : spec_float)
| KStr (s : string).

Definition key_of (v : pyval) : option hkey :=
  match v with
  | PNone => Some KNone
  | PBool b => Some (KInt (Z.b2z b))
  | PInt z => Some (KInt z)
  | PFloat f =>
      Some (match Float64.to_Z_exact f with
            | Some z => KInt z
            | None => KFloat f
            end)
  | PStr s => Some (KStr s)
  | PList _ | PDict _ => None
  end.

Definition spec_float_eq_dec (f g : spec_float) : {f = g} + {f <> g}.
Proof.
  decide equality; auto using Bool.bool_dec, Pos.eq_dec, Z.eq_dec.
Defined.

Definition hkey_eq_dec (a b : hkey) : {a = b} + {a <> b}.
Proof.
  decide equality;
    auto using Z.eq_dec, spec_float_eq_dec, string_dec.
Defined.

(** [static_nodes]: identity key to static record, in insertion order. *)
Definition static_map := list (hkey * dict).

Fixpoint key_get (k : hkey) (m : static_map) : option dict :=
  match m with
  | [] => None
  | (k', r) :: rest => if hkey_eq_dec k k' then Some r else key_get k rest
  end.

Fixpoint key_set (k : hkey) (r : dict) (m : static_map) : static_map :=
  match m with
  | [] => [(k, r)]
  | (k', r') :: rest =>
      if hkey_eq_dec k k' then (k', r) :: rest else (k', r') :: key_set k r rest
  end.

(** [static_nodes[k]] when [k in static_nodes], for a hashable [k]. *)
Definition static_get (k : pyval) (m : static_map) : option dict :=
  match key_of k with
  | Some hk => key_get hk m
  | None => None
  end.

(** [static_nodes[k] = r] for a hashable [k]. *)
Definition static_set (k : pyval) (r : dict) (m : static_map) : static_map :=
  match key_of k with
  | Some hk => key_set hk r m
  | None => m
  end.

(** [if n.get(field): static_nodes[n.get(field)] = n] *)
Definition put_identity (field : string) (n : dict) (acc : static_map)
  : result static_map :=
  let k := get field n in
  if truthy k then
    if hashable k then Ok (static_set k n acc) else Raise TypeError
  else Ok acc.

(** The loop over the inventory; the enclosing [try] ends it at the first
    exception and keeps what was inserted before. *)
Fixpoint index_nodes (ns : list pyval) (acc : static_map) : static_map :=
  match ns with
  | [] => acc
  | PDict n :: rest =>
      match put_identity "id" n acc with
      | Raise _ => acc
      | Ok acc1 =>
          match put_identity "uuid" n acc1 with
          | Raise _ => acc1
          | Ok acc2 => index_nodes rest acc2
          end
      end
  | _ :: _ => acc
  end.

(** [data] is the first component of what [_fetch_api("/api/nodes")]
    returns: the decoded body, or None. *)
Definition build_static_nodes (data : pyval) : static_map :=
  if truthy data then
    match data with
    | PDict d =>
        if truthy (get "data" d) then
          match py_iter (get "data" d) with
          | Ok ns => index_nodes ns []
          | Raise _ => []
          end
        else []
    | _ => []
    end
  else [].

(** ** The stream session (lines 178-220) *)

Inductive WSMsgType :=
| CONTINUATION | TEXT | BINARY | PING | PONG | CLOSE | CLOSING | CLOSED | ERROR.

Record WSMessage := { msg_type : WSMsgType; msg_data : string }.

(** The online/detail pair (lines 204-210).  [details] is the detail map
    as the loop has changed it so far and [refs] the identifiers whose
    record was appended, oldest first. *)
Fixpoint collect_online (ids : list pyval) (details : pyval) (refs : list pyval)
  : result (pyval * list pyval) :=
  match ids with
  | [] => Ok (details, refs)
  | uuid :: rest =>
      do present <- py_contains details uuid;
      if present : bool then
        do node_info <- py_getitem details uuid;
        do node_info' <- py_setitem node_info "uuid" uuid;
        collect_online rest (py_replace details uuid node_info') (refs ++ [uuid])
      else collect_online rest details refs
  end.

(** The records that [realtime_list] holds when the loop is over. *)
Fixpoint deref_all (details : pyval) (refs : list pyval) : result (list pyval) :=
  match refs with
  | [] => Ok []
  | r :: rest =>
      do v <- py_getitem details r;
      do vs <- deref_all details rest;
      Ok (v :: vs)
  end.

(** Lines 199-212: the payload of a response whose status is success. *)
Definition extract_payload (resp : dict) : result pyval :=
  let raw_data := get_default "data" (PDict []) resp in
  match raw_data with
  | PDict rd =>
      if dict_mem "online" rd && dict_mem "data" rd then
        let online_uuids := get_default "online" (PList []) rd in
        let details_map := get_default "data" (PDict []) rd in
        do ids <- py_iter online_uuids;
        do st <- collect_online ids details_map [];
        do realtime_list <- deref_all (fst st) (snd st);
        Ok (PList realtime_list)
      else Ok raw_data
  | _ => Ok raw_data
  end.

(** Result of reading: how many frames were received, and the payload when
    a frame gave one. *)
Record session := { frames_read : nat; payload : option pyval }.

Section Realtime.
Context `{B : Builtins}.

(** Lines 189-215: a text frame gives a payload, or nothing when any
    exception is swallowed or the status is not success. *)
Definition handle_text (data : string) : option pyval :=
  match json_loads data with
  | Some (PDict resp) =>
      if eq_str (get "status" resp) "success" then
        match extract_payload resp with
        | Ok p => Some p
        | Raise _ => None
        end
      else None
  | _ => None
  end.

(** Lines 186-217: [attempts] more frames are tried, the next one being
    the [i]-th that the connection delivers. *)
Fixpoint read_frames (attempts : nat) (recv : nat -> result WSMessage)
  (i : nat) : result session :=
  match attempts with
  | O => Ok {| frames_read := i; payload := None |}
  | S k =>
      do msg <- recv i;
      match msg_type msg with
      | TEXT =>
          match handle_text (msg_data msg) with
          | Some p => Ok {| frames_read := S i; payload := Some p |}
          | None => read_frames k recv (S i)
          end
      | CLOSED | ERROR => Ok {| frames_read := S i; payload := None |}
      | _ => read_frames k recv (S i)
      end
  end.

(** [realtime_data] after the session: the payload, or the initial []. *)
Definition realtime_data_of (s : session) : pyval :=
  match payload s with Some p => p | None => PList [] end.

(** ** Shape resolution (lines 245-265) *)

Definition list_keys : list string :=
  ["servers"; "nodes"; "clients"; "list"; "data"].

Fixpoint find_list_field (keys : list string) (d : dict)
  : option (list pyval) :=
  match keys with
  | [] => None
  | k :: ks =>
      match dict_get k d with
      | Some (PList l) => Some l
      | _ => find_list_field ks d
      end
  end.

Inductive shape :=
| Records (realtime_data : pyval)
| Unrecognized (keys : list string).

Definition resolve_shape (realtime_data : pyval) : shape :=
  match realtime_data with
  | PDict d =>
      match find_list_field list_keys d with
      | Some l => Records (PList l)
      | None =>
          match filter is_dict (map snd d) with
          | [] => Unrecognized (map fst d)
          | potential_nodes => Records (PList potential_nodes)
          end
      end
  | _ => Records realtime_data
  end.

(** ** Per-element validation (lines 268-279) *)

Definition validate (node : pyval) : option dict :=
  let decoded :=
    match node with
    | PStr s => json_loads s
    | _ => Some node
    end in
  match decoded with
  | Some (PDict d) => Some d
  | _ => None
  end.

(** ** Reconciliation with the static inventory (lines 281-299) *)

Definition placeholder_name : string := "未知节点".

(** [for k, v in static_info.items(): if k not in node or node[k] is None:
    node[k] = v] *)
Definition backfill (static_info node : dict) : dict :=
  fold_left
    (fun nd kv =>
       match dict_get (fst kv) nd with
       | None | Some PNone => dict_set (fst kv) (snd kv) nd
       | Some _ => nd
       end)
    static_info node.

Definition reconcile (static_nodes : static_map) (node : dict) : result dict :=
  let uuid := get "uuid" node in
  let node_id := get "id" node in
  let name := get "name" node in
  let lookup_key := py_or uuid node_id in
  do found <-
    (if truthy lookup_key then
       if hashable lookup_key then Ok (static_get lookup_key static_nodes)
       else Raise TypeError
     else Ok None);
  let '(node, name) :=
    match found with
    | Some static_info =>
        (backfill static_info node,
         if negb (truthy name) || eq_str name "Unknown"
         then get_default "name" name static_info else name)
    | None => (node, name)
    end in
  Ok (dict_set "name" (py_or name (PStr placeholder_name)) node).

(** ** Metric normalization (lines 301-370) *)

Definition GiB : Z := 1024 ^ 3.

(** [round(v / 1024**3, 2)] *)
Definition to_gb (v : pyval) : result pyval :=
  do q <- py_truediv v (PInt GiB);
  Ok (PFloat (Float64.round q 2)).

(** 1. CPU (lines 303-307) *)
Definition cpu_step (node : dict) : result dict :=
  match dict_get "cpu" node with
  | Some (PDict cpu) =>
      let cpu_usage := get_default "usage" (PInt 0) cpu in
      match cpu_usage with
      | PNone => Ok node
      | _ =>
          do f <- py_float cpu_usage;
          Ok (dict_set "cpu_usage_percent" (PFloat (Float64.round f 2)) node)
      end
  | _ => Ok node
  end.

(** The pattern that RAM (lines 310-319) and disk (lines 322-330) share:
    a nested group with [total] and [used], else a flat total. *)
Definition usage_step (group flat out_total out_used out_percent : string)
  (node : dict) : result dict :=
  match dict_get group node with
  | Some (PDict g) =>
      let total := get_default "total" (PInt 0) g in
      let used := get_default "used" (PInt 0) g in
      do positive <- py_gt total 0;
      if positive : bool then
        do t <- to_gb total;
        let node := dict_set out_total t node in
        do u <- to_gb used;
        let node := dict_set out_used u node in
        do q <- py_truediv used total;
        let p := Float64.round (Float64.mul q (Float64.of_Z 100)) 1 in
        Ok (dict_set out_percent (PFloat p) node)
      else Ok node
  | _ =>
      if dict_mem flat node then
        do t <- to_gb (get_default flat (PInt 0) node);
        Ok (dict_set out_total t node)
      else Ok node
  end.

(** 2. RAM *)
Definition ram_step : dict -> result dict :=
  usage_step "ram" "mem_total" "ram_total_gb" "ram_used_gb" "ram_usage_percent".

(** 3. Disk *)
Definition disk_step : dict -> result dict :=
  usage_step "disk" "disk_total" "disk_total_gb" "disk_used_gb"
    "disk_usage_percent".

Definition fmt_speed (b : pyval) : result pyval :=
  do big <- py_gt b (1024 * 1024);
  if big : bool then
    do q <- py_truediv b (PInt 1024);
    do q <- py_truediv (PFloat q) (PInt 1024);
    Ok (PStr (Float64.format_fixed q 1 ++ " MB/s"))
  else
    do q <- py_truediv b (PInt 1024);
    Ok (PStr (Float64.format_fixed q 1 ++ " KB/s")).

Definition fmt_traffic (b : pyval) : result pyval :=
  do big <- py_gt b (1024 ^ 3);
  if big : bool then
    do q <- py_truediv b (PInt (1024 ^ 3));
    Ok (PStr (Float64.format_fixed q 2 ++ " GB"))
  else
    do q <- py_truediv b (PInt (1024 ^ 2));
    Ok (PStr (Float64.format_fixed q 2 ++ " MB")).

(** 4. Network (lines 333-357) *)
Definition network_step (node : dict) : result dict :=
  match dict_get "network" node with
  | Some (PDict network) =>
      let up := get_default "up" (PInt 0) network in
      let down := get_default "down" (PInt 0) network in
      do s <- fmt_speed up;
      let node := dict_set "net_up_str" s node in
      do s <- fmt_speed down;
      let node := dict_set "net_down_str" s node in
      let total_up := get_default "totalUp" (PInt 0) network in
      let total_down := get_default "totalDown" (PInt 0) network in
      do s <- fmt_traffic total_up;
      let node := dict_set "traffic_up_str" s node in
      do s <- fmt_traffic total_down;
      Ok (dict_set "traffic_down_str" s node)
  | _ => Ok node
  end.

(** 5. Uptime (lines 360-364) *)
Definition uptime_step (node : dict) : result dict :=
  if dict_mem "uptime" node then
    let uptime_sec := get_default "uptime" (PInt 0) node in
    do days <- py_floordiv uptime_sec 86400;
    do r <- py_mod uptime_sec 86400;
    let hours := num_floordiv r 3600 in
    Ok (dict_set "uptime_str"
          (PStr (num_str days ++ "天 " ++ num_str hours ++ "小时")) node)
  else Ok node.

(** 6. Load (lines 367-370) *)
Definition load_step (node : dict) : result dict :=
  match dict_get "load" node with
  | Some (PDict load) =>
      let node := dict_set "load_1" (get "load1" load) node in
      let node := dict_set "load_5" (get "load5" load) node in
      Ok (dict_set "load_15" (get "load15" load) node)
  | _ => Ok node
  end.

Definition normalize_metrics (node : dict) : result dict :=
  do node <- cpu_step node;
  do node <- ram_step node;
  do node <- disk_step node;
  do node <- network_step node;
  do node <- uptime_step node;
  load_step node.

(** The body of the loop for an element that passed validation. *)
Definition process_node (static_nodes : static_map) (node : dict)
  : result dict :=
  do node <- reconcile static_nodes node;
  normalize_metrics node.

(** The loop of lines 267-372: [processed_nodes], or the exception that
    leaves the loop.  Records are processed as values.  The source shares
    a record between two positions of the list only when [online] repeats
    an identifier; the second pass over such a record reads the fields
    that the first pass read and writes the same derived fields. *)
Fixpoint process_nodes (static_nodes : static_map) (elems : list pyval)
  : result (list dict) :=
  match elems with
  | [] => Ok []
  | e :: rest =>
      match validate e with
      | None => process_nodes static_nodes rest
      | Some node =>
          do node' <- process_node static_nodes node;
          do nodes <- process_nodes static_nodes rest;
          Ok (node' :: nodes)
      end
  end.

(** ** The operation *)

Record KomariConfig := {
  komari_url : option string;
  image_output : bool
}.

(** What the connection does: it fails to open, or it delivers frames,
    the [i]-th [receive] giving [recv i]. *)
Inductive stream :=
| ConnectFails (e : exn)
| Connected (recv : nat -> result WSMessage).

Inductive outcome :=
| NotConfigured                 (* line 153 *)
| ConnectFailed (e : exn)       (* line 219 *)
| NoData                        (* line 223 *)
| BadShape (keys : list string) (* line 264 *)
| Presented (image : bool) (processed_nodes : list dict) (* lines 375-385 *)
| Unhandled (e : exn).          (* an exception that leaves the coroutine *)

(** Lines 222-385, from the [realtime_data] that the session left. *)
Definition present (cfg : KomariConfig) (static_nodes : static_map)
  (realtime_data : pyval) : outcome :=
  if negb (truthy realtime_data) then NoData
  else
    match resolve_shape realtime_data with
    | Unrecognized keys => BadShape keys
    | Records data =>
        match py_iter data with
        | Raise e => Unhandled e
        | Ok elems =>
            match process_nodes static_nodes elems with
            | Raise e => Unhandled e
            | Ok processed_nodes => Presented (image_output cfg) processed_nodes
            end
        end
    end.

Definition komari_realtime (cfg : KomariConfig) (nodes_response : pyval)
  (ws : stream) : outcome :=
  match komari_url cfg with
  | None | Some EmptyString => NotConfigured
  | Some _ =>
      let static_nodes := build_static_nodes nodes_response in
      match ws with
      | ConnectFails e => ConnectFailed e
      | Connected recv =>
          match read_frames 3 recv 0 with
          | Raise e => ConnectFailed e
          | Ok s => present cfg static_nodes (realtime_data_of s)
          end
      end
  end.

End Realtime.

(** ** The request/response operations (lines 47-56, 87-147 and 434-494) *)

(** [s.rstrip("/")] *)
Fixpoint rstrip_slash (s : string) : string :=
  match s with
  | EmptyString => EmptyString
  | String c rest =>
      match rstrip_slash rest with
      | EmptyString =>
          if Ascii.eqb c "/" then EmptyString else String c EmptyString
      | r => String c r
      end
  end.

(** [s.replace(old, new)] for a non-empty [old]: the occurrences are taken
    from the left and do not overlap.  [skip] counts the characters of the
    occurrence under way that are still to be passed. *)
Fixpoint replace_from (old new : string) (skip : nat) (s : string) : string :=
  match s with
  | EmptyString => EmptyString
  | String c rest =>
      match skip with
      | S k => replace_from old new k rest
      | O =>
          if String.prefix old s
          then (new ++ replace_from old new (Nat.pred (String.length old)) rest)%string
          else String c (replace_from old new 0 rest)
      end
  end.

Definition str_replace (old new s : string) : string := replace_from old new 0 s.

(** Lines 170-171: the address of the stream. *)
Definition ws_url (komari_url : string) : string :=
  (str_replace "http://" "ws://"
     (str_replace "https://" "wss://" (rstrip_slash komari_url))
   ++ "/api/clients")%string.

(** Lines 92-97 and 173-176: the headers of a request. *)
Definition auth_headers (komari_token : option string) : list (string * string) :=
  match komari_token with
  | None | Some EmptyString => []
  | Some token =>
      [("Authorization", ("Bearer " ++ token)%string);
       ("Cookie", ("session_token=" ++ token)%string)]
  end.

(** What a GET gives: the request raises (with the text of the
    exception), or a response arrives with its status and what
    [resp.json()] does, raising or giving the decoded body. *)
Inductive http_reply :=
| HttpRaises (e : string)
| HttpResponse (status : Z) (json : string + pyval).

Definition http_get := string -> list (string * string) -> http_reply.

Definition msg_not_configured : string := "请在插件设置中配置 Komari 服务器地址。".

(** Lines 87-107: the pair [(data, error)]. *)
Definition _fetch_api (cfg : KomariConfig) (komari_token : option string)
  (endpoint : string) (http : http_get) : pyval * option string :=
  match komari_url cfg with
  | None | Some EmptyString => (PNone, Some msg_not_configured)
  | Some base =>
      let url := (rstrip_slash base ++ endpoint)%string in
      match http url (auth_headers komari_token) with
      | HttpRaises e => (PNone, Some ("网络错误: " ++ e)%string)
      | HttpResponse status json =>
          if negb (status =? 200)
          then (PNone, Some ("API 请求错误: " ++ Float64.string_of_Z status)%string)
          else
            match json with
            | inr data => (data, None)
            | inl e => (PNone, Some ("网络错误: " ++ e)%string)
            end
      end
  end.

(** One node of the text report (lines 437-462).  The values that the
    f-strings print with [str] are kept as values; [text_mem] and
    [text_disk] are the texts of [f"{mem_gb:.2f}"] and
    [f"{disk_gb:.2f}"], [text_updated] is the line of the update time
    when there is one. *)
Record node_text := {
  text_region : pyval;
  text_name : pyval;
  text_os : pyval;
  text_cpu_name : pyval;
  text_cpu_cores : pyval;
  text_mem : string;
  text_disk : string;
  text_updated : option string
}.

(** What a command answers.  A text whose parts are values of the
    response is kept as its parts. *)
Inductive reply :=
| Plain (text : string)
| ApiFailed (message : pyval)          (* line 118 *)
| TextReport (entries : list node_text) (* line 464 *)
| ImageReply (img_url : string)        (* line 488 *)
| Version (version hash : pyval)       (* line 56 *)
| PublicSettings (sitename description theme : pyval) (* lines 143-147 *)
| Fault (e : exn).                     (* an exception that leaves the coroutine *)

(** [if error:] on what [_fetch_api] returned. *)
Definition error_text (error : option string) : option string :=
  match error with
  | Some EmptyString | None => None
  | Some e => Some e
  end.

(** [v / 1024 / 1024 / 1024] (lines 447-448) *)
Definition bytes_to_gb (v : pyval) : result spec_float :=
  do q <- py_truediv v (PInt 1024);
  do q <- py_truediv (PFloat q) (PInt 1024);
  py_truediv (PFloat q) (PInt 1024).

(** Lines 457-462: a falsy [updated_at] gives no line; one that is truthy
    has its [T] and [Z] replaced, which only a [str] can do. *)
Definition updated_line (updated : pyval) : result (option string) :=
  if truthy updated then
    match updated with
    | PStr s => Ok (Some (str_replace "Z" EmptyString (str_replace "T" " " s)))
    | _ => Raise AttributeError
    end
  else Ok None.

(** The body of the loop of lines 436-462 for one element of [nodes];
    [node.get] exists on a mapping only. *)
Definition node_text_of (node : pyval) : result node_text :=
  match node with
  | PDict d =>
      let name := get_default "name" (PStr "未知") d in
      let os_name := get_default "os" (PStr "未知") d in
      let cpu_name := get_default "cpu_name" (PStr "未知") d in
      let cpu_cores := get_default "cpu_cores" (PStr "?") d in
      let region := get_default "region" (PStr EmptyString) d in
      let mem := get_default "mem_total" (PInt 0) d in
      let disk := get_default "disk_total" (PInt 0) d in
      do mem_gb <- bytes_to_gb mem;
      do disk_gb <- bytes_to_gb disk;
      do updated <- updated_line (get_default "updated_at" (PStr EmptyString) d);
      Ok {| text_region := region;
            text_name := name;
            text_os := os_name;
            text_cpu_name := cpu_name;
            text_cpu_cores := cpu_cores;
            text_mem := Float64.format_fixed mem_gb 2;
            text_disk := Float64.format_fixed disk_gb 2;
            text_updated := updated |}
  | _ => Raise AttributeError
  end.

Fixpoint node_texts (elems : list pyval) : result (list node_text) :=
  match elems with
  | [] => Ok []
  | node :: rest =>
      do entry <- node_text_of node;
      do entries <- node_texts rest;
      Ok (entry :: entries)
  end.

(** Lines 434-464: the text report, or the exception that leaves the
    loop. *)
Definition _handle_text_output (nodes : pyval) : reply :=
  match (do elems <- py_iter nodes; node_texts elems) with
  | Ok entries => TextReport entries
  | Raise e => Fault e
  end.

(** [len(v)] *)
Definition py_len (v : pyval) : result nat :=
  match v with
  | PList l => Ok (List.length l)
  | PDict d => Ok (List.length d)
  | PStr s => Ok (List.length (utf8_chars s))
  | _ => Raise TypeError
  end.

(** What the image output works with: the template that [__init__] has
    loaded (empty when there is none), the [dark_theme] setting, and two
    functions of the framework: [html_render] on a template and its data
    (None when it raises) and whether [Image.fromURL] accepts an address
    (it raises when it does not). *)
Record renderer := {
  template_str : string;
  dark_theme : bool;
  html_render : string -> pyval -> option string;
  image_from_url : string -> bool
}.

(** Lines 466-494: every exception of the [try] falls back to the text
    report. *)
Definition _handle_image_output (env : renderer) (nodes : pyval) : reply :=
  match template_str env with
  | EmptyString => Plain "未找到 HTML 模板文件。"
  | String _ _ =>
      let data := PDict [("nodes", nodes); ("dark_theme", PBool (dark_theme env))] in
      match py_len nodes with
      | Raise _ => _handle_text_output nodes
      | Ok _ =>
          match html_render env (template_str env) data with
          | None => _handle_text_output nodes
          | Some EmptyString => Plain "图片生成失败: 未返回图片 URL"
          | Some img_url =>
              if image_from_url env img_url then ImageReply img_url
              else _handle_text_output nodes
          end
      end
  end.

(** Lines 109-129. *)
Definition komari_nodes (cfg : KomariConfig) (komari_token : option string)
  (http : http_get) (env : renderer) : reply :=
  let '(data, error) := _fetch_api cfg komari_token "/api/nodes" http in
  match error_text error with
  | Some e => Plain e
  | None =>
      match data with
      | PDict d =>
          if negb (eq_str (get "status" d) "success")
          then ApiFailed (get_default "message" (PStr "未知错误") d)
          else
            let nodes := get_default "data" (PList []) d in
            if negb (truthy nodes) then Plain "未找到任何节点。"
            else if image_output cfg then _handle_image_output env nodes
            else _handle_text_output nodes
      | _ => Fault AttributeError
      end
  end.



(** Lines 150-385 with the inventory request of line 159 and the
    connection of line 182 in place: [connect] is what [ws_connect] does
    for an address and headers. *)
Definition komari_realtime_command `{B : Builtins} (cfg : KomariConfig)
  (komari_token : option string) (http : http_get)
  (connect : string -> list (string * string) -> stream) : outcome :=
  match komari_url cfg with
  | None | Some EmptyString => NotConfigured
  | Some url =>
      komari_realtime cfg (fst (_fetch_api cfg komari_token "/api/nodes" http))
        (connect (ws_url url) (auth_headers komari_token))
  end.

(** * Definitions for the statements *)

(** ** What the specification asks of the online/detail pair *)

(** For each identifier of [online], in order, the detail record with the
    identifier as its [uuid]; identifiers without a detail record give
    nothing. *)
Definition online_records (ids : list pyval) (dm : dict) : list pyval :=
  flat_map
    (fun id =>
       match id with
       | PStr k =>
           match dict_get k dm with
           | Some (PDict r) => [PDict (dict_set "uuid" id r)]
           | _ => []
           end
       | _ => []
       end) ids.

(** ** Traversal of a list with a fallible function *)

Fixpoint mapM {A B : Type} (f : A -> result B) (l : list A) : result (list B) :=
  match l with
  | [] => Ok []
  | a :: rest =>
      do b <- f a;
      do bs <- mapM f rest;
      Ok (b :: bs)
  end.

(** ** The insertions into the static index *)

(** The insertions that one node causes, in order: under its [id], then
    under its [uuid], each when it is truthy. *)
Definition node_ops (n : dict) : list (hkey * dict) :=
  flat_map
    (fun field =>
       if truthy (get field n) then
         match key_of (get field n) with
         | Some hk => [(hk, n)]
         | None => []
         end
       else [])
    ["id"; "uuid"].

Definition apply_ops (ops : list (hkey * dict)) (acc : static_map) : static_map :=
  fold_left (fun a op => key_set (fst op) (snd op) a) ops acc.

(** ** The metric steps *)

Inductive metric := Cpu | Ram | Disk | Network | Uptime | Load.

Definition all_metrics : list metric := [Cpu; Ram; Disk; Network; Uptime; Load].

(** The fields that a step writes. *)
Definition derived_keys (m : metric) : list string :=
  match m with
  | Cpu => ["cpu_usage_percent"]
  | Ram => ["ram_total_gb"; "ram_used_gb"; "ram_usage_percent"]
  | Disk => ["disk_total_gb"; "disk_used_gb"; "disk_usage_percent"]
  | Network => ["net_up_str"; "net_down_str"; "traffic_up_str"; "traffic_down_str"]
  | Uptime => ["uptime_str"]
  | Load => ["load_1"; "load_5"; "load_15"]
  end.

(** The fields that the steps read. *)
Definition source_keys : list string :=
  ["cpu"; "ram"; "mem_total"; "disk"; "disk_total"; "network"; "uptime"; "load"].

Definition group_is_mapping (k : string) (node : dict) : bool :=
  match dict_get k node with Some (PDict _) => true | _ => false end.

(** A step has nothing to do: its group is absent or no mapping (and, for
    RAM and disk, there is no flat total either; for uptime, no field). *)
Definition skipped (m : metric) (node : dict) : bool :=
  match m with
  | Cpu => negb (group_is_mapping "cpu" node)
  | Ram => negb (group_is_mapping "ram" node) && negb (dict_mem "mem_total" node)
  | Disk => negb (group_is_mapping "disk" node) && negb (dict_mem "disk_total" node)
  | Network => negb (group_is_mapping "network" node)
  | Uptime => negb (dict_mem "uptime" node)
  | Load => negb (group_is_mapping "load" node)
  end.

(** A value that is no number: neither a bool, an int nor a float. *)
Definition not_number (v : pyval) : bool :=
  match as_num v with Some _ => false | None => true end.

(** The RAM or disk step meets a total that is no number: in the group
    when that is a mapping, else in the flat field. *)
Definition bad_usage (group flat : string) (node : dict) : bool :=
  match dict_get group node with
  | Some (PDict g) => not_number (get_default "total" (PInt 0) g)
  | _ =>
      match dict_get flat node with
      | Some v => not_number v
      | None => false
      end
  end.

(** Malformed values on which a step raises: a CPU usage that is a list
    or a mapping, a RAM or disk total that is no number, a network rate or
    traffic count that is no number, an uptime that is no number. *)
Definition raising_value (m : metric) (node : dict) : bool :=
  match m with
  | Cpu =>
      match dict_get "cpu" node with
      | Some (PDict g) =>
          match dict_get "usage" g with
          | Some (PList _) | Some (PDict _) => true
          | _ => false
          end
      | _ => false
      end
  | Ram => bad_usage "ram" "mem_total" node
  | Disk => bad_usage "disk" "disk_total" node
  | Network =>
      match dict_get "network" node with
      | Some (PDict g) =>
          existsb (fun k => not_number (get_default k (PInt 0) g))
            ["up"; "down"; "totalUp"; "totalDown"]
      | _ => false
      end
  | Uptime =>
      match dict_get "uptime" node with
      | Some v => not_number v
      | None => false
      end
  | Load => false
  end.

Section Derived.
Context `{B : Builtins}.

(** The elements that pass validation, as mappings, in order. *)
Definition valid_records (elems : list pyval) : list dict :=
  flat_map (fun e => match validate e with Some d => [d] | None => [] end)
    elems.

Definition dropped (e : pyval) : bool :=
  match validate e with Some _ => false | None => true end.

Definition step_of (m : metric) : dict -> result dict :=
  match m with
  | Cpu => cpu_step
  | Ram => ram_step
  | Disk => disk_step
  | Network => network_step
  | Uptime => uptime_step
  | Load => load_step
  end.

Fixpoint run_steps (ms : list metric) (node : dict) : result dict :=
  match ms with
  | [] => Ok node
  | m :: rest =>
      do node <- step_of m node;
      run_steps rest node
  end.

End Derived.

(** ** Predicates of the further properties *)

(** One step of the backfill loop. *)
Definition backfill_step (nd : dict) (kv : string * pyval) : dict :=
  match dict_get (fst kv) nd with
  | None | Some PNone => dict_set (fst kv) (snd kv) nd
  | Some _ => nd
  end.

Definition is_none (v : pyval) : bool :=
  match v with PNone => true | _ => false end.

(** The record [r] has a truthy [id] or [uuid] whose key is [hk]. *)
Definition carries (hk : hkey) (r : dict) : Prop :=
  exists field,
    (field = "id" \/ field = "uuid")
    /\ truthy (get field r) = true /\ key_of (get field r) = Some hk.

(** No step writes a field that a later step of the list writes. *)
Fixpoint steps_disjoint (ms : list metric) : Prop :=
  match ms with
  | [] => True
  | m :: rest =>
      (forall m', In m' rest ->
                  forall k, In k (derived_keys m) -> ~ In k (derived_keys m'))
      /\ steps_disjoint rest
  end.


Definition not_inf (x : spec_float) : Prop :=
  match x with S754_infinity _ => False | _ => True end.

(** A bool or an int below 2^1000 in magnitude. *)
Definition small_int (v : pyval) : bool :=
  match as_num v with
  | Some (NInt z) => Z.abs z <? 2 ^ 1000
  | _ => false
  end.

Definition field_ok (k : string) (g : dict) : bool :=
  match dict_get k g with
  | None => true
  | Some v => small_int v
  end.

Definition cpu_ok (node : dict) : bool :=
  match dict_get "cpu" node with
  | Some (PDict g) =>
      match dict_get "usage" g with
      | None | Some PNone => true
      | Some v => small_int v
      end
  | _ => true
  end.

Definition usage_ok (group flat : string) (node : dict) : bool :=
  match dict_get group node with
  | Some (PDict g) => field_ok "total" g && field_ok "used" g
  | _ => field_ok flat node
  end.

Definition network_ok (node : dict) : bool :=
  match dict_get "network" node with
  | Some (PDict g) =>
      field_ok "up" g && field_ok "down" g
      && field_ok "totalUp" g && field_ok "totalDown" g
  | _ => true
  end.

Definition uptime_ok (node : dict) : bool :=
  match dict_get "uptime" node with
  | None => true
  | Some v => match as_num v with Some _ => true | None => false end
  end.

(** Every value that the steps compute with is a number that they can
    handle: ints (or bools) below 2^1000 in magnitude in the groups and in
    the flat totals, a number of any kind for the uptime, nothing or null
    or such an int for the CPU usage. *)
Definition metrics_ok (node : dict) : bool :=
  cpu_ok node && usage_ok "ram" "mem_total" node
  && usage_ok "disk" "disk_total" node && network_ok node && uptime_ok node.

(** ** Concrete inputs

    The examples decode four texts.  [example_builtins] agrees with
    [json.loads] on them and on the one text that it rejects in an
    example ([oops]); no example converts a [str] to [float] or prints a
    [float] with [str]. *)

Definition jstr (s : string) : string :=
  (String "034" s ++ String "034" EmptyString)%string.

(** [{"status":"success","data":{"online":["a"],"data":{"a":1}}}] *)
Definition text_bad_pair : string :=
  ("{" ++ jstr "status" ++ ":" ++ jstr "success" ++ "," ++ jstr "data" ++ ":{"
   ++ jstr "online" ++ ":[" ++ jstr "a" ++ "]," ++ jstr "data" ++ ":{"
   ++ jstr "a" ++ ":1}}}")%string.

(** [{"status":"success","data":[{"name":"n1"}]}] *)
Definition text_one_node : string :=
  ("{" ++ jstr "status" ++ ":" ++ jstr "success" ++ "," ++ jstr "data" ++ ":[{"
   ++ jstr "name" ++ ":" ++ jstr "n1" ++ "}]}")%string.

(** [{"status":"success","data":[1]}] *)
Definition text_no_record : string :=
  ("{" ++ jstr "status" ++ ":" ++ jstr "success" ++ "," ++ jstr "data"
   ++ ":[1]}")%string.

Definition example_texts : list (string * pyval) :=
  [(text_bad_pair,
    PDict [("status", PStr "success");
           ("data", PDict [("online", PList [PStr "a"]);
                           ("data", PDict [("a", PInt 1)])])]);
   (text_one_node,
    PDict [("status", PStr "success");
           ("data", PList [PDict [("name", PStr "n1")]])]);
   (text_no_record,
    PDict [("status", PStr "success"); ("data", PList [PInt 1])]);
   ("{}", PDict [])].

Definition example_builtins : Builtins :=
  {| json_loads := fun s => assoc_get s example_texts;
     float_of_str := fun _ => None;
     float_repr := fun _ => EmptyString |}.

Definition text_frame (s : string) : result WSMessage :=
  Ok {| msg_type := TEXT; msg_data := s |}.

(** A connection that delivers the given frames and is closed after them. *)
Definition frames (l : list (result WSMessage)) (i : nat) : result WSMessage :=
  nth i l (Ok {| msg_type := CLOSED; msg_data := EmptyString |}).

Definition text_config : KomariConfig :=
  {| komari_url := Some "https://status.example.com"; image_output := false |}.

(** The payload [{online: [a, b], data: {a: .., b: .., c: ..}}]. *)
Definition pair_response : dict :=
  [("status", PStr "success");
   ("data",
    PDict [("online", PList [PStr "a"; PStr "b"]);
           ("data",
            PDict [("a", PDict [("name", PStr "n1")]);
                   ("b", PDict [("name", PStr "n2")]);
                   ("c", PDict [("name", PStr "n3")])])])].

(** A payload with a sequence under [nodes] and other keys besides. *)
Definition nodes_response : dict :=
  [("status", PStr "success");
   ("data",
    PDict [("count", PInt 2);
           ("nodes", PList [PDict [("name", PStr "n1")]; PDict [("name", PStr "n2")]]);
           ("data", PList [PDict [("name", PStr "n3")]])])].

(** Five raw elements, the third of which cannot be decoded. *)
Definition five_elements : list pyval :=
  [PDict [("name", PStr "n1")];
   PDict [("name", PStr "n2")];
   PStr "oops";
   PStr "{}";
   PDict [("uuid", PStr "u5")]].

(** An inventory of two nodes with distinct keys. *)
Definition box1 : dict :=
  [("id", PStr "i1"); ("uuid", PStr "u1"); ("name", PStr "Box1")].

Definition box2 : dict :=
  [("id", PStr "i2"); ("uuid", PStr "u2"); ("name", PStr "Box2")].

Definition two_boxes : dict :=
  [("status", PStr "success"); ("data", PList [PDict box1; PDict box2])].

(** A node whose [id] is the number 0. *)
Definition node_zero : dict := [("id", PInt 0); ("uuid", PStr "u1")].

(** Records for the metric steps. *)
Definition node_cpu_string : dict := [("cpu", PStr "n/a"); ("uptime", PInt 90000)].

Definition node_ram_string : dict :=
  [("ram", PDict [("total", PStr "8 GB")]); ("uptime", PInt 90000)].

Definition node_8gib : dict :=
  [("ram", PDict [("total", PInt 8589934592); ("used", PInt 4294967296)])].

Definition node_ram_zero : dict :=
  [("ram", PDict [("total", PInt 0); ("used", PInt 0)]);
   ("mem_total", PInt 8589934592)].

(** * Properties *)

(** ** Association lists *)

Section AssocFacts.
Context {A : Type}.
Implicit Types (k : string) (v : A) (d : list (string * A)).

Lemma assoc_get_set_same k v d : assoc_get k (assoc_set k v d) = Some v.
Proof.
  induction d as [|[k' v'] d IH]; simpl.
  - now rewrite String.eqb_refl.
  - destruct (String.eqb k k') eqn:E; simpl.
    + now rewrite String.eqb_refl.
    + now rewrite E.
Qed.

Lemma assoc_get_set_other k k' v d :
  k <> k' -> assoc_get k' (assoc_set k v d) = assoc_get k' d.
Proof.
  intros Hne. induction d as [|[k0 v0] d IH]; simpl.
  - destruct (String.eqb k' k) eqn:E; [|reflexivity].
    apply String.eqb_eq in E. congruence.
  - destruct (String.eqb k k0) eqn:E; simpl.
    + apply String.eqb_eq in E. subst k0.
      destruct (String.eqb k' k) eqn:E'; [|reflexivity].
      apply String.eqb_eq in E'. congruence.
    + now rewrite IH.
Qed.

Lemma assoc_set_twice k v v' d :
  assoc_set k v (assoc_set k v' d) = assoc_set k v d.
Proof.
  induction d as [|[k0 v0] d IH]; simpl.
  - now rewrite String.eqb_refl.
  - destruct (String.eqb k k0) eqn:E; simpl.
    + now rewrite String.eqb_refl.
    + now rewrite E, IH.
Qed.

Lemma assoc_mem_set k k' v d :
  assoc_mem k' (assoc_set k v d) = (String.eqb k k' || assoc_mem k' d)%bool.
Proof.
  unfold assoc_mem. destruct (String.eqb k k') eqn:E.
  - apply String.eqb_eq in E. subst. now rewrite assoc_get_set_same.
  - apply String.eqb_neq in E. now rewrite assoc_get_set_other.
Qed.
End AssocFacts.

Lemma dict_get_set_same k v (d : dict) : dict_get k (dict_set k v d) = Some v.
Proof. apply assoc_get_set_same. Qed.

Lemma dict_get_set_other k k' v (d : dict) :
  k <> k' -> dict_get k' (dict_set k v d) = dict_get k' d.
Proof. apply assoc_get_set_other. Qed.

Lemma dict_set_twice k v v' (d : dict) :
  dict_set k v (dict_set k v' d) = dict_set k v d.
Proof. apply assoc_set_twice. Qed.

Lemma dict_mem_get k (d : dict) :
  dict_mem k d = match dict_get k d with Some _ => true | None => false end.
Proof. reflexivity. Qed.

(** ** Numbers within the range of a float *)

Lemma digits2_pos_lower p : 2 ^ (Zpos (digits2_pos p) - 1) <= Zpos p.
Proof.
  induction p as [p IH|p IH|]; simpl digits2_pos.
  - rewrite Pos2Z.inj_succ. replace (Z.succ (Zpos (digits2_pos p)) - 1)
      with (Z.succ (Zpos (digits2_pos p) - 1)) by lia.
    rewrite Z.pow_succ_r by lia. lia.
  - rewrite Pos2Z.inj_succ. replace (Z.succ (Zpos (digits2_pos p)) - 1)
      with (Z.succ (Zpos (digits2_pos p) - 1)) by lia.
    rewrite Z.pow_succ_r by lia. lia.
  - simpl. lia.
Qed.

Lemma Zdigits2_le m k : 0 <= m -> 0 <= k -> m < 2 ^ k -> Zdigits2 m <= k.
Proof.
  intros Hm Hk Hlt. destruct m as [|p|p]; simpl; [lia| |lia].
  destruct (Z_le_gt_dec (Zpos (digits2_pos p)) k) as [H|H]; [exact H|].
  pose proof (digits2_pos_lower p) as Hlow.
  assert (2 ^ k <= 2 ^ (Zpos (digits2_pos p) - 1))
    by (apply Z.pow_le_mono_r; lia).
  lia.
Qed.

Lemma shr_1_m mrs : 0 <= shr_m mrs -> shr_m (shr_1 mrs) = shr_m mrs / 2.
Proof.
  destruct mrs as [m r s]. simpl. intros Hm.
  rewrite <- Z.div2_div.
  destruct m as [|[p|p|]|p]; try reflexivity; lia.
Qed.

Lemma iter_shr_m p :
  forall mrs, 0 <= shr_m mrs ->
              shr_m (iter_pos shr_1 p mrs) = shr_m mrs / 2 ^ Zpos p.
Proof.
  induction p as [p IH|p IH|]; intros mrs Hm; simpl iter_pos.
  - assert (Hp : 0 < 2 ^ Zpos p) by (apply Z.pow_pos_nonneg; lia).
    assert (H1 : 0 <= shr_m (shr_1 mrs))
      by (rewrite shr_1_m by lia; apply Z.div_pos; lia).
    assert (H2 : 0 <= shr_m (iter_pos shr_1 p (shr_1 mrs)))
      by (rewrite IH by lia; apply Z.div_pos; lia).
    rewrite IH by lia. rewrite IH by lia. rewrite shr_1_m by lia.
    rewrite !Z.div_div by lia.
    f_equal.
    assert (E : 2 ^ Z.pos p~1 = 2 * (2 ^ Zpos p * 2 ^ Zpos p)).
    { replace (Z.pos p~1) with (Z.succ (Zpos p + Zpos p)) by lia.
      rewrite Z.pow_succ_r by lia. now rewrite Z.pow_add_r by lia. }
    now rewrite E.
  - assert (Hp : 0 < 2 ^ Zpos p) by (apply Z.pow_pos_nonneg; lia).
    assert (H2 : 0 <= shr_m (iter_pos shr_1 p mrs))
      by (rewrite IH by lia; apply Z.div_pos; lia).
    rewrite IH by lia. rewrite IH by lia.
    rewrite Z.div_div by lia.
    f_equal.
    replace (Z.pos p~0) with (Zpos p + Zpos p) by lia.
    now rewrite Z.pow_add_r by lia.
  - rewrite shr_1_m by lia. reflexivity.
Qed.

Lemma shr_spec mrs e n :
  0 <= shr_m mrs ->
  snd (shr mrs e n) = e + Z.max 0 n
  /\ shr_m (fst (shr mrs e n)) = shr_m mrs / 2 ^ Z.max 0 n.
Proof.
  intros Hm. destruct n as [|p|p]; simpl.
  - split; [lia|now rewrite Z.div_1_r].
  - split; [lia|]. now apply iter_shr_m.
  - split; [lia|now rewrite Z.div_1_r].
Qed.

Lemma shr_record_m m l : shr_m (shr_record_of_loc m l) = m.
Proof. destruct l as [|[]]; reflexivity. Qed.

Lemma fexp_mono x y : x <= y -> fexp Float64.prec Float64.emax x <= fexp Float64.prec Float64.emax y.
Proof. unfold fexp, emin, Float64.prec, Float64.emax. lia. Qed.

Lemma shr_fexp_spec m e l (K : Z) :
  0 <= K -> 0 <= m -> m < 2 ^ (K - e) -> e <= K ->
  e <= snd (shr_fexp Float64.prec Float64.emax m e l)
  /\ snd (shr_fexp Float64.prec Float64.emax m e l) <= Z.max e (fexp Float64.prec Float64.emax K)
  /\ 0 <= shr_m (fst (shr_fexp Float64.prec Float64.emax m e l))
  /\ shr_m (fst (shr_fexp Float64.prec Float64.emax m e l))
     < 2 ^ (K - snd (shr_fexp Float64.prec Float64.emax m e l)).
Proof.
  intros HK Hm Hlt He. unfold shr_fexp.
  set (n := fexp Float64.prec Float64.emax (Zdigits2 m + e) - e).
  destruct (shr_spec (shr_record_of_loc m l) e n) as [Hs Hv];
    [rewrite shr_record_m; lia|].
  rewrite Hs, Hv, shr_record_m.
  assert (Hd : Zdigits2 m <= K - e) by (apply Zdigits2_le; lia).
  assert (Hf : fexp Float64.prec Float64.emax (Zdigits2 m + e) <= fexp Float64.prec Float64.emax K)
    by (apply fexp_mono; lia).
  assert (HfK : fexp Float64.prec Float64.emax K <= K)
    by (unfold fexp, emin, Float64.prec, Float64.emax; lia).
  assert (Hp : 0 < 2 ^ Z.max 0 n) by (apply Z.pow_pos_nonneg; lia).
  repeat split; try lia.
  - apply Z.div_pos; lia.
  - apply Z.div_lt_upper_bound; [lia|].
    rewrite <- Z.pow_add_r by lia.
    replace (Z.max 0 n + (K - (e + Z.max 0 n))) with (K - e) by lia.
    exact Hlt.
Qed.

Lemma round_nearest_even_bounds m l :
  0 <= m -> m <= round_nearest_even m l <= m + 1.
Proof.
  intros Hm. unfold round_nearest_even.
  destruct l as [|[]]; try lia. destruct (Z.even m); lia.
Qed.

Lemma binary_round_aux_finite s m e l :
  0 <= m -> e <= 0 -> m < 2 ^ (1000 - e) ->
  not_inf (binary_round_aux Float64.prec Float64.emax s m e l).
Proof.
  intros Hm He Hlt. unfold binary_round_aux.
  destruct (shr_fexp_spec m e l 1000) as (H1 & H2 & H3 & H4); try lia.
  change (fexp Float64.prec Float64.emax 1000) with 947 in H2.
  destruct (shr_fexp Float64.prec Float64.emax m e l) as [mrs1 e1].
  cbn [fst snd] in H1, H2, H3, H4.
  pose proof (round_nearest_even_bounds (shr_m mrs1) (loc_of_shr_record mrs1) H3)
    as Hr.
  set (m1 := round_nearest_even (shr_m mrs1) (loc_of_shr_record mrs1)) in *.
  assert (Hlt1 : m1 < 2 ^ (1001 - e1)).
  { replace (1001 - e1) with (Z.succ (1000 - e1)) by lia.
    rewrite Z.pow_succ_r by lia. lia. }
  destruct (shr_fexp_spec m1 e1 loc_Exact 1001) as (G1 & G2 & G3 & G4);
    try lia.
  change (fexp Float64.prec Float64.emax 1001) with 948 in G2.
  destruct (shr_fexp Float64.prec Float64.emax m1 e1 loc_Exact) as [mrs2 e2].
  cbn [fst snd] in G1, G2, G3, G4.
  destruct (shr_m mrs2); try exact I.
  destruct (e2 <=? Float64.emax - Float64.prec) eqn:E; [exact I|].
  apply Z.leb_gt in E. unfold Float64.emax, Float64.prec in E. lia.
Qed.

Lemma iter_xO m d : Zpos (Pos.iter xO m d) = Zpos m * 2 ^ Zpos d.
Proof.
  induction d as [|d IH] using Pos.peano_ind.
  - simpl. lia.
  - rewrite Pos.iter_succ, Pos2Z.inj_xO, IH, Pos2Z.inj_succ.
    rewrite Z.pow_succ_r by lia. lia.
Qed.

Lemma binary_round_finite s m :
  Zpos m < 2 ^ 1000 -> not_inf (binary_round Float64.prec Float64.emax s m 0).
Proof.
  intros Hm. unfold binary_round, shl_align.
  set (f := fexp Float64.prec Float64.emax (Zpos (digits2_pos m) + 0)).
  destruct (f - 0) as [|d|d] eqn:Ed.
  - apply binary_round_aux_finite; simpl; lia.
  - apply binary_round_aux_finite; simpl; lia.
  - apply binary_round_aux_finite; [lia|lia|].
    rewrite iter_xO.
    replace (1000 - f) with (1000 + Zpos d) by lia.
    rewrite Z.pow_add_r by lia.
    assert (0 < 2 ^ Zpos d) by (apply Z.pow_pos_nonneg; lia).
    nia.
Qed.

Lemma SFdiv_finite s s' ma mb :
  Zpos ma < 2 ^ 1000 ->
  not_inf (SFdiv Float64.prec Float64.emax (S754_finite s ma 0) (S754_finite s' mb 0)).
Proof.
  intros Hm. unfold SFdiv, SFdiv_core_binary.
  set (e' := Z.min (fexp Float64.prec Float64.emax (Zdigits2 (Zpos ma) + 0 - (Zdigits2 (Zpos mb) + 0)))
                   (0 - 0)).
  set (sh := 0 - 0 - e').
  set (m' := match sh with
             | Zpos _ => Z.shiftl (Zpos ma) sh
             | Z0 => Zpos ma
             | Zneg _ => 0
             end).
  assert (He : e' <= 0) by (unfold e'; lia).
  assert (Hm' : 0 <= m' /\ m' < 2 ^ (1000 - e')).
  { unfold m'. destruct sh as [|p|p] eqn:Es.
    - replace e' with 0 by lia. simpl. lia.
    - rewrite Z.shiftl_mul_pow2 by lia.
      replace (1000 - e') with (1000 + Zpos p) by lia.
      rewrite Z.pow_add_r by lia.
      assert (0 < 2 ^ Zpos p) by (apply Z.pow_pos_nonneg; lia).
      nia.
    - split; [lia|]. apply Z.pow_pos_nonneg; lia. }
  pose proof (Z.div_pos m' (Zpos mb) ltac:(lia) ltac:(lia)) as Hq0.
  assert (Hq : m' / Zpos mb <= m').
  { apply Z.div_le_upper_bound; [lia|]. nia. }
  unfold Z.div in Hq0, Hq.
  destruct (Z.div_eucl m' (Zpos mb)) as [q r]. simpl in Hq0, Hq.
  apply binary_round_aux_finite; lia.
Qed.

Lemma not_inf_is_inf x : not_inf x -> Float64.is_inf x = false.
Proof. destruct x; simpl; try reflexivity. contradiction. Qed.

Lemma of_Z_finite z :
  Z.abs z < 2 ^ 1000 -> Float64.is_inf (Float64.of_Z z) = false.
Proof.
  intros Hz. apply not_inf_is_inf. unfold Float64.of_Z, binary_normalize.
  destruct z as [|m|m]; [exact I| |]; apply binary_round_finite; exact Hz.
Qed.

Lemma div_Z_finite a b :
  Z.abs a < 2 ^ 1000 -> Float64.is_inf (Float64.div_Z a b) = false.
Proof.
  intros Ha. apply not_inf_is_inf. unfold Float64.div_Z.
  destruct (Z.abs a) as [|ma|ma] eqn:Ea; try exact I.
  destruct (Z.abs b) as [|mb|mb]; try exact I.
  now apply SFdiv_finite.
Qed.

(** ** The online/detail pair *)

Section OnlineDetail.
Variable dm : dict.
Hypothesis dm_records : forall k v, dict_get k dm = Some v -> is_dict v = true.

Let stamped (k : string) (r : dict) : pyval :=
  PDict (dict_set "uuid" (PStr k) r).

(** A detail map that the loop has partly stamped. *)
Let partly_stamped (cur : dict) : Prop :=
  forall k,
    dict_get k cur = dict_get k dm
    \/ exists r, dict_get k dm = Some (PDict r)
                 /\ dict_get k cur = Some (stamped k r).

Let all_stamped (cur : dict) (refs : list pyval) : Prop :=
  Forall (fun ref => exists k r,
              ref = PStr k /\ dict_get k dm = Some (PDict r)
              /\ dict_get k cur = Some (stamped k r)) refs.

Let listed (id : pyval) : bool :=
  match id with PStr k => dict_mem k dm | _ => false end.

Lemma partly_stamped_mem cur k :
  partly_stamped cur -> dict_mem k cur = dict_mem k dm.
Proof.
  intros Hc. rewrite !dict_mem_get.
  destruct (Hc k) as [-> | (r & -> & ->)]; reflexivity.
Qed.

Lemma collect_online_dict ids :
  forall cur refs,
    partly_stamped cur -> all_stamped cur refs ->
    forallb hashable ids = true ->
    exists cur',
      collect_online ids (PDict cur) refs
      = Ok (PDict cur', refs ++ filter listed ids)
      /\ all_stamped cur' (refs ++ filter listed ids).
Proof.
  induction ids as [|id ids IH]; intros cur refs Hc Hr Hh; simpl in *.
  - exists cur. now rewrite app_nil_r.
  - apply andb_prop in Hh as [Hid Hh].
    rewrite Hid.
    destruct id as [| b | z | f | k | l | d]; try discriminate Hid;
      simpl; try (apply IH; assumption).
    rewrite (partly_stamped_mem cur k Hc).
    destruct (dict_mem k dm) eqn:Hm; simpl; [|apply IH; assumption].
    rewrite dict_mem_get in Hm.
    destruct (dict_get k dm) as [v|] eqn:Hv; [clear Hm|discriminate].
    pose proof (dm_records k v Hv) as Hd.
    destruct v as [| | | | | |r]; try discriminate Hd.
    assert (Hnew : exists v', dict_get k cur = Some v'
              /\ py_setitem v' "uuid" (PStr k) = Ok (stamped k r)).
    { destruct (Hc k) as [E | (r' & E1 & E2)].
      - exists (PDict r). split; [congruence|reflexivity].
      - assert (r' = r) by congruence. subst r'.
        exists (stamped k r). split; [assumption|].
        unfold stamped. simpl. now rewrite dict_set_twice. }
    destruct Hnew as (v' & Hg & Hs).
    rewrite Hg. simpl. rewrite Hs. simpl.
    destruct (IH (dict_set k (stamped k r) cur) (refs ++ [PStr k]))
      as (cur' & Hrun & Hall); [| |assumption|].
    + intros k0. destruct (String.eqb k k0) eqn:E.
      * apply String.eqb_eq in E. subst k0. right. exists r.
        split; [assumption|apply dict_get_set_same].
      * apply String.eqb_neq in E.
        rewrite dict_get_set_other by assumption. apply Hc.
    + apply Forall_app. split.
      * eapply Forall_impl; [|exact Hr].
        intros ref (k0 & r0 & -> & H1 & H2). exists k0, r0.
        split; [reflexivity|split; [assumption|]].
        destruct (String.eqb k k0) eqn:E.
        -- apply String.eqb_eq in E. subst k0.
           assert (r0 = r) by congruence. subst r0.
           apply dict_get_set_same.
        -- apply String.eqb_neq in E.
           now rewrite dict_get_set_other.
      * constructor; [|constructor]. exists k, r.
        split; [reflexivity|split; [assumption|apply dict_get_set_same]].
    + exists cur'. rewrite <- app_assoc in Hrun, Hall. simpl in Hrun, Hall.
      split; assumption.
Qed.

Lemma deref_stamped cur ids :
  all_stamped cur (filter listed ids) ->
  deref_all (PDict cur) (filter listed ids) = Ok (online_records ids dm).
Proof.
  induction ids as [|id ids IH]; intros Hall; simpl in *; [reflexivity|].
  destruct (listed id) eqn:Hl.
  - inversion Hall as [|? ? (k & r & -> & H1 & H2) Hrest]; subst.
    simpl. rewrite H2. simpl. rewrite (IH Hrest). simpl.
    rewrite H1. reflexivity.
  - rewrite (IH Hall).
    destruct id as [| | | |k| |]; try reflexivity.
    simpl in Hl. rewrite dict_mem_get in Hl.
    destruct (dict_get k dm) as [v|]; [discriminate|reflexivity].
Qed.

Lemma online_pair_records ids :
  forallb hashable ids = true ->
  exists st,
    collect_online ids (PDict dm) [] = Ok st
    /\ deref_all (fst st) (snd st) = Ok (online_records ids dm).
Proof.
  intros Hh.
  destruct (collect_online_dict ids dm []) as (cur' & Hrun & Hall);
    [intros k; now left|constructor|assumption|].
  simpl in Hrun, Hall. eexists. split; [exact Hrun|].
  simpl. now apply deref_stamped.
Qed.
End OnlineDetail.

Lemma online_records_spec ids dm rec :
  In rec (online_records ids dm) ->
  exists k r,
    In (PStr k) ids /\ dict_get k dm = Some (PDict r)
    /\ rec = PDict (dict_set "uuid" (PStr k) r)
    /\ get "uuid" (dict_set "uuid" (PStr k) r) = PStr k.
Proof.
  unfold online_records. rewrite in_flat_map.
  intros (id & Hin & Hrec).
  destruct id as [| | | |k| |]; try contradiction.
  destruct (dict_get k dm) as [[| | | | | |r]|] eqn:E; try contradiction.
  destruct Hrec as [<-|[]]. exists k, r.
  repeat split; try assumption.
  unfold get, get_default. now rewrite dict_get_set_same.
Qed.

(** C1: for a payload with an [online] sequence of identifiers and a
    [data] mapping from identifier to record, the extraction yields, for
    each identifier of [online] in order, the detail record of that
    identifier with the identifier injected as [uuid]; identifiers without
    a detail record are skipped, and nothing else is emitted. *)
Theorem C1_online_detail_pair (resp rd dm : dict) (ids : list pyval) :
  dict_get "data" resp = Some (PDict rd) ->
  dict_get "online" rd = Some (PList ids) ->
  dict_get "data" rd = Some (PDict dm) ->
  forallb hashable ids = true ->
  (forall k v, dict_get k dm = Some v -> is_dict v = true) ->
  extract_payload resp = Ok (PList (online_records ids dm))
  /\ forall rec, In rec (online_records ids dm) ->
       exists k r,
         In (PStr k) ids /\ dict_get k dm = Some (PDict r)
         /\ rec = PDict (dict_set "uuid" (PStr k) r)
         /\ get "uuid" (dict_set "uuid" (PStr k) r) = PStr k.
Proof.
  intros Hdata Honline Hdm Hh Hrec. split.
  - unfold extract_payload, get_default. rewrite Hdata.
    rewrite !dict_mem_get, Honline, Hdm. simpl.
    destruct (online_pair_records dm Hrec ids Hh) as (st & Hrun & Hderef).
    rewrite Hrun. simpl. rewrite Hderef. reflexivity.
  - apply online_records_spec.
Qed.

(** The payload [{online: [a, b], data: {a: .., b: .., c: ..}}] of the
    specification. *)
Lemma C1_online_detail_pair_witness :
  extract_payload pair_response
  = Ok (PList [PDict [("name", PStr "n1"); ("uuid", PStr "a")];
               PDict [("name", PStr "n2"); ("uuid", PStr "b")]]).
Proof.
  refine (proj1 (C1_online_detail_pair pair_response
                   [("online", PList [PStr "a"; PStr "b"]);
                    ("data",
                     PDict [("a", PDict [("name", PStr "n1")]);
                            ("b", PDict [("name", PStr "n2")]);
                            ("c", PDict [("name", PStr "n3")])])]
                   [("a", PDict [("name", PStr "n1")]);
                    ("b", PDict [("name", PStr "n2")]);
                    ("c", PDict [("name", PStr "n3")])]
                   [PStr "a"; PStr "b"]
                   eq_refl eq_refl eq_refl eq_refl _)).
  intros k v. simpl.
  destruct (String.eqb k "a"); [intros [= <-]; reflexivity|].
  destruct (String.eqb k "b"); [intros [= <-]; reflexivity|].
  destruct (String.eqb k "c"); [intros [= <-]; reflexivity|].
  discriminate.
Defined.

(** ** Conventional list keys *)

Lemma find_list_field_first (d : dict) (k : string) (l : list pyval) after :
  forall before,
    dict_get k d = Some (PList l) ->
    (forall k', In k' before -> is_list (get k' d) = false) ->
    find_list_field (before ++ k :: after) d = Some l.
Proof.
  induction before as [|k0 before IH]; intros Hk Hb; simpl.
  - now rewrite Hk.
  - pose proof (Hb k0 (or_introl eq_refl)) as H0.
    unfold get, get_default in H0.
    destruct (dict_get k0 d) as [[| | | | |l0|]|];
      try discriminate H0; apply IH; auto; intros; apply Hb; now right.
Qed.

Section Shapes.
Context `{B : Builtins}.

(** C2: a mapping payload without the online/detail pair that holds a
    sequence under one of [servers], [nodes], [clients], [list], [data]
    is resolved to the sequence under the first such key, in its order,
    and that sequence is what the element loop runs over. *)
Theorem C2_conventional_list_key (cfg : KomariConfig) (static_nodes : static_map)
  (resp d : dict) (before after : list string) (k : string)
  (l : list pyval) :
  dict_get "data" resp = Some (PDict d) ->
  (dict_mem "online" d && dict_mem "data" d)%bool = false ->
  list_keys = before ++ k :: after ->
  dict_get k d = Some (PList l) ->
  (forall k', In k' before -> is_list (get k' d) = false) ->
  extract_payload resp = Ok (PDict d)
  /\ resolve_shape (PDict d) = Records (PList l)
  /\ present cfg static_nodes (PDict d)
     = match process_nodes static_nodes l with
       | Ok processed_nodes => Presented (image_output cfg) processed_nodes
       | Raise e => Unhandled e
       end.
Proof.
  intros Hdata Hpair Hkeys Hk Hbefore.
  assert (Hres : resolve_shape (PDict d) = Records (PList l)).
  { unfold resolve_shape. rewrite Hkeys.
    now rewrite (find_list_field_first d k l after before Hk Hbefore). }
  repeat split.
  - unfold extract_payload, get_default. rewrite Hdata.
    now rewrite Hpair.
  - exact Hres.
  - unfold present. rewrite Hres.
    destruct d as [|kv d']; [discriminate Hk|]. simpl.
    destruct (process_nodes static_nodes l); reflexivity.
Qed.
End Shapes.

(** A payload with a sequence under [nodes] and other keys besides. *)
Lemma C2_conventional_list_key_witness :
  resolve_shape (get "data" nodes_response)
  = Records (PList [PDict [("name", PStr "n1")]; PDict [("name", PStr "n2")]]).
Proof.
  refine (proj1 (proj2 (C2_conventional_list_key (B := example_builtins)
                          text_config [] nodes_response
                          [("count", PInt 2);
                           ("nodes", PList [PDict [("name", PStr "n1")];
                                            PDict [("name", PStr "n2")]]);
                           ("data", PList [PDict [("name", PStr "n3")]])]
                          ["servers"] ["clients"; "list"; "data"] "nodes"
                          [PDict [("name", PStr "n1")]; PDict [("name", PStr "n2")]]
                          eq_refl eq_refl eq_refl eq_refl _))).
  intros k' [<-|[]]. reflexivity.
Defined.

(** ** Per-element validation *)

Lemma mapM_length {A B : Type} (f : A -> result B) (l : list A) :
  (forall a, In a l -> is_ok (f a) = true) ->
  exists out, mapM f l = Ok out /\ List.length out = List.length l.
Proof.
  induction l as [|a l IH]; intros Hok; simpl.
  - now exists [].
  - pose proof (Hok a (or_introl eq_refl)) as Ha.
    destruct (f a) as [b|e]; [|discriminate Ha]. simpl.
    destruct IH as (out & -> & Hlen); [intros; apply Hok; now right|].
    simpl. exists (b :: out). simpl. now rewrite Hlen.
Qed.

Section Elements.
Context `{B : Builtins}.

Lemma validate_spec (e : pyval) (d : dict) :
  validate e = Some d
  <-> e = PDict d \/ exists s, e = PStr s /\ json_loads s = Some (PDict d).
Proof.
  unfold validate. split.
  - destruct e as [| | | |s|l|d']; try discriminate.
    + destruct (json_loads s) as [[| | | | | |d']|] eqn:E; try discriminate.
      intros [= ->]. right. now exists s.
    + intros [= ->]. now left.
  - intros [->|(s & -> & ->)]; reflexivity.
Qed.

Lemma process_nodes_valid static_nodes elems :
  process_nodes static_nodes elems
  = mapM (process_node static_nodes) (valid_records elems).
Proof.
  induction elems as [|e elems IH]; simpl; [reflexivity|].
  destruct (validate e) as [d|]; simpl; [|exact IH].
  destruct (process_node static_nodes d); simpl; [|reflexivity].
  now rewrite IH.
Qed.

Lemma valid_dropped_length elems :
  (List.length (valid_records elems)
   + List.length (filter dropped elems))%nat = List.length elems.
Proof.
  induction elems as [|e elems IH]; simpl; [reflexivity|].
  unfold dropped at 1. destruct (validate e); simpl; lia.
Qed.

(** C3: each raw element is validated on its own.  A string is decoded
    and kept only when the decode succeeds with a mapping, an element
    that is no mapping is dropped, and the loop goes on after a drop: it
    processes exactly the valid elements, so that the number of records
    is the number of elements less the dropped ones (4 for a list of 5
    with one malformed element). *)
Theorem C3_elements_validated (static_nodes : static_map)
  (elems : list pyval) :
  (forall d, In d (valid_records elems) ->
             is_ok (process_node static_nodes d) = true) ->
  (forall e d, validate e = Some d
               <-> e = PDict d
                   \/ exists s, e = PStr s /\ json_loads s = Some (PDict d))
  /\ process_nodes static_nodes elems
     = mapM (process_node static_nodes) (valid_records elems)
  /\ exists processed_nodes,
       process_nodes static_nodes elems = Ok processed_nodes
       /\ (List.length processed_nodes
           + List.length (filter dropped elems))%nat = List.length elems.
Proof.
  intros Hok. split; [apply validate_spec|].
  split; [apply process_nodes_valid|].
  rewrite process_nodes_valid.
  destruct (mapM_length (process_node static_nodes) (valid_records elems) Hok)
    as (out & -> & Hlen).
  exists out. split; [reflexivity|].
  rewrite Hlen. apply valid_dropped_length.
Qed.
End Elements.

(** Five raw elements, the third of which cannot be decoded. *)
Lemma C3_elements_validated_witness :
  exists processed_nodes,
    process_nodes (B := example_builtins) [] five_elements = Ok processed_nodes
    /\ List.length processed_nodes = 4%nat.
Proof.
  destruct (C3_elements_validated (B := example_builtins) [] five_elements)
    as (_ & _ & out & Hrun & Hlen).
  - intros d Hin. simpl in Hin.
    repeat (destruct Hin as [<-|Hin]; [vm_compute; reflexivity|]).
    contradiction.
  - exists out. split; [exact Hrun|].
    simpl in Hlen. lia.
Defined.

(** ** The "no data" message *)

Section NoData.
Context `{B : Builtins}.

Lemma present_records cfg static_nodes realtime_data data elems :
  truthy realtime_data = true ->
  resolve_shape realtime_data = Records data ->
  py_iter data = Ok elems ->
  present cfg static_nodes realtime_data
  = match process_nodes static_nodes elems with
    | Ok processed_nodes => Presented (image_output cfg) processed_nodes
    | Raise e => Unhandled e
    end.
Proof.
  intros Ht Hshape Hiter. unfold present. now rewrite Ht, Hshape, Hiter.
Qed.

(** C8, amended: the "no data" message is surfaced exactly when the
    payload that the session left is empty (falsy), which is decided
    before the elements are validated.  A non-empty payload that resolves
    to a sequence is never answered with that message: its valid elements
    are processed in order, and either all of them are processed and the
    presentation receives exactly the processed records, or processing
    one of them raises and that exception leaves the operation unhandled.
    When every element is dropped the presentation receives an empty list
    of records rather than the "no data" message. *)
Theorem C8_no_data_amended (cfg : KomariConfig) (static_nodes : static_map)
  (realtime_data : pyval) :
  (present cfg static_nodes realtime_data = NoData
   <-> truthy realtime_data = false)
  /\ (forall data elems,
        truthy realtime_data = true ->
        resolve_shape realtime_data = Records data ->
        py_iter data = Ok elems ->
        present cfg static_nodes realtime_data <> NoData
        /\ (forall processed_nodes,
              mapM (process_node static_nodes) (valid_records elems)
              = Ok processed_nodes
              <-> present cfg static_nodes realtime_data
                  = Presented (image_output cfg) processed_nodes)
        /\ (forall e,
              mapM (process_node static_nodes) (valid_records elems) = Raise e
              <-> present cfg static_nodes realtime_data = Unhandled e))
  /\ (forall data elems,
        truthy realtime_data = true ->
        resolve_shape realtime_data = Records data ->
        py_iter data = Ok elems ->
        valid_records elems = [] ->
        present cfg static_nodes realtime_data
        = Presented (image_output cfg) []).
Proof.
  split; [|split].
  - unfold present. destruct (truthy realtime_data); simpl.
    + split; [|discriminate].
      destruct (resolve_shape realtime_data) as [data|keys]; [|discriminate].
      destruct (py_iter data) as [elems|e]; [|discriminate].
      destruct (process_nodes static_nodes elems); discriminate.
    + split; reflexivity.
  - intros data elems Ht Hshape Hiter.
    rewrite (present_records _ _ _ data elems Ht Hshape Hiter).
    rewrite process_nodes_valid.
    destruct (mapM (process_node static_nodes) (valid_records elems))
      as [p|e0].
    + split; [discriminate|]. split.
      * intros p'. split; [now intros [= ->]|now intros [= ->]].
      * intros e. split; discriminate.
    + split; [discriminate|]. split.
      * intros p'. split; discriminate.
      * intros e. split; [now intros [= ->]|now intros [= ->]].
  - intros data elems Ht Hshape Hiter Hnone.
    rewrite (present_records _ _ _ data elems Ht Hshape Hiter).
    rewrite process_nodes_valid, Hnone. reflexivity.
Qed.
End NoData.

(** A sequence whose only element is no record gives an empty report; a
    sequence with one record among malformed elements gives the report of
    that record; a record on which a step raises takes the whole
    operation with it. *)
Lemma C8_no_data_amended_witness :
  present (B := example_builtins) text_config [] (PList [PInt 1])
  = Presented false []
  /\ present (B := example_builtins) text_config []
       (PList [PInt 1; PDict node_cpu_string])
     = Presented false
         [[("cpu", PStr "n/a"); ("uptime", PInt 90000);
           ("name", PStr "未知节点"); ("uptime_str", PStr "1天 1小时")]]
  /\ present (B := example_builtins) text_config []
       (PList [PDict node_ram_string; PInt 1])
     = Unhandled TypeError.
Proof.
  split; [|split].
  - exact (proj2 (proj2 (C8_no_data_amended (B := example_builtins)
                           text_config [] (PList [PInt 1])))
             (PList [PInt 1]) [PInt 1] eq_refl eq_refl eq_refl eq_refl).
  - exact (proj1 (proj1 (proj2 (proj1 (proj2
             (C8_no_data_amended (B := example_builtins) text_config []
                (PList [PInt 1; PDict node_cpu_string])))
             (PList [PInt 1; PDict node_cpu_string])
             [PInt 1; PDict node_cpu_string] eq_refl eq_refl eq_refl)) _)
             eq_refl).
  - exact (proj1 (proj2 (proj2 (proj1 (proj2
             (C8_no_data_amended (B := example_builtins) text_config []
                (PList [PDict node_ram_string; PInt 1])))
             (PList [PDict node_ram_string; PInt 1])
             [PDict node_ram_string; PInt 1] eq_refl eq_refl eq_refl))
             TypeError) eq_refl).
Defined.

(** The stream answers with a non-empty sequence whose only element is no
    record: zero valid records remain, and the operation presents an empty
    report instead of the "no data" message. *)
Lemma C8_no_data_counterexample :
  valid_records (B := example_builtins) [PInt 1] = []
  /\ komari_realtime (B := example_builtins) text_config PNone
       (Connected (frames [text_frame text_no_record]))
     = Presented false []
  /\ Presented false [] <> NoData.
Proof.
  split; [reflexivity|]. split; [vm_compute; reflexivity|discriminate].
Qed.

(** ** The bounded frame loop *)

Section Frames.
Context `{B : Builtins}.

Lemma read_frames_bound recv :
  forall attempts i s,
    read_frames attempts recv i = Ok s ->
    (i <= frames_read s <= i + attempts)%nat.
Proof.
  induction attempts as [|k IH]; intros i s; simpl.
  - intros [= <-]. simpl. lia.
  - destruct (recv i) as [msg|e]; simpl; [|discriminate].
    assert (Hnext : read_frames k recv (S i) = Ok s ->
                    (i <= frames_read s <= i + S k)%nat).
    { intros Hs. apply IH in Hs. lia. }
    destruct (msg_type msg); try exact Hnext;
      try (intros [= <-]; simpl; lia).
    destruct (handle_text (msg_data msg)); [|exact Hnext].
    intros [= <-]. simpl. lia.
Qed.

(** C4, amended: at most 3 frames are received.  A text frame that does
    not decode is passed over; a decoded mapping whose [status] is
    "success" ends the reading with its payload when the extraction of
    the payload completes, and is passed over like an undecodable frame
    when the extraction raises; a CLOSED or ERROR frame, or the third
    attempt used up, ends the reading without a payload. *)
Theorem C4_frame_loop_amended (recv : nat -> result WSMessage) :
  (forall s, read_frames 3 recv 0 = Ok s -> (frames_read s <= 3)%nat)
  /\ (forall k i msg,
        recv i = Ok msg -> msg_type msg = TEXT ->
        json_loads (msg_data msg) = None ->
        read_frames (S k) recv i = read_frames k recv (S i))
  /\ (forall k i msg resp p,
        recv i = Ok msg -> msg_type msg = TEXT ->
        json_loads (msg_data msg) = Some (PDict resp) ->
        get "status" resp = PStr "success" ->
        extract_payload resp = Ok p ->
        read_frames (S k) recv i
        = Ok {| frames_read := S i; payload := Some p |})
  /\ (forall k i msg resp e,
        recv i = Ok msg -> msg_type msg = TEXT ->
        json_loads (msg_data msg) = Some (PDict resp) ->
        get "status" resp = PStr "success" ->
        extract_payload resp = Raise e ->
        read_frames (S k) recv i = read_frames k recv (S i))
  /\ (forall k i msg,
        recv i = Ok msg -> msg_type msg = CLOSED \/ msg_type msg = ERROR ->
        read_frames (S k) recv i
        = Ok {| frames_read := S i; payload := None |})
  /\ (forall i, read_frames 0 recv i
                = Ok {| frames_read := i; payload := None |}).
Proof.
  repeat split.
  - intros s Hs. apply read_frames_bound in Hs. lia.
  - intros k i msg Hr Ht Hj. simpl. rewrite Hr. simpl. rewrite Ht.
    unfold handle_text. now rewrite Hj.
  - intros k i msg resp p Hr Ht Hj Hs He. simpl. rewrite Hr. simpl.
    rewrite Ht. unfold handle_text. rewrite Hj, Hs, He. reflexivity.
  - intros k i msg resp e Hr Ht Hj Hs He. simpl. rewrite Hr. simpl.
    rewrite Ht. unfold handle_text. rewrite Hj, Hs, He. reflexivity.
  - intros k i msg Hr [Ht|Ht]; simpl; rewrite Hr; simpl; now rewrite Ht.
Qed.
End Frames.

Lemma C4_frame_loop_amended_witness :
  read_frames (B := example_builtins) 3
    (frames [text_frame "oops"; text_frame text_one_node]) 0
  = Ok {| frames_read := 2;
          payload := Some (PList [PDict [("name", PStr "n1")]]) |}.
Proof.
  pose proof (C4_frame_loop_amended (B := example_builtins)
                (frames [text_frame "oops"; text_frame text_one_node]))
    as (_ & Hskip & Hstop & _).
  rewrite (Hskip 2%nat 0%nat {| msg_type := TEXT; msg_data := "oops" |}
             eq_refl eq_refl eq_refl).
  exact (Hstop 1%nat 1%nat {| msg_type := TEXT; msg_data := text_one_node |}
           [("status", PStr "success");
            ("data", PList [PDict [("name", PStr "n1")]])]
           (PList [PDict [("name", PStr "n1")]])
           eq_refl eq_refl eq_refl eq_refl eq_refl).
Defined.

(** The first frame decodes to a mapping whose status is "success", but its
    detail record is the number 1, on which the injection of [uuid]
    raises: the loop does not stop there, it reads the second frame and
    returns the payload of that one. *)
Lemma C4_frame_loop_counterexample :
  json_loads (Builtins := example_builtins) text_bad_pair
  = Some (PDict [("status", PStr "success");
                 ("data", PDict [("online", PList [PStr "a"]);
                                 ("data", PDict [("a", PInt 1)])])])
  /\ read_frames (B := example_builtins) 3
       (frames [text_frame text_bad_pair; text_frame text_one_node]) 0
     = Ok {| frames_read := 2;
             payload := Some (PList [PDict [("name", PStr "n1")]]) |}
  /\ ~ (exists p,
         read_frames (B := example_builtins) 3
           (frames [text_frame text_bad_pair; text_frame text_one_node]) 0
         = Ok {| frames_read := 1; payload := Some p |}).
Proof.
  split; [vm_compute; reflexivity|].
  split; [vm_compute; reflexivity|].
  intros (p & Hp). vm_compute in Hp. discriminate Hp.
Qed.

(** ** The static inventory index *)

Lemma key_get_set_same k r m : key_get k (key_set k r m) = Some r.
Proof.
  induction m as [|[k' r'] m IH]; simpl.
  - destruct (hkey_eq_dec k k); [reflexivity|contradiction].
  - destruct (hkey_eq_dec k k') as [E|E]; simpl.
    + destruct (hkey_eq_dec k k'); [reflexivity|contradiction].
    + destruct (hkey_eq_dec k k'); [contradiction|exact IH].
Qed.

Lemma key_get_set_other k k' r m :
  k <> k' -> key_get k' (key_set k r m) = key_get k' m.
Proof.
  intros Hne. induction m as [|[k0 r0] m IH]; simpl.
  - destruct (hkey_eq_dec k' k); [congruence|reflexivity].
  - destruct (hkey_eq_dec k k0) as [E|E]; simpl.
    + subst k0. destruct (hkey_eq_dec k' k); [congruence|reflexivity].
    + now rewrite IH.
Qed.

Lemma key_of_hashable v : hashable v = true -> exists hk, key_of v = Some hk.
Proof. destruct v; simpl; try discriminate; eauto. Qed.

Lemma put_identity_hashable field n acc :
  hashable (get field n) = true ->
  put_identity field n acc
  = Ok (if truthy (get field n) then
          match key_of (get field n) with
          | Some hk => key_set hk n acc
          | None => acc
          end
        else acc).
Proof.
  intros Hh. unfold put_identity, static_set. rewrite Hh.
  destruct (truthy (get field n)); reflexivity.
Qed.

Lemma index_nodes_ops ns :
  forall acc,
    (forall n, In n ns ->
               hashable (get "id" n) = true /\ hashable (get "uuid" n) = true) ->
    index_nodes (map PDict ns) acc = apply_ops (flat_map node_ops ns) acc.
Proof.
  induction ns as [|n ns IH]; intros acc Hh; simpl; [reflexivity|].
  destruct (Hh n (or_introl eq_refl)) as [Hid Huuid].
  rewrite (put_identity_hashable "id" n acc Hid).
  rewrite put_identity_hashable by exact Huuid.
  rewrite IH by (intros; apply Hh; now right).
  unfold apply_ops. rewrite fold_left_app. f_equal.
  unfold node_ops. simpl.
  destruct (key_of_hashable _ Hid) as (hi & ->).
  destruct (key_of_hashable _ Huuid) as (hu & ->).
  destruct (truthy (get "id" n)), (truthy (get "uuid" n)); reflexivity.
Qed.

(** The record under a key is the one of the last insertion under it. *)
Lemma apply_ops_get hk ops :
  forall acc,
    key_get hk (apply_ops ops acc)
    = match find (fun op => if hkey_eq_dec hk (fst op) then true else false)
              (rev ops) with
      | Some op => Some (snd op)
      | None => key_get hk acc
      end.
Proof.
  unfold apply_ops.
  induction ops as [|[k r] ops IH]; intros acc; simpl; [reflexivity|].
  rewrite IH.
  set (f := fun op : hkey * dict =>
              if hkey_eq_dec hk (fst op) then true else false).
  assert (Hfind : forall l (x : hkey * dict),
             find f (l ++ [x])
             = match find f l with
               | Some y => Some y
               | None => if f x then Some x else None
               end).
  { induction l as [|y l IHl]; intros x; simpl.
    - reflexivity.
    - destruct (f y); [reflexivity|apply IHl]. }
  rewrite Hfind. destruct (find f (rev ops)); [reflexivity|].
  unfold f. simpl. destruct (hkey_eq_dec hk k) as [->|Hne].
  - apply key_get_set_same.
  - apply key_get_set_other. congruence.
Qed.

Lemma node_ops_record n op : In op (node_ops n) -> snd op = n.
Proof.
  unfold node_ops. simpl. rewrite app_nil_r. intros Hin.
  apply in_app_or in Hin.
  destruct Hin as [Hin|Hin];
    [destruct (truthy (get "id" n)), (key_of (get "id" n))
    |destruct (truthy (get "uuid" n)), (key_of (get "uuid" n))];
    simpl in Hin; try contradiction;
    destruct Hin as [<-|[]]; reflexivity.
Qed.

Lemma node_ops_key n field hk :
  field = "id" \/ field = "uuid" ->
  truthy (get field n) = true -> key_of (get field n) = Some hk ->
  In (hk, n) (node_ops n).
Proof.
  unfold node_ops. simpl. rewrite app_nil_r.
  intros [-> | ->] Ht Hk; rewrite Ht, Hk; apply in_or_app;
    [left|right]; now left.
Qed.

Lemma node_ops_fields n op :
  In op (node_ops n) ->
  exists field,
    (field = "id" \/ field = "uuid") /\ truthy (get field n) = true
    /\ key_of (get field n) = Some (fst op).
Proof.
  unfold node_ops. simpl. rewrite app_nil_r. intros Hin.
  apply in_app_or in Hin. destruct Hin as [Hin|Hin].
  - exists "id". destruct (truthy (get "id" n)); [|contradiction].
    destruct (key_of (get "id" n)); [|contradiction].
    destruct Hin as [<-|[]]. auto.
  - exists "uuid". destruct (truthy (get "uuid" n)); [|contradiction].
    destruct (key_of (get "uuid" n)); [|contradiction].
    destruct Hin as [<-|[]]. auto.
Qed.

Lemma find_some_in {A : Type} (f : A -> bool) l x :
  In x l -> f x = true -> exists y, find f l = Some y.
Proof.
  induction l as [|a l IH]; simpl; [contradiction|].
  intros [->|Hin] Hf.
  - rewrite Hf. eauto.
  - destruct (f a); eauto.
Qed.

Lemma find_app_none {A : Type} (f : A -> bool) l1 l2 :
  (forall x, In x l1 -> f x = false) -> find f (l1 ++ l2) = find f l2.
Proof.
  induction l1 as [|a l1 IH]; simpl; intros Hn; [reflexivity|].
  rewrite (Hn a (or_introl eq_refl)). apply IH. intros; apply Hn; now right.
Qed.

Lemma find_app_some {A : Type} (f : A -> bool) l1 l2 y :
  find f l1 = Some y -> find f (l1 ++ l2) = Some y.
Proof.
  induction l1 as [|a l1 IH]; simpl; [discriminate|].
  destruct (f a); [trivial|exact IH].
Qed.

(** C9, amended: for an inventory list of records, the index has an entry
    under every truthy identity key ([id], [uuid]) of every node, and the
    entry is the record of a node of the list; an [id] or [uuid] that is
    null, zero, empty or false gets no entry.  The record under a key is
    the one of the last node that carries it, so that both keys of a node
    map to that very node when no later node carries either of them. *)
Theorem C9_static_index_amended (d : dict) (ns pre post : list dict)
  (n : dict) (field : string) :
  get "data" d = PList (map PDict ns) ->
  (forall m, In m ns ->
             hashable (get "id" m) = true /\ hashable (get "uuid" m) = true) ->
  ns = pre ++ n :: post ->
  field = "id" \/ field = "uuid" ->
  truthy (get field n) = true ->
  (exists r, static_get (get field n) (build_static_nodes (PDict d)) = Some r
             /\ In r ns)
  /\ ((forall m f, In m post -> f = "id" \/ f = "uuid" ->
                   truthy (get f m) = true ->
                   key_of (get f m) <> key_of (get field n)) ->
      static_get (get field n) (build_static_nodes (PDict d)) = Some n).
Proof.
  intros Hdata Hh Hns Hfield Ht.
  assert (Hin : In n ns) by (subst ns; apply in_elt).
  assert (Hbuild : build_static_nodes (PDict d)
                   = apply_ops (flat_map node_ops ns) []).
  { unfold build_static_nodes. rewrite Hdata.
    destruct d as [|kv d']; [discriminate Hdata|].
    destruct ns as [|n0 ns']; [contradiction|].
    simpl truthy. cbv iota. simpl py_iter. cbv iota.
    exact (index_nodes_ops (n0 :: ns') [] Hh). }
  destruct (key_of_hashable (get field n)) as (hk & Hk).
  { destruct Hfield as [-> | ->]; apply (Hh n Hin). }
  unfold static_get. rewrite Hk, Hbuild, apply_ops_get.
  set (f := fun op : hkey * dict =>
              if hkey_eq_dec hk (fst op) then true else false).
  assert (Hop : In (hk, n) (node_ops n)) by now apply node_ops_key with field.
  assert (Hf : f (hk, n) = true).
  { unfold f. simpl. destruct (hkey_eq_dec hk hk); [reflexivity|contradiction]. }
  split.
  - destruct (find_some_in f (rev (flat_map node_ops ns)) (hk, n)) as (op & Hfind).
    + apply -> in_rev. apply in_flat_map. eauto.
    + exact Hf.
    + rewrite Hfind. exists (snd op). split; [reflexivity|].
      apply find_some in Hfind as [Hop' _].
      apply in_rev in Hop'. apply in_flat_map in Hop' as (m & Hm & Hop').
      now rewrite (node_ops_record m op Hop').
  - intros Hlater. subst ns.
    rewrite flat_map_app. simpl. rewrite !rev_app_distr, <- app_assoc.
    rewrite find_app_none.
    + destruct (find_some_in f (rev (node_ops n)) (hk, n)) as (op & Hfind).
      * now apply -> in_rev.
      * exact Hf.
      * rewrite (find_app_some f _ _ op Hfind).
        apply find_some in Hfind as [Hop' _]. apply in_rev in Hop'.
        now rewrite (node_ops_record n op Hop').
    + intros op Hop'. apply in_rev in Hop'.
      apply in_flat_map in Hop' as (m & Hm & Hop').
      destruct (node_ops_fields m op Hop') as (f' & Hf' & Htm & Hkm).
      unfold f. destruct (hkey_eq_dec hk (fst op)) as [E|E]; [|reflexivity].
      exfalso. apply (Hlater m f' Hm Hf' Htm). congruence.
Qed.

Lemma C9_static_index_amended_witness :
  static_get (PStr "i1") (build_static_nodes (PDict two_boxes)) = Some box1
  /\ static_get (PStr "u1") (build_static_nodes (PDict two_boxes)) = Some box1.
Proof.
  assert (Hh : forall m, In m [box1; box2] ->
                 hashable (get "id" m) = true /\ hashable (get "uuid" m) = true).
  { intros m [<-|[<-|[]]]; split; reflexivity. }
  split.
  - refine (proj2 (C9_static_index_amended two_boxes [box1; box2] [] [box2]
                     box1 "id" eq_refl Hh eq_refl (or_introl eq_refl) eq_refl) _).
    intros m f [<-|[]] [-> | ->] _; discriminate.
  - refine (proj2 (C9_static_index_amended two_boxes [box1; box2] [] [box2]
                     box1 "uuid" eq_refl Hh eq_refl (or_intror eq_refl) eq_refl) _).
    intros m f [<-|[]] [-> | ->] _; discriminate.
Defined.

(** A node whose [id] is the number 0, which is not null: the index has
    no entry under it. *)
Lemma C9_static_index_counterexample :
  get "id" node_zero <> PNone
  /\ static_get (get "id" node_zero)
       (build_static_nodes
          (PDict [("status", PStr "success"); ("data", PList [PDict node_zero])]))
     = None.
Proof.
  split; [discriminate|reflexivity].
Qed.

(** ** Metric normalization *)

Lemma dict_get_set_frame k k0 v (d : dict) :
  k <> k0 -> dict_get k (dict_set k0 v d) = dict_get k d.
Proof. intros Hne. apply dict_get_set_other. congruence. Qed.

Ltac split_result :=
  repeat match goal with
    | H : Ok _ = Ok _ |- _ => injection H as H; subst
    | H : Raise _ = Ok _ |- _ => discriminate H
    | H : bind ?r _ = Ok _ |- _ =>
        let E := fresh "E" in destruct r eqn:E; simpl in H
    | H : match ?x with _ => _ end = Ok _ |- _ =>
        let E := fresh "E" in destruct x eqn:E; simpl in H
    end.

Ltac frame_keys Hk :=
  simpl in Hk;
  rewrite ?dict_get_set_frame by (intros ->; apply Hk; simpl; tauto);
  reflexivity.

Lemma usage_step_frame group flat out_total out_used out_percent node node' k :
  usage_step group flat out_total out_used out_percent node = Ok node' ->
  ~ In k [out_total; out_used; out_percent] ->
  dict_get k node' = dict_get k node.
Proof.
  unfold usage_step. intros Hrun Hk. split_result; frame_keys Hk.
Qed.

Section Metrics.
Context `{B : Builtins}.

Lemma normalize_metrics_run node :
  normalize_metrics node = run_steps all_metrics node.
Proof.
  unfold normalize_metrics. simpl.
  destruct (cpu_step node) as [n1|]; simpl; [|reflexivity].
  destruct (ram_step n1) as [n2|]; simpl; [|reflexivity].
  destruct (disk_step n2) as [n3|]; simpl; [|reflexivity].
  destruct (network_step n3) as [n4|]; simpl; [|reflexivity].
  destruct (uptime_step n4) as [n5|]; simpl; [|reflexivity].
  destruct (load_step n5); reflexivity.
Qed.

(** A step changes none but its own derived fields. *)
Lemma step_frame m node node' k :
  step_of m node = Ok node' ->
  ~ In k (derived_keys m) ->
  dict_get k node' = dict_get k node.
Proof.
  destruct m; simpl step_of; intros Hrun Hk.
  - unfold cpu_step in Hrun. split_result; frame_keys Hk.
  - eapply usage_step_frame; eassumption.
  - eapply usage_step_frame; eassumption.
  - unfold network_step in Hrun. split_result; frame_keys Hk.
  - unfold uptime_step in Hrun. split_result; frame_keys Hk.
  - unfold load_step in Hrun. split_result; frame_keys Hk.
Qed.

Lemma run_steps_frame ms :
  forall node node' k,
    run_steps ms node = Ok node' ->
    (forall m, In m ms -> ~ In k (derived_keys m)) ->
    dict_get k node' = dict_get k node.
Proof.
  induction ms as [|m ms IH]; intros node node' k Hrun Hk; simpl in Hrun.
  - now injection Hrun as ->.
  - destruct (step_of m node) as [n1|] eqn:E; simpl in Hrun; [|discriminate].
    rewrite (IH n1 node' k Hrun) by (intros; apply Hk; now right).
    eapply step_frame; [eassumption|]. apply Hk. now left.
Qed.

Lemma source_not_derived k m : In k source_keys -> ~ In k (derived_keys m).
Proof.
  intros Hs Hd. simpl in Hs.
  repeat (destruct Hs as [<-|Hs]; [destruct m; simpl in Hd;
            repeat (destruct Hd as [Hd|Hd]; [discriminate Hd|]);
            contradiction|]).
  contradiction.
Qed.

Lemma skipped_stable m m' node node' :
  step_of m' node = Ok node' -> skipped m node' = skipped m node.
Proof.
  intros Hrun.
  assert (Hget : forall k, In k source_keys ->
                           dict_get k node' = dict_get k node).
  { intros k Hk. eapply step_frame; [eassumption|].
    now apply source_not_derived. }
  destruct m; unfold skipped, group_is_mapping; rewrite ?dict_mem_get;
    rewrite ?Hget by (simpl; tauto); reflexivity.
Qed.

(** A skipped step leaves the record as it is. *)
Lemma skipped_step m node : skipped m node = true -> step_of m node = Ok node.
Proof.
  destruct m; unfold skipped, group_is_mapping; simpl step_of;
    unfold cpu_step, ram_step, disk_step, usage_step, network_step,
      uptime_step, load_step; rewrite ?dict_mem_get.
  - destruct (dict_get "cpu" node) as [[]|]; try discriminate; reflexivity.
  - destruct (dict_get "ram" node) as [[]|];
      destruct (dict_get "mem_total" node); try discriminate; reflexivity.
  - destruct (dict_get "disk" node) as [[]|];
      destruct (dict_get "disk_total" node); try discriminate; reflexivity.
  - destruct (dict_get "network" node) as [[]|]; try discriminate; reflexivity.
  - destruct (dict_get "uptime" node); try discriminate; reflexivity.
  - destruct (dict_get "load" node) as [[]|]; try discriminate; reflexivity.
Qed.

Lemma run_steps_skip ms node0 :
  forall node,
    (forall m, skipped m node = skipped m node0) ->
    run_steps ms node
    = run_steps (filter (fun m => negb (skipped m node0)) ms) node.
Proof.
  induction ms as [|m ms IH]; intros node Hs; simpl; [reflexivity|].
  destruct (skipped m node0) eqn:E; simpl.
  - rewrite skipped_step by now rewrite Hs. simpl. now apply IH.
  - destruct (step_of m node) as [n1|] eqn:E1; simpl; [|reflexivity].
    apply IH. intros m'. rewrite <- Hs. eapply skipped_stable; eassumption.
Qed.

Lemma not_number_gt v c : not_number v = true -> py_gt v c = Raise TypeError.
Proof. unfold not_number, py_gt. now destruct (as_num v). Qed.

Lemma not_number_truediv v w :
  not_number v = true -> py_truediv v w = Raise TypeError.
Proof. unfold not_number, py_truediv. now destruct (as_num v). Qed.

Lemma bad_usage_raises group flat out_total out_used out_percent node :
  bad_usage group flat node = true ->
  usage_step group flat out_total out_used out_percent node = Raise TypeError.
Proof.
  unfold bad_usage, usage_step, to_gb. rewrite dict_mem_get.
  assert (Hflat : match dict_get flat node with
                  | Some v => not_number v
                  | None => false
                  end = true ->
                  (if match dict_get flat node with
                      | Some _ => true
                      | None => false
                      end
                   then do t <- (do q <- py_truediv
                                          (get_default flat (PInt 0) node)
                                          (PInt GiB);
                                 Ok (PFloat (Float64.round q 2)));
                        Ok (dict_set out_total t node)
                   else Ok node) = Raise TypeError).
  { unfold get_default. destruct (dict_get flat node) as [v|];
      [|discriminate]. intros Hv. now rewrite not_number_truediv. }
  destruct (dict_get group node) as [[| | | | | |g]|]; try exact Hflat.
  intros Ht. now rewrite not_number_gt.
Qed.

Lemma not_number_speed b : not_number b = true -> fmt_speed b = Raise TypeError.
Proof. intros Hb. unfold fmt_speed. now rewrite not_number_gt. Qed.

Lemma not_number_traffic b :
  not_number b = true -> fmt_traffic b = Raise TypeError.
Proof. intros Hb. unfold fmt_traffic. now rewrite not_number_gt. Qed.

Lemma raising_step m node :
  raising_value m node = true -> exists e, step_of m node = Raise e.
Proof.
  destruct m; simpl raising_value; simpl step_of.
  - unfold cpu_step, get_default.
    destruct (dict_get "cpu" node) as [[| | | | | |g]|]; try discriminate.
    destruct (dict_get "usage" g) as [[]|]; try discriminate;
      intros _; exists TypeError; reflexivity.
  - intros H. exists TypeError. now apply bad_usage_raises.
  - intros H. exists TypeError. now apply bad_usage_raises.
  - unfold network_step.
    destruct (dict_get "network" node) as [[| | | | | |g]|]; try discriminate.
    simpl existsb. rewrite Bool.orb_false_r. intros H.
    destruct (fmt_speed (get_default "up" (PInt 0) g)) as [s1|e1] eqn:E1;
      simpl; [|eauto].
    destruct (fmt_speed (get_default "down" (PInt 0) g)) as [s2|e2] eqn:E2;
      simpl; [|eauto].
    destruct (fmt_traffic (get_default "totalUp" (PInt 0) g)) as [s3|e3] eqn:E3;
      simpl; [|eauto].
    destruct (fmt_traffic (get_default "totalDown" (PInt 0) g)) as [s4|e4]
      eqn:E4; simpl; [|eauto].
    repeat (apply Bool.orb_true_iff in H as [H|H]).
    + rewrite (not_number_speed _ H) in E1. discriminate.
    + rewrite (not_number_speed _ H) in E2. discriminate.
    + rewrite (not_number_traffic _ H) in E3. discriminate.
    + rewrite (not_number_traffic _ H) in E4. discriminate.
  - unfold uptime_step, get_default. rewrite dict_mem_get.
    destruct (dict_get "uptime" node) as [v|]; [|discriminate].
    unfold not_number, py_floordiv. destruct (as_num v); [discriminate|].
    intros _. exists TypeError. reflexivity.
  - discriminate.
Qed.

Lemma raising_value_sources node node' :
  (forall k, In k source_keys -> dict_get k node' = dict_get k node) ->
  forall m, raising_value m node' = raising_value m node.
Proof.
  intros Hget m. destruct m; unfold raising_value, bad_usage;
    rewrite ?Hget by (simpl; tauto); reflexivity.
Qed.

Lemma run_steps_raising ms m :
  In m ms ->
  forall node, raising_value m node = true ->
               exists e, run_steps ms node = Raise e.
Proof.
  induction ms as [|m0 rest IH]; intros Hin node Hbad; [contradiction|].
  simpl run_steps. destruct (step_of m0 node) as [n1|e0] eqn:E; simpl;
    [|eauto].
  destruct Hin as [->|Hin].
  - destruct (raising_step m node Hbad) as (e & He). congruence.
  - apply (IH Hin). rewrite (raising_value_sources node n1); [exact Hbad|].
    intros k Hk. eapply step_frame; [exact E|now apply source_not_derived].
Qed.

Lemma run_steps_app pre post node :
  run_steps (pre ++ post) node
  = (do node1 <- run_steps pre node; run_steps post node1).
Proof.
  revert node. induction pre as [|m pre IH]; intros node; simpl;
    [reflexivity|].
  destruct (step_of m node) as [n1|]; simpl; [apply IH|reflexivity].
Qed.

Lemma mapM_raises {A C : Type} (f : A -> result C) (l : list A) a e :
  In a l -> f a = Raise e -> exists e', mapM f l = Raise e'.
Proof.
  induction l as [|x l IH]; intros Hin Hf; [contradiction|]. simpl.
  destruct Hin as [->|Hin].
  - rewrite Hf. simpl. eauto.
  - destruct (f x); simpl; [|eauto].
    destruct (IH Hin Hf) as (e' & ->). simpl. eauto.
Qed.

Lemma valid_records_in (raw : dict) elems :
  In (PDict raw) elems -> In raw (valid_records elems).
Proof.
  intros Hin. unfold valid_records. apply in_flat_map.
  exists (PDict raw). split; [exact Hin|]. simpl. now left.
Qed.

(** C7, amended.  A step is skipped without a fault, leaving the record
    as it is, when its group is absent or is no mapping (for RAM and disk:
    and the flat total is absent too; for the uptime: when the field is
    absent); the normalizer runs exactly the other steps, in the fixed
    order, and a step that returns changes only its own derived fields.
    The steps are not protected against every malformed value: a RAM or
    disk total that is no number (in the group when it is a mapping, else
    in the flat field), a network rate or traffic count that is no number,
    an uptime that is no number and a CPU usage that is a list or a
    mapping make the step raise; then normalization raises, the result of
    the step that raises is the result of the whole, so that no later step
    runs, and the exception leaves the operation unhandled.  The load step
    never raises. *)
Theorem C7_metric_steps_amended (node : dict) :
  (forall m, skipped m node = true -> step_of m node = Ok node)
  /\ normalize_metrics node
     = run_steps (filter (fun m => negb (skipped m node)) all_metrics) node
  /\ (forall m node' k,
        step_of m node = Ok node' -> ~ In k (derived_keys m) ->
        dict_get k node' = dict_get k node)
  /\ (forall m, raising_value m node = true ->
                (exists e, step_of m node = Raise e)
                /\ exists e, normalize_metrics node = Raise e)
  /\ (forall pre m post node1 e,
        all_metrics = pre ++ m :: post ->
        run_steps pre node = Ok node1 ->
        step_of m node1 = Raise e ->
        normalize_metrics node = Raise e)
  /\ (forall cfg static_nodes elems raw m,
        In (PDict raw) elems ->
        reconcile static_nodes raw = Ok node ->
        raising_value m node = true ->
        exists e, present cfg static_nodes (PList elems) = Unhandled e)
  /\ exists node', load_step node = Ok node'.
Proof.
  assert (Hraise : forall m, raising_value m node = true ->
                             exists e, normalize_metrics node = Raise e).
  { intros m Hbad. rewrite normalize_metrics_run.
    apply (run_steps_raising all_metrics m); [|exact Hbad].
    destruct m; simpl; tauto. }
  split; [intros m; apply skipped_step|].
  split; [|split; [|split; [|split; [|split]]]].
  - rewrite normalize_metrics_run. now apply run_steps_skip.
  - intros m node' k. apply step_frame.
  - intros m Hbad. split; [now apply raising_step|exact (Hraise m Hbad)].
  - intros pre m post node1 e Hall Hpre Hstep.
    rewrite normalize_metrics_run, Hall, run_steps_app, Hpre. simpl.
    now rewrite Hstep.
  - intros cfg static_nodes elems raw m Hin Hrec Hbad.
    destruct (Hraise m Hbad) as (e & He).
    assert (Hnode : process_node static_nodes raw = Raise e).
    { unfold process_node. rewrite Hrec. exact He. }
    destruct (mapM_raises (process_node static_nodes) (valid_records elems)
                raw e (valid_records_in raw elems Hin) Hnode) as (e' & He').
    exists e'. destruct elems as [|x elems']; [contradiction|].
    rewrite (present_records cfg static_nodes (PList (x :: elems'))
               (PList (x :: elems')) (x :: elems') eq_refl eq_refl eq_refl).
    now rewrite process_nodes_valid, He'.
  - unfold load_step. destruct (dict_get "load" node) as [[]|]; eauto.
Qed.
End Metrics.

(** The CPU group is the string "n/a": the step is skipped and the uptime
    is formatted all the same.  The RAM total is the string "8 GB": the
    RAM step raises TypeError and takes the operation with it. *)
Lemma C7_metric_steps_amended_witness :
  cpu_step (B := example_builtins) node_cpu_string = Ok node_cpu_string
  /\ normalize_metrics (B := example_builtins) node_cpu_string
     = Ok [("cpu", PStr "n/a"); ("uptime", PInt 90000);
           ("uptime_str", PStr "1天 1小时")]
  /\ normalize_metrics (B := example_builtins) node_ram_string
     = Raise TypeError.
Proof.
  destruct (C7_metric_steps_amended (B := example_builtins) node_cpu_string)
    as (Hskip & Hrun & _).
  split; [|split].
  - exact (Hskip Cpu eq_refl).
  - rewrite Hrun. reflexivity.
  - exact (proj1 (proj2 (proj2 (proj2 (proj2
             (C7_metric_steps_amended (B := example_builtins)
                node_ram_string)))))
             [Cpu] Ram [Disk; Network; Uptime; Load] node_ram_string
             TypeError eq_refl eq_refl eq_refl).
Defined.

(** The RAM total is the string "8 GB": the comparison with 0 raises
    TypeError, the uptime that the step after would format is lost, and
    the exception leaves the operation. *)
Lemma C7_metric_steps_counterexample :
  normalize_metrics (B := example_builtins) node_ram_string = Raise TypeError
  /\ uptime_step (B := example_builtins) node_ram_string
     = Ok [("ram", PDict [("total", PStr "8 GB")]); ("uptime", PInt 90000);
           ("uptime_str", PStr "1天 1小时")]
  /\ present (B := example_builtins) text_config []
       (PList [PDict node_ram_string])
     = Unhandled TypeError.
Proof.
  repeat split; reflexivity.
Qed.

(** ** The usage pattern of RAM and disk *)

Lemma truediv_int x y :
  y <> 0 -> Z.abs x < 2 ^ 1000 ->
  py_truediv (PInt x) (PInt y) = Ok (Float64.div_Z x y).
Proof.
  intros Hy Hx. unfold py_truediv. simpl.
  destruct (y =? 0) eqn:E; [apply Z.eqb_eq in E; contradiction|].
  now rewrite (div_Z_finite x y Hx).
Qed.

Lemma truediv_int_value x y q :
  py_truediv (PInt x) (PInt y) = Ok q -> q = Float64.div_Z x y.
Proof.
  unfold py_truediv. simpl. destruct (y =? 0); [discriminate|].
  destruct (Float64.is_inf (Float64.div_Z x y)); [discriminate|].
  now intros [= <-].
Qed.

Lemma usage_step_positive group flat out_total out_used out_percent node g
  qt qu q :
  dict_get group node = Some (PDict g) ->
  py_gt (get_default "total" (PInt 0) g) 0 = Ok true ->
  py_truediv (get_default "total" (PInt 0) g) (PInt (2 ^ 30)) = Ok qt ->
  py_truediv (get_default "used" (PInt 0) g) (PInt (2 ^ 30)) = Ok qu ->
  py_truediv (get_default "used" (PInt 0) g)
    (get_default "total" (PInt 0) g) = Ok q ->
  usage_step group flat out_total out_used out_percent node
  = Ok (dict_set out_percent
          (PFloat (Float64.round (Float64.mul q (Float64.of_Z 100)) 1))
          (dict_set out_used (PFloat (Float64.round qu 2))
             (dict_set out_total (PFloat (Float64.round qt 2)) node))).
Proof.
  intros Hg Hpos Ht Hu Hq. unfold usage_step, to_gb.
  change (PInt GiB) with (PInt (2 ^ 30)).
  rewrite Hg, Hpos. cbv beta iota delta [bind].
  rewrite Ht, Hu, Hq. reflexivity.
Qed.

Lemma usage_step_positive_inv group flat out_total out_used out_percent
  node node' g :
  dict_get group node = Some (PDict g) ->
  py_gt (get_default "total" (PInt 0) g) 0 = Ok true ->
  usage_step group flat out_total out_used out_percent node = Ok node' ->
  exists qt qu q,
    py_truediv (get_default "total" (PInt 0) g) (PInt (2 ^ 30)) = Ok qt
    /\ py_truediv (get_default "used" (PInt 0) g) (PInt (2 ^ 30)) = Ok qu
    /\ py_truediv (get_default "used" (PInt 0) g)
         (get_default "total" (PInt 0) g) = Ok q
    /\ node'
       = dict_set out_percent
           (PFloat (Float64.round (Float64.mul q (Float64.of_Z 100)) 1))
           (dict_set out_used (PFloat (Float64.round qu 2))
              (dict_set out_total (PFloat (Float64.round qt 2)) node)).
Proof.
  intros Hg Hpos. unfold usage_step, to_gb.
  change (PInt GiB) with (PInt (2 ^ 30)).
  rewrite Hg, Hpos. cbv beta iota delta [bind].
  destruct (py_truediv (get_default "total" (PInt 0) g) (PInt (2 ^ 30)))
    as [qt|]; [|discriminate].
  destruct (py_truediv (get_default "used" (PInt 0) g) (PInt (2 ^ 30)))
    as [qu|]; [|discriminate].
  destruct (py_truediv (get_default "used" (PInt 0) g)
              (get_default "total" (PInt 0) g)) as [q|]; [|discriminate].
  intros [= <-]. exists qt, qu, q. repeat split; reflexivity.
Qed.

Lemma usage_step_int group flat out_total out_used out_percent node g t u :
  dict_get group node = Some (PDict g) ->
  dict_get "total" g = Some (PInt t) ->
  dict_get "used" g = Some (PInt u) ->
  0 < t < 2 ^ 1000 -> Z.abs u < 2 ^ 1000 ->
  usage_step group flat out_total out_used out_percent node
  = Ok (dict_set out_percent
          (PFloat (Float64.round
                     (Float64.mul (Float64.div_Z u t) (Float64.of_Z 100)) 1))
          (dict_set out_used
             (PFloat (Float64.round (Float64.div_Z u (2 ^ 30)) 2))
             (dict_set out_total
                (PFloat (Float64.round (Float64.div_Z t (2 ^ 30)) 2))
                node))).
Proof.
  intros Hg Ht Hu Htb Hub.
  assert (Htotal : get_default "total" (PInt 0) g = PInt t)
    by (unfold get_default; now rewrite Ht).
  assert (Hused : get_default "used" (PInt 0) g = PInt u)
    by (unfold get_default; now rewrite Hu).
  apply (usage_step_positive _ _ _ _ _ node g); try assumption.
  - rewrite Htotal. unfold py_gt. simpl.
    destruct (0 <? t) eqn:E; [reflexivity|]. apply Z.ltb_ge in E. lia.
  - rewrite Htotal. apply truediv_int; [discriminate|lia].
  - rewrite Hused. apply truediv_int; [discriminate|lia].
  - rewrite Hused, Htotal. apply truediv_int; lia.
Qed.

(** ** CPU and RAM *)

Section CpuRam.
Context `{B : Builtins}.

Lemma normalize_after_cpu node node' k :
  normalize_metrics node = Ok node' ->
  k <> "cpu_usage_percent" ->
  exists n1, cpu_step node = Ok n1 /\
             (~ In k (derived_keys Ram ++ derived_keys Disk
                      ++ derived_keys Network ++ derived_keys Uptime
                      ++ derived_keys Load) ->
              dict_get k node' = dict_get k n1)
             /\ dict_get "cpu_usage_percent" node'
                = dict_get "cpu_usage_percent" n1.
Proof.
  rewrite normalize_metrics_run. simpl run_steps. intros Hrun Hk.
  destruct (cpu_step node) as [n1|] eqn:E; simpl in Hrun; [|discriminate].
  exists n1. split; [reflexivity|]. split.
  - intros Hnot.
    apply (run_steps_frame [Ram; Disk; Network; Uptime; Load] n1 node' k Hrun).
    intros m Hm Hd. apply Hnot. simpl in Hm.
    repeat (destruct Hm as [<-|Hm];
            [simpl in *; tauto|]). contradiction.
  - apply (run_steps_frame [Ram; Disk; Network; Uptime; Load] n1 node' _ Hrun).
    intros m Hm Hd. simpl in Hm.
    repeat (destruct Hm as [<-|Hm];
            [simpl in Hd; repeat (destruct Hd as [Hd|Hd]; [discriminate Hd|]);
             contradiction|]).
    contradiction.
Qed.

(** C10: when the [cpu] group is a mapping without a [usage] key, the
    usage defaults to 0 and [cpu_usage_percent] is set to 0.0; when
    [usage] is present and null, the step writes nothing and the record
    keeps the [cpu_usage_percent] it had, that is none if it had none. *)
Theorem C10_cpu_usage_default (node cpu : dict) :
  dict_get "cpu" node = Some (PDict cpu) ->
  (dict_get "usage" cpu = None ->
   cpu_step node
   = Ok (dict_set "cpu_usage_percent" (PFloat (S754_zero false)) node)
   /\ forall node', normalize_metrics node = Ok node' ->
        dict_get "cpu_usage_percent" node' = Some (PFloat (S754_zero false)))
  /\ (dict_get "usage" cpu = Some PNone ->
      cpu_step node = Ok node
      /\ forall node', normalize_metrics node = Ok node' ->
           dict_get "cpu_usage_percent" node'
           = dict_get "cpu_usage_percent" node).
Proof.
  intros Hcpu. split; intros Husage.
  - assert (Hstep : cpu_step node
                    = Ok (dict_set "cpu_usage_percent"
                            (PFloat (S754_zero false)) node)).
    { unfold cpu_step, get_default. rewrite Hcpu, Husage. reflexivity. }
    split; [exact Hstep|]. intros node' Hrun.
    destruct (normalize_after_cpu node node' "cpu" Hrun) as (n1 & Hn1 & _ & ->);
      [discriminate|].
    rewrite Hstep in Hn1. injection Hn1 as <-. apply dict_get_set_same.
  - assert (Hstep : cpu_step node = Ok node).
    { unfold cpu_step, get_default. rewrite Hcpu, Husage. reflexivity. }
    split; [exact Hstep|]. intros node' Hrun.
    destruct (normalize_after_cpu node node' "cpu" Hrun) as (n1 & Hn1 & _ & ->);
      [discriminate|].
    rewrite Hstep in Hn1. now injection Hn1 as <-.
Qed.

(** C6, amended: when [ram] is a mapping whose [total] is a number
    above 0, the normalizer sets [ram_total_gb] to total/2^30 rounded to
    2 decimals, [ram_used_gb] to used/2^30 rounded to 2 decimals and
    [ram_usage_percent] to used/total*100 rounded to 1 decimal, as long as
    the three quotients are within the range of a float; for ints below
    2^1000 in magnitude they are, and the quotients are the correctly
    rounded ones.  The flat [mem_total] is used only when [ram] is absent
    or is no mapping, and then gives [ram_total_gb] alone; when [ram] is a
    mapping whose [total] is not above 0, no RAM field is derived, whether
    or not [mem_total] exists. *)
Theorem C6_ram_fields_amended (node : dict) :
  (forall g qt qu q,
      dict_get "ram" node = Some (PDict g) ->
      py_gt (get_default "total" (PInt 0) g) 0 = Ok true ->
      py_truediv (get_default "total" (PInt 0) g) (PInt (2 ^ 30)) = Ok qt ->
      py_truediv (get_default "used" (PInt 0) g) (PInt (2 ^ 30)) = Ok qu ->
      py_truediv (get_default "used" (PInt 0) g)
        (get_default "total" (PInt 0) g) = Ok q ->
      ram_step node
      = Ok (dict_set "ram_usage_percent"
              (PFloat (Float64.round (Float64.mul q (Float64.of_Z 100)) 1))
              (dict_set "ram_used_gb" (PFloat (Float64.round qu 2))
                 (dict_set "ram_total_gb" (PFloat (Float64.round qt 2))
                    node))))
  /\ (forall g t u,
        dict_get "ram" node = Some (PDict g) ->
        dict_get "total" g = Some (PInt t) ->
        dict_get "used" g = Some (PInt u) ->
        0 < t < 2 ^ 1000 -> Z.abs u < 2 ^ 1000 ->
        ram_step node
        = Ok (dict_set "ram_usage_percent"
                (PFloat (Float64.round
                           (Float64.mul (Float64.div_Z u t) (Float64.of_Z 100))
                           1))
                (dict_set "ram_used_gb"
                   (PFloat (Float64.round (Float64.div_Z u (2 ^ 30)) 2))
                   (dict_set "ram_total_gb"
                      (PFloat (Float64.round (Float64.div_Z t (2 ^ 30)) 2))
                      node))))
  /\ (forall g node',
        dict_get "ram" node = Some (PDict g) ->
        py_gt (get_default "total" (PInt 0) g) 0 = Ok true ->
        normalize_metrics node = Ok node' ->
        exists qt qu q,
          py_truediv (get_default "total" (PInt 0) g) (PInt (2 ^ 30)) = Ok qt
          /\ py_truediv (get_default "used" (PInt 0) g) (PInt (2 ^ 30)) = Ok qu
          /\ py_truediv (get_default "used" (PInt 0) g)
               (get_default "total" (PInt 0) g) = Ok q
          /\ dict_get "ram_total_gb" node' = Some (PFloat (Float64.round qt 2))
          /\ dict_get "ram_used_gb" node' = Some (PFloat (Float64.round qu 2))
          /\ dict_get "ram_usage_percent" node'
             = Some (PFloat (Float64.round
                               (Float64.mul q (Float64.of_Z 100)) 1)))
  /\ (forall v,
        group_is_mapping "ram" node = false ->
        dict_get "mem_total" node = Some v ->
        ram_step node
        = (do q <- py_truediv v (PInt (2 ^ 30));
           Ok (dict_set "ram_total_gb" (PFloat (Float64.round q 2)) node)))
  /\ (forall g,
        dict_get "ram" node = Some (PDict g) ->
        py_gt (get_default "total" (PInt 0) g) 0 = Ok false ->
        ram_step node = Ok node).
Proof.
  split; [|split; [|split; [|split]]].
  - intros g qt qu q Hram Hpos Ht Hu Hq.
    now apply (usage_step_positive "ram" "mem_total" _ _ _ node g).
  - intros g t u Hram Ht Hu Htb Hub.
    now apply (usage_step_int "ram" "mem_total" _ _ _ node g).
  - intros g node' Hram Hpos Hrun.
    rewrite normalize_metrics_run in Hrun. simpl run_steps in Hrun.
    destruct (cpu_step node) as [n1|] eqn:E1; simpl in Hrun; [|discriminate].
    destruct (ram_step n1) as [n2|] eqn:E2; simpl in Hrun; [|discriminate].
    assert (Hram1 : dict_get "ram" n1 = Some (PDict g)).
    { rewrite <- Hram. apply (step_frame Cpu node n1 "ram" E1).
      simpl. intros [Hd|[]]. discriminate Hd. }
    destruct (usage_step_positive_inv "ram" "mem_total" _ _ _ n1 n2 g
                Hram1 Hpos E2) as (qt & qu & q & Hqt & Hqu & Hq & ->).
    exists qt, qu, q.
    assert (Hrest : forall k,
               In k (derived_keys Ram) ->
               dict_get k node'
               = dict_get k
                   (dict_set "ram_usage_percent"
                      (PFloat (Float64.round
                                 (Float64.mul q (Float64.of_Z 100)) 1))
                      (dict_set "ram_used_gb" (PFloat (Float64.round qu 2))
                         (dict_set "ram_total_gb"
                            (PFloat (Float64.round qt 2)) n1)))).
    { intros k Hk.
      apply (run_steps_frame [Disk; Network; Uptime; Load] _ node' k Hrun).
      intros m Hm Hd. simpl in Hk, Hm.
      repeat (destruct Hk as [<-|Hk];
              [repeat (destruct Hm as [<-|Hm];
                       [simpl in Hd;
                        repeat (destruct Hd as [Hd|Hd]; [discriminate Hd|]);
                        contradiction|]);
               contradiction|]).
      contradiction. }
    repeat split; try assumption.
    + rewrite Hrest by (simpl; tauto).
      rewrite !dict_get_set_frame by discriminate. apply dict_get_set_same.
    + rewrite Hrest by (simpl; tauto).
      rewrite dict_get_set_frame by discriminate. apply dict_get_set_same.
    + rewrite Hrest by (simpl; tauto). apply dict_get_set_same.
  - intros v Hmap Hflat. unfold ram_step, usage_step, get_default, to_gb.
    change (PInt GiB) with (PInt (2 ^ 30)).
    unfold group_is_mapping in Hmap. rewrite dict_mem_get, Hflat.
    destruct (dict_get "ram" node) as [[]|]; try discriminate Hmap;
      destruct (py_truediv v (PInt (2 ^ 30))); reflexivity.
  - intros g Hram Hpos. unfold ram_step, usage_step.
    rewrite Hram, Hpos. reflexivity.
Qed.
End CpuRam.

(** The record of the specification, 8 GiB of RAM with 4 GiB used, gives
    8.0, 4.0 and 50.0; a record with 8000000000 bytes of which 3000000000
    are used gives 7.45 (of 7.4505...), 2.79 (of 2.7939...) and 37.5. *)
Lemma C6_ram_fields_amended_witness :
  ram_step node_8gib
  = Ok [("ram", PDict [("total", PInt 8589934592); ("used", PInt 4294967296)]);
        ("ram_total_gb", PFloat (Float64.of_Z 8));
        ("ram_used_gb", PFloat (Float64.of_Z 4));
        ("ram_usage_percent", PFloat (Float64.of_Z 50))]
  /\ ram_step [("ram", PDict [("total", PInt 8000000000);
                              ("used", PInt 3000000000)])]
     = Ok [("ram", PDict [("total", PInt 8000000000);
                          ("used", PInt 3000000000)]);
           ("ram_total_gb", PFloat (S754_finite false 8387954305977549 (-50)));
           ("ram_used_gb", PFloat (S754_finite false 6282521480181842 (-51)));
           ("ram_usage_percent",
            PFloat (S754_finite false 5277655813324800 (-47)))].
Proof.
  split.
  - exact (proj1 (C6_ram_fields_amended (B := example_builtins) node_8gib)
             [("total", PInt 8589934592); ("used", PInt 4294967296)]
             (Float64.of_Z 8) (Float64.of_Z 4) (Float64.div_Z 1 2)
             eq_refl eq_refl eq_refl eq_refl eq_refl).
  - refine (eq_trans
              (proj1 (proj2 (C6_ram_fields_amended (B := example_builtins)
                               [("ram", PDict [("total", PInt 8000000000);
                                               ("used", PInt 3000000000)])]))
                 [("total", PInt 8000000000); ("used", PInt 3000000000)]
                 8000000000 3000000000 eq_refl eq_refl eq_refl _ _)
              eq_refl).
    + split; [reflexivity|]. apply Z.ltb_lt. vm_compute. reflexivity.
    + apply Z.ltb_lt. vm_compute. reflexivity.
Defined.

(** The RAM group reports a total of 0 and the static backfill has given
    [mem_total]: the group is not a mapping with a total above 0 and the
    flat field exists, yet no [ram_total_gb] is derived. *)
Lemma C6_ram_fields_counterexample :
  dict_get "mem_total" node_ram_zero = Some (PInt 8589934592)
  /\ py_gt (PInt 0) 0 = Ok false
  /\ normalize_metrics (B := example_builtins) node_ram_zero = Ok node_ram_zero
  /\ dict_get "ram_total_gb" node_ram_zero = None.
Proof.
  repeat split; reflexivity.
Qed.

Lemma C10_cpu_usage_default_witness :
  cpu_step (B := example_builtins) [("cpu", PDict [("cores", PInt 4)])]
  = Ok [("cpu", PDict [("cores", PInt 4)]);
        ("cpu_usage_percent", PFloat (S754_zero false))]
  /\ cpu_step (B := example_builtins) [("cpu", PDict [("usage", PNone)])]
     = Ok [("cpu", PDict [("usage", PNone)])].
Proof.
  split.
  - exact (proj1 (proj1 (C10_cpu_usage_default (B := example_builtins)
                           [("cpu", PDict [("cores", PInt 4)])]
                           [("cores", PInt 4)] eq_refl) eq_refl)).
  - exact (proj1 (proj2 (C10_cpu_usage_default (B := example_builtins)
                           [("cpu", PDict [("usage", PNone)])]
                           [("usage", PNone)] eq_refl) eq_refl)).
Defined.

(** ** Name resolution *)

Lemma truthy_or_placeholder v : truthy (py_or v (PStr placeholder_name)) = true.
Proof. unfold py_or. destruct (truthy v) eqn:E; [exact E|reflexivity]. Qed.

Section Names.
Context `{B : Builtins}.

(** C5: reconciliation leaves a name that is not null.  When the raw
    name is absent (or empty) or is "Unknown" and the matching static
    record provides a name, the name is the static one; when the raw
    name is absent and no static match provides a name (there is no
    match, or the matching record has no name), the name is the
    placeholder.  The metric steps keep the name. *)
Theorem C5_name_resolved (static_nodes : static_map) (node : dict) :
  let lookup_key := py_or (get "uuid" node) (get "id" node) in
  (truthy lookup_key = true -> hashable lookup_key = true) ->
  exists node',
    reconcile static_nodes node = Ok node'
    /\ (exists v, dict_get "name" node' = Some v
                  /\ truthy v = true /\ v <> PNone)
    /\ (forall static_info s,
          truthy lookup_key = true ->
          static_get lookup_key static_nodes = Some static_info ->
          truthy (get "name" node) = false
          \/ get "name" node = PStr "Unknown" ->
          dict_get "name" static_info = Some s -> truthy s = true ->
          dict_get "name" node' = Some s)
    /\ (truthy (get "name" node) = false ->
        (forall static_info,
            truthy lookup_key = true ->
            static_get lookup_key static_nodes = Some static_info ->
            truthy (get "name" static_info) = false) ->
        dict_get "name" node' = Some (PStr placeholder_name))
    /\ (forall out,
          process_node static_nodes node = Ok out ->
          dict_get "name" out = dict_get "name" node').
Proof.
  intros lookup_key Hhash.
  set (found := if truthy lookup_key
                then static_get lookup_key static_nodes else None).
  set (name := get "name" node).
  set (name1 := match found with
                | Some static_info =>
                    if negb (truthy name) || eq_str name "Unknown"
                    then get_default "name" name static_info else name
                | None => name
                end).
  set (node1 := match found with
                | Some static_info => backfill static_info node
                | None => node
                end).
  assert (Hrec : reconcile static_nodes node
                 = Ok (dict_set "name" (py_or name1 (PStr placeholder_name))
                         node1)).
  { unfold reconcile. fold lookup_key. fold name.
    unfold name1, node1, found.
    destruct (truthy lookup_key) eqn:Et.
    - rewrite (Hhash eq_refl). simpl.
      destruct (static_get lookup_key static_nodes); reflexivity.
    - reflexivity. }
  eexists. split; [exact Hrec|].
  split; [|split; [|split]].
  - eexists. split; [apply dict_get_set_same|].
    split; [apply truthy_or_placeholder|].
    intros E. pose proof (truthy_or_placeholder name1) as Ht.
    rewrite E in Ht. discriminate Ht.
  - intros static_info s Ht Hfound Hname Hs Hts.
    rewrite dict_get_set_same. f_equal.
    unfold name1, found. rewrite Ht, Hfound.
    assert (Hcond : negb (truthy name) || eq_str name "Unknown" = true).
    { destruct Hname as [E|E]; fold name in E; rewrite E;
        [reflexivity|apply orb_true_r]. }
    rewrite Hcond. unfold get_default. rewrite Hs.
    unfold py_or. now rewrite Hts.
  - intros Hname Hno.
    rewrite dict_get_set_same. f_equal.
    fold name in Hname.
    assert (Hfalsy : truthy name1 = false).
    { unfold name1, found.
      destruct (truthy lookup_key) eqn:Et; [|exact Hname].
      destruct (static_get lookup_key static_nodes) as [static_info|] eqn:Ef;
        [|exact Hname].
      rewrite Hname. simpl.
      specialize (Hno static_info eq_refl eq_refl).
      unfold get, get_default in Hno |- *.
      destruct (dict_get "name" static_info); [exact Hno|exact Hname]. }
    unfold py_or. now rewrite Hfalsy.
  - intros out. unfold process_node. rewrite Hrec. simpl.
    rewrite normalize_metrics_run. intros Hrun.
    apply (run_steps_frame all_metrics _ out "name" Hrun).
    intros m _ Hd.
    destruct m; simpl in Hd;
      repeat (destruct Hd as [Hd|Hd]; [discriminate Hd|]); contradiction.
Qed.
End Names.

(** A raw record without a name whose [uuid] matches the static record
    named "Box1". *)
Lemma C5_name_resolved_witness :
  exists node',
    reconcile (build_static_nodes (PDict two_boxes)) [("uuid", PStr "u1")]
    = Ok node'
    /\ dict_get "name" node' = Some (PStr "Box1").
Proof.
  destruct (C5_name_resolved (B := example_builtins)
              (build_static_nodes (PDict two_boxes)) [("uuid", PStr "u1")])
    as (node' & Hrec & _ & Hstatic & _).
  - reflexivity.
  - exists node'. split; [exact Hrec|].
    apply (Hstatic box1 (PStr "Box1")); try reflexivity. now left.
Defined.

(** Without a static match the name is the placeholder. *)
Example reconcile_no_match :
  reconcile [] [("uuid", PStr "u9")]
  = Ok [("uuid", PStr "u9"); ("name", PStr "未知节点")].
Proof. reflexivity. Qed.

Example reconcile_box1 :
  reconcile (build_static_nodes (PDict two_boxes)) [("uuid", PStr "u1")]
  = Ok [("uuid", PStr "u1"); ("id", PStr "i1"); ("name", PStr "Box1")].
Proof. reflexivity. Qed.

(** ** The remaining examples of the specification *)

Example uptime_90000 :
  uptime_step (B := example_builtins) [("uptime", PInt 90000)]
  = Ok [("uptime", PInt 90000); ("uptime_str", PStr "1天 1小时")].
Proof. reflexivity. Qed.

Example speed_2_mib : fmt_speed (PInt 2097152) = Ok (PStr "2.0 MB/s").
Proof. reflexivity. Qed.

Example id_map_payload :
  resolve_shape (PDict [("n1", PDict [("name", PStr "a")]);
                        ("n2", PDict [("name", PStr "b")])])
  = Records (PList [PDict [("name", PStr "a")]; PDict [("name", PStr "b")]]).
Proof. reflexivity. Qed.

Example realtime_one_node :
  komari_realtime (B := example_builtins) text_config (PDict two_boxes)
    (Connected (frames [text_frame "oops"; text_frame text_one_node]))
  = Presented false [[("name", PStr "n1")]].
Proof. reflexivity. Qed.

(** * Further properties of the code *)

(** ** Backfill from the static record (lines 291-293) *)

Lemma dict_set_same k v (d : dict) : dict_get k d = Some v -> dict_set k v d = d.
Proof.
  unfold dict_get, dict_set.
  induction d as [|[k' v'] d IH]; simpl; [discriminate|].
  destruct (String.eqb k k') eqn:E.
  - apply String.eqb_eq in E. subst k'. now intros [= ->].
  - intros Hg. now rewrite IH.
Qed.

Lemma dict_get_in_keys k (d : dict) :
  dict_get k d <> None <-> In k (map fst d).
Proof.
  unfold dict_get. induction d as [|[k' v'] d IH]; simpl.
  - split; [congruence|contradiction].
  - destruct (String.eqb k k') eqn:E.
    + apply String.eqb_eq in E. subst k'. split; [now left|discriminate].
    + apply String.eqb_neq in E. rewrite IH. split; [now right|].
      intros [Heq|Hin]; [congruence|assumption].
Qed.

Lemma backfill_fold static_info node :
  backfill static_info node = fold_left backfill_step static_info node.
Proof. reflexivity. Qed.

Lemma backfill_step_other nd kv k :
  k <> fst kv -> dict_get k (backfill_step nd kv) = dict_get k nd.
Proof.
  intros Hne. unfold backfill_step.
  destruct (dict_get (fst kv) nd) as [[]|];
    try reflexivity; now apply dict_get_set_frame.
Qed.

Lemma backfill_not_listed static_info :
  forall node k,
    ~ In k (map fst static_info) ->
    dict_get k (fold_left backfill_step static_info node) = dict_get k node.
Proof.
  induction static_info as [|kv rest IH]; intros node k Hk; simpl in *;
    [reflexivity|].
  rewrite IH by tauto. apply backfill_step_other. intros ->. tauto.
Qed.

Lemma backfill_get (static_info node : dict) (k : string) :
  NoDup (map fst static_info) ->
  dict_get k (backfill static_info node)
  = match dict_get k node with
    | Some v =>
        if is_none v then
          match dict_get k static_info with
          | Some w => Some w
          | None => Some PNone
          end
        else Some v
    | None => dict_get k static_info
    end.
Proof.
  rewrite backfill_fold. revert node.
  induction static_info as [|[k0 v0] rest IH]; intros node Hnd; simpl.
  - destruct (dict_get k node) as [[]|]; reflexivity.
  - inversion Hnd as [|? ? Hnot Hrest]; subst.
    unfold dict_get at 3 4. simpl. fold (dict_get k rest).
    destruct (String.eqb k k0) eqn:E.
    + apply String.eqb_eq in E. subst k0.
      rewrite backfill_not_listed by assumption.
      unfold backfill_step. simpl.
      destruct (dict_get k node) as [[]|] eqn:Hg; simpl;
        rewrite ?dict_get_set_same, ?Hg; reflexivity.
    + apply String.eqb_neq in E. rewrite (IH _ Hrest).
      rewrite backfill_step_other by (simpl; congruence). reflexivity.
Qed.


(** X1: after the backfill, a field that the raw record holds with a
    value other than null keeps that value; a field that is absent or null
    in the raw record takes the value of the static record when that one
    has the field, and is unchanged otherwise. *)
Theorem backfill_lookup (static_info node : dict) (k : string) :
  NoDup (map fst static_info) ->
  dict_get k (backfill static_info node)
  = match dict_get k node with
    | Some v =>
        if is_none v then
          match dict_get k static_info with
          | Some w => Some w
          | None => Some PNone
          end
        else Some v
    | None => dict_get k static_info
    end.
Proof. apply backfill_get. Qed.

Lemma backfill_lookup_witness :
  dict_get "os" (backfill [("os", PStr "linux"); ("region", PStr "eu")]
                   [("os", PNone); ("region", PStr "us")])
  = Some (PStr "linux")
  /\ dict_get "region" (backfill [("os", PStr "linux"); ("region", PStr "eu")]
                          [("os", PNone); ("region", PStr "us")])
     = Some (PStr "us").
Proof.
  assert (Hnd : NoDup (map fst [("os", PStr "linux"); ("region", PStr "eu")])).
  { simpl. constructor; [intros [E|[]]; discriminate E|].
    constructor; [intros []|constructor]. }
  split.
  - exact (backfill_lookup _ [("os", PNone); ("region", PStr "us")] "os" Hnd).
  - exact (backfill_lookup _ [("os", PNone); ("region", PStr "us")] "region" Hnd).
Defined.

Lemma backfill_settled static_info :
  forall node,
    (forall k v, In (k, v) static_info ->
                 match dict_get k node with
                 | Some w => is_none w = true -> v = PNone
                 | None => False
                 end) ->
    fold_left backfill_step static_info node = node.
Proof.
  induction static_info as [|[k v] rest IH]; intros node Hs; simpl;
    [reflexivity|].
  assert (Hstep : backfill_step node (k, v) = node).
  { unfold backfill_step. simpl.
    pose proof (Hs k v (or_introl eq_refl)) as Hk.
    destruct (dict_get k node) as [w|] eqn:Hg; [|contradiction].
    destruct w; try reflexivity.
    rewrite (Hk eq_refl). now apply dict_set_same. }
  rewrite Hstep. apply IH. intros k' v' Hin. apply Hs. now right.
Qed.

Lemma in_assoc_get (d : dict) k v :
  NoDup (map fst d) -> In (k, v) d -> dict_get k d = Some v.
Proof.
  unfold dict_get. induction d as [|[k0 v0] d IH]; simpl; [contradiction|].
  intros Hnd Hin. inversion Hnd as [|? ? Hnot Hrest]; subst.
  destruct Hin as [[= -> ->]|Hin].
  - now rewrite String.eqb_refl.
  - destruct (String.eqb k k0) eqn:E; [|now apply IH].
    apply String.eqb_eq in E. subst k0. exfalso. apply Hnot.
    now apply (in_map fst) in Hin.
Qed.

(** X2: backfilling twice from the same static record is backfilling
    once. *)
Theorem backfill_idempotent (static_info node : dict) :
  NoDup (map fst static_info) ->
  backfill static_info (backfill static_info node) = backfill static_info node.
Proof.
  intros Hnd. rewrite (backfill_fold static_info (backfill static_info node)).
  apply backfill_settled. intros k v Hin.
  rewrite (backfill_get static_info node k Hnd).
  rewrite (in_assoc_get static_info k v Hnd Hin).
  assert (Hv : is_none v = true -> v = PNone) by (now destruct v).
  destruct (dict_get k node) as [w|]; [|exact Hv].
  destruct (is_none w) eqn:Ew; [exact Hv|].
  intros Hw. congruence.
Qed.

Lemma backfill_idempotent_witness :
  backfill [("os", PStr "linux"); ("load_1", PNone)]
    (backfill [("os", PStr "linux"); ("load_1", PNone)] [("os", PNone)])
  = [("os", PStr "linux"); ("load_1", PNone)].
Proof.
  refine (eq_trans (backfill_idempotent _ [("os", PNone)] _) eq_refl).
  simpl. constructor; [intros [E|[]]; discriminate E|].
  constructor; [intros []|constructor].
Defined.

(** ** Raw fields through reconciliation and normalization *)

Lemma backfill_keeps static_info :
  forall node k v,
    dict_get k node = Some v -> v <> PNone ->
    dict_get k (fold_left backfill_step static_info node) = Some v.
Proof.
  induction static_info as [|kv rest IH]; intros node k v Hg Hv; simpl;
    [exact Hg|].
  apply IH; [|exact Hv].
  unfold backfill_step.
  destruct (String.eqb k (fst kv)) eqn:E.
  - apply String.eqb_eq in E. subst k. rewrite Hg.
    destruct v; try exact Hg. contradiction.
  - apply String.eqb_neq in E.
    destruct (dict_get (fst kv) node) as [[]|]; try exact Hg;
      rewrite dict_get_set_frame by exact E; exact Hg.
Qed.

Lemma reconcile_keeps static_nodes node node' k v :
  reconcile static_nodes node = Ok node' ->
  k <> "name" -> dict_get k node = Some v -> v <> PNone ->
  dict_get k node' = Some v.
Proof.
  unfold reconcile. intros Hrec Hk Hg Hv.
  destruct (truthy (py_or (get "uuid" node) (get "id" node)));
    [destruct (hashable (py_or (get "uuid" node) (get "id" node)));
     [|discriminate Hrec]|];
    simpl in Hrec.
  - destruct (static_get (py_or (get "uuid" node) (get "id" node)) static_nodes)
      as [static_info|]; injection Hrec as <-;
      rewrite dict_get_set_frame by exact Hk; [|exact Hg].
    rewrite backfill_fold. now apply backfill_keeps.
  - injection Hrec as <-. now rewrite dict_get_set_frame by exact Hk.
Qed.

Section RawFields.
Context `{B : Builtins}.

(** X3: processing a record never loses or changes a raw field that has
    a value other than null, except [name] and the fields that the metric
    steps derive. *)
Theorem process_node_keeps_raw (static_nodes : static_map) (node out : dict)
  (k : string) (v : pyval) :
  process_node static_nodes node = Ok out ->
  k <> "name" -> (forall m, ~ In k (derived_keys m)) ->
  dict_get k node = Some v -> v <> PNone ->
  dict_get k out = Some v.
Proof.
  unfold process_node. intros Hrun Hname Hder Hg Hv.
  destruct (reconcile static_nodes node) as [n1|] eqn:Hrec; simpl in Hrun;
    [|discriminate].
  rewrite normalize_metrics_run in Hrun.
  rewrite (run_steps_frame all_metrics n1 out k Hrun) by (intros; apply Hder).
  eapply reconcile_keeps; eassumption.
Qed.
End RawFields.

Lemma process_node_keeps_raw_witness :
  exists out,
    process_node (B := example_builtins) (build_static_nodes (PDict two_boxes))
      [("uuid", PStr "u1"); ("region", PStr "us"); ("uptime", PInt 90000)]
    = Ok out
    /\ dict_get "region" out = Some (PStr "us").
Proof.
  eexists. split; [reflexivity|].
  apply (process_node_keeps_raw (B := example_builtins)
           (build_static_nodes (PDict two_boxes))
           [("uuid", PStr "u1"); ("region", PStr "us"); ("uptime", PInt 90000)]
           _ "region" (PStr "us") eq_refl); try discriminate; try reflexivity.
  intros m Hin. destruct m; simpl in Hin;
    repeat (destruct Hin as [Hin|Hin]; [discriminate Hin|]); contradiction.
Defined.

(** ** More on the static inventory index (lines 157-167) *)

Lemma key_get_set k k' r m :
  key_get k' (key_set k r m) = if hkey_eq_dec k' k then Some r else key_get k' m.
Proof.
  destruct (hkey_eq_dec k' k) as [->|Hne].
  - apply key_get_set_same.
  - apply key_get_set_other. congruence.
Qed.

Lemma put_identity_sound (all : list pyval) field n acc acc' :
  field = "id" \/ field = "uuid" ->
  In (PDict n) all ->
  (forall hk r, key_get hk acc = Some r -> In (PDict r) all /\ carries hk r) ->
  put_identity field n acc = Ok acc' ->
  forall hk r, key_get hk acc' = Some r -> In (PDict r) all /\ carries hk r.
Proof.
  intros Hfield Hn Hacc. unfold put_identity, static_set.
  destruct (truthy (get field n)) eqn:Et; [|now intros [= <-]].
  destruct (hashable (get field n)) eqn:Eh; [|discriminate].
  destruct (key_of_hashable _ Eh) as (hk0 & Hk0). rewrite Hk0.
  intros [= <-] hk r. rewrite key_get_set.
  destruct (hkey_eq_dec hk hk0) as [->|_]; [|apply Hacc].
  intros [= <-]. split; [assumption|]. now exists field.
Qed.

Lemma index_nodes_sound (all : list pyval) ns :
  forall acc,
    (forall n, In n ns -> In n all) ->
    (forall hk r, key_get hk acc = Some r -> In (PDict r) all /\ carries hk r) ->
    forall hk r, key_get hk (index_nodes ns acc) = Some r ->
                 In (PDict r) all /\ carries hk r.
Proof.
  induction ns as [|n ns IH]; intros acc Hsub Hacc; simpl; [exact Hacc|].
  destruct n as [| | | | | |d]; try exact Hacc.
  assert (Hd : In (PDict d) all) by (apply Hsub; now left).
  destruct (put_identity "id" d acc) as [acc1|] eqn:E1; [|exact Hacc].
  pose proof (put_identity_sound all "id" d acc acc1 (or_introl eq_refl)
                Hd Hacc E1) as Hacc1.
  destruct (put_identity "uuid" d acc1) as [acc2|] eqn:E2; [|exact Hacc1].
  apply IH; [intros; apply Hsub; now right|].
  exact (put_identity_sound all "uuid" d acc1 acc2 (or_intror eq_refl)
           Hd Hacc1 E2).
Qed.

(** X4: whatever the response of the inventory request is, a lookup in the
    index only ever returns a record that is listed in the response and
    that carries the key, as a truthy [id] or [uuid]. *)
Theorem static_lookup_sound (data k : pyval) (r : dict) :
  static_get k (build_static_nodes data) = Some r ->
  exists d ns hk,
    data = PDict d /\ py_iter (get "data" d) = Ok ns /\ In (PDict r) ns
    /\ key_of k = Some hk /\ carries hk r.
Proof.
  unfold static_get, build_static_nodes.
  destruct (key_of k) as [hk|]; [|discriminate].
  destruct (truthy data); [|discriminate].
  destruct data as [| | | | | |d]; try discriminate.
  destruct (truthy (get "data" d)); [|discriminate].
  destruct (py_iter (get "data" d)) as [ns|] eqn:Hiter; [|discriminate].
  intros Hget. exists d, ns, hk.
  assert (Hempty : forall hk r, key_get hk [] = Some r ->
                                In (PDict r) ns /\ carries hk r)
    by (intros ? ? H; discriminate H).
  destruct (index_nodes_sound ns ns [] (fun n H => H) Hempty hk r Hget)
    as [Hin Hc].
  repeat split; try reflexivity; assumption.
Qed.

Lemma static_lookup_sound_witness :
  exists d ns hk,
    PDict two_boxes = PDict d /\ py_iter (get "data" d) = Ok ns
    /\ In (PDict box2) ns /\ key_of (PStr "u2") = Some hk /\ carries hk box2.
Proof.
  exact (static_lookup_sound (PDict two_boxes) (PStr "u2") box2 eq_refl).
Defined.

Lemma index_nodes_prefix ns :
  forall acc bad rest,
    (forall n, In n ns ->
               hashable (get "id" n) = true /\ hashable (get "uuid" n) = true) ->
    is_dict bad = false
    \/ (exists b, bad = PDict b /\ truthy (get "id" b) = true
                  /\ hashable (get "id" b) = false) ->
    index_nodes (map PDict ns ++ bad :: rest) acc
    = index_nodes (map PDict ns) acc.
Proof.
  induction ns as [|n ns IH]; intros acc bad rest Hh Hbad; simpl.
  - destruct Hbad as [Hbad|(b & -> & Ht & Hu)].
    + destruct bad; try reflexivity. discriminate Hbad.
    + unfold put_identity. now rewrite Ht, Hu.
  - destruct (Hh n (or_introl eq_refl)) as [Hid Huuid].
    rewrite (put_identity_hashable "id" n acc Hid).
    rewrite put_identity_hashable by exact Huuid.
    apply IH; [intros; apply Hh; now right|exact Hbad].
Qed.

(** X5: an entry of the inventory list that is no mapping, or whose [id]
    is truthy and cannot be hashed, ends the indexing without an error:
    the index is the one of the nodes listed before it, and the nodes
    after it are not indexed. *)
Theorem index_stops_at_malformed (d : dict) (ns : list dict) (bad : pyval)
  (rest : list pyval) :
  get "data" d = PList (map PDict ns ++ bad :: rest) ->
  (forall n, In n ns ->
             hashable (get "id" n) = true /\ hashable (get "uuid" n) = true) ->
  is_dict bad = false
  \/ (exists b, bad = PDict b /\ truthy (get "id" b) = true
                /\ hashable (get "id" b) = false) ->
  build_static_nodes (PDict d) = index_nodes (map PDict ns) [].
Proof.
  intros Hdata Hh Hbad. unfold build_static_nodes. rewrite Hdata.
  destruct d as [|kv d']; [discriminate Hdata|].
  assert (Ht : truthy (PList (map PDict ns ++ bad :: rest)) = true).
  { simpl. now destruct (map PDict ns). }
  simpl truthy at 1. cbv iota. rewrite Ht. simpl py_iter. cbv iota.
  now apply index_nodes_prefix.
Qed.

Lemma index_stops_at_malformed_witness :
  build_static_nodes
    (PDict [("data", PList [PDict box1; PStr "oops"; PDict box2])])
  = [(KStr "i1", box1); (KStr "u1", box1)].
Proof.
  refine (eq_trans
            (index_stops_at_malformed
               [("data", PList [PDict box1; PStr "oops"; PDict box2])]
               [box1] (PStr "oops") [PDict box2] eq_refl _
               (or_introl eq_refl)) eq_refl).
  intros n [<-|[]]. split; reflexivity.
Defined.

(** ** More on the frame loop and the shapes *)

Section FramesAndShapes.
Context `{B : Builtins}.

(** X6: the loop reads no frame beyond the one that ends it: a connection
    that delivers the same frames up to that one gives the same result,
    whatever it would deliver afterwards. *)
Theorem read_frames_reads_no_further (recv recv' : nat -> result WSMessage) :
  forall attempts i s,
    read_frames attempts recv i = Ok s ->
    (forall j, (i <= j < frames_read s)%nat -> recv' j = recv j) ->
    read_frames attempts recv' i = Ok s.
Proof.
  induction attempts as [|k IH]; intros i s Hrun Hsame; simpl in *;
    [exact Hrun|].
  assert (Hlow : (S i <= frames_read s)%nat).
  { destruct (recv i) as [msg|]; simpl in Hrun; [|discriminate].
    destruct (msg_type msg);
      try (apply read_frames_bound in Hrun; lia);
      try (injection Hrun as <-; simpl; lia).
    destruct (handle_text (msg_data msg)).
    - injection Hrun as <-. simpl. lia.
    - apply read_frames_bound in Hrun. lia. }
  rewrite (Hsame i) by lia.
  destruct (recv i) as [msg|]; simpl in *; [|discriminate].
  assert (Hnext : read_frames k recv (S i) = Ok s ->
                  read_frames k recv' (S i) = Ok s).
  { intros Hs. apply IH; [exact Hs|]. intros j Hj. apply Hsame. lia. }
  destruct (msg_type msg); try exact (Hnext Hrun); try exact Hrun.
  destruct (handle_text (msg_data msg)); [exact Hrun|exact (Hnext Hrun)].
Qed.

Lemma find_list_field_none keys (d : dict) :
  find_list_field keys d = None
  <-> forall k, In k keys -> is_list (get k d) = false.
Proof.
  unfold get, get_default. induction keys as [|k0 keys IH]; simpl.
  - split; [intros _ k []|reflexivity].
  - destruct (dict_get k0 d) as [v|] eqn:E.
    + destruct v; try (rewrite IH; split;
                       [intros Hall k [<-|Hin]; [now rewrite E|now apply Hall]
                       |intros Hall k Hin; apply Hall; now right]).
      split; [discriminate|].
      intros Hall. specialize (Hall k0 (or_introl eq_refl)).
      rewrite E in Hall. discriminate Hall.
    + rewrite IH. split.
      * intros Hall k [<-|Hin]; [now rewrite E|now apply Hall].
      * intros Hall k Hin. apply Hall. now right.
Qed.

Lemma no_dict_values (d : dict) :
  filter is_dict (map snd d) = []
  <-> forall k v, In (k, v) d -> is_dict v = false.
Proof.
  induction d as [|[k0 v0] d IH]; simpl.
  - split; [intros _ k v []|reflexivity].
  - destruct (is_dict v0) eqn:E.
    + split; [discriminate|].
      intros Hall. rewrite (Hall k0 v0 (or_introl eq_refl)) in E. discriminate E.
    + rewrite IH. split.
      * intros Hall k v [[= <- <-]|Hin]; [exact E|now apply (Hall k)].
      * intros Hall k v Hin. apply (Hall k). now right.
Qed.

(** X7: the "format" error with the keys of the payload is the answer
    exactly when the payload is a non-empty mapping that holds no sequence
    under [servers], [nodes], [clients], [list] or [data] and no mapping
    as a value. *)
Theorem bad_shape_iff (cfg : KomariConfig) (static_nodes : static_map)
  (realtime_data : pyval) (keys : list string) :
  present cfg static_nodes realtime_data = BadShape keys
  <-> exists d,
        realtime_data = PDict d /\ d <> [] /\ keys = map fst d
        /\ (forall k, In k list_keys -> is_list (get k d) = false)
        /\ (forall k v, In (k, v) d -> is_dict v = false).
Proof.
  unfold present. split.
  - destruct (truthy realtime_data) eqn:Et; simpl; [|discriminate].
    assert (Hloop : forall data,
               match py_iter data with
               | Ok elems =>
                   match process_nodes static_nodes elems with
                   | Ok processed_nodes =>
                       Presented (image_output cfg) processed_nodes
                   | Raise e => Unhandled e
                   end
               | Raise e => Unhandled e
               end <> BadShape keys).
    { intros data. destruct (py_iter data) as [elems|]; [|discriminate].
      destruct (process_nodes static_nodes elems); discriminate. }
    destruct realtime_data as [| | | | | |d]; unfold resolve_shape;
      try (intros Hb; now apply Hloop in Hb).
    destruct (find_list_field list_keys d) eqn:Ef;
      [intros Hb; cbv iota in Hb; now apply Hloop in Hb|].
    destruct (filter is_dict (map snd d)) eqn:Ev;
      [|intros Hb; cbv iota in Hb; now apply Hloop in Hb].
    intros [= <-]. exists d. repeat split.
    + intros ->. discriminate Et.
    + exact (proj1 (find_list_field_none list_keys d) Ef).
    + exact (proj1 (no_dict_values d) Ev).
  - intros (d & -> & Hne & -> & Hlists & Hvalues).
    destruct d as [|kv d']; [contradiction|]. simpl truthy. cbv iota.
    unfold resolve_shape.
    rewrite (proj2 (find_list_field_none list_keys (kv :: d')) Hlists).
    now rewrite (proj2 (no_dict_values (kv :: d')) Hvalues).
Qed.

(** X8: for an [uptime] that is an int, the uptime text holds the days
    and the hours of the floor decomposition: the hours are between 0 and
    23 and days and hours together are the uptime less its part below the
    hour. *)
Theorem uptime_days_hours (node : dict) (u : Z) :
  dict_get "uptime" node = Some (PInt u) ->
  exists days hours,
    uptime_step node
    = Ok (dict_set "uptime_str"
            (PStr (Float64.string_of_Z days ++ "天 "
                   ++ Float64.string_of_Z hours ++ "小时")) node)
    /\ 0 <= hours < 24
    /\ days * 86400 + hours * 3600 <= u < days * 86400 + (hours + 1) * 3600.
Proof.
  intros Hu. exists (u / 86400), (u mod 86400 / 3600).
  split; [|split].
  - unfold uptime_step, get_default. rewrite dict_mem_get, Hu. reflexivity.
  - pose proof (Z.mod_pos_bound u 86400 ltac:(lia)) as Hm.
    split; [apply Z.div_pos; lia|].
    apply Z.div_lt_upper_bound; lia.
  - pose proof (Z.div_mod u 86400 ltac:(lia)) as Hd.
    pose proof (Z.div_mod (u mod 86400) 3600 ltac:(lia)) as Hh.
    pose proof (Z.mod_pos_bound (u mod 86400) 3600 ltac:(lia)) as Hr.
    lia.
Qed.
End FramesAndShapes.

Lemma read_frames_reads_no_further_witness :
  read_frames (B := example_builtins) 3
    (frames [text_frame "oops"; text_frame text_one_node;
             text_frame text_no_record]) 0
  = Ok {| frames_read := 2;
          payload := Some (PList [PDict [("name", PStr "n1")]]) |}.
Proof.
  apply (read_frames_reads_no_further (B := example_builtins)
           (frames [text_frame "oops"; text_frame text_one_node])
           (frames [text_frame "oops"; text_frame text_one_node;
                    text_frame text_no_record]) 3 0); [reflexivity|].
  intros j Hj. simpl in Hj.
  destruct j as [|[|j]]; [reflexivity|reflexivity|lia].
Defined.

Lemma bad_shape_iff_witness :
  present (B := example_builtins) text_config []
    (PDict [("count", PInt 2); ("state", PStr "idle")])
  = BadShape ["count"; "state"].
Proof.
  apply (proj2 (bad_shape_iff (B := example_builtins) text_config []
                  (PDict [("count", PInt 2); ("state", PStr "idle")])
                  ["count"; "state"])).
  exists [("count", PInt 2); ("state", PStr "idle")].
  repeat split; try discriminate.
  - intros k Hin. simpl in Hin.
    repeat (destruct Hin as [<-|Hin]; [reflexivity|]). contradiction.
  - intros k v [[= <- <-]|[[= <- <-]|[]]]; reflexivity.
Defined.

Lemma uptime_days_hours_witness :
  exists days hours,
    uptime_step (B := example_builtins) [("uptime", PInt 90000)]
    = Ok (dict_set "uptime_str"
            (PStr (Float64.string_of_Z days ++ "天 "
                   ++ Float64.string_of_Z hours ++ "小时"))
            [("uptime", PInt 90000)])
    /\ 0 <= hours < 24
    /\ days * 86400 + hours * 3600 <= 90000
       < days * 86400 + (hours + 1) * 3600.
Proof.
  exact (uptime_days_hours (B := example_builtins) [("uptime", PInt 90000)]
           90000 eq_refl).
Defined.

(** ** Normalizing twice *)

Ltac settle n2 Hder :=
  cbv beta iota delta [bind];
  repeat match goal with
    | |- context [dict_set ?k ?v n2] =>
        rewrite (dict_set_same k v n2)
          by (rewrite Hder by (simpl; tauto);
              rewrite ?dict_get_set_frame by congruence;
              apply dict_get_set_same)
    end;
  reflexivity.

Ltac settle_eval n2 Hder :=
  simpl;
  repeat match goal with
    | E : ?x = _ |- context [?x] => rewrite E; simpl
    end;
  repeat match goal with
    | |- context [dict_set ?k ?v n2] =>
        rewrite (dict_set_same k v n2)
          by (rewrite Hder by (simpl; tauto);
              rewrite ?dict_get_set_frame by congruence;
              apply dict_get_set_same)
    end;
  reflexivity.

Lemma usage_step_again group flat out_total out_used out_percent node node' n2 :
  out_total <> out_used -> out_total <> out_percent -> out_used <> out_percent ->
  usage_step group flat out_total out_used out_percent node = Ok node' ->
  dict_get group n2 = dict_get group node ->
  dict_get flat n2 = dict_get flat node ->
  (forall k, In k [out_total; out_used; out_percent] ->
             dict_get k n2 = dict_get k node') ->
  usage_step group flat out_total out_used out_percent n2 = Ok n2.
Proof.
  intros H12 H13 H23 Hrun Hgroup Hflat Hder.
  unfold usage_step, get_default in *. rewrite dict_mem_get in *.
  rewrite Hgroup, Hflat.
  split_result; settle n2 Hder.
Qed.

Section Again.
Context `{B : Builtins}.

(** A step that has run leaves a record on which it changes nothing:
    any record with the same source fields and the same derived fields. *)
Lemma step_again m node node' n2 :
  step_of m node = Ok node' ->
  (forall k, In k source_keys -> dict_get k n2 = dict_get k node) ->
  (forall k, In k (derived_keys m) -> dict_get k n2 = dict_get k node') ->
  step_of m n2 = Ok n2.
Proof.
  destruct m; simpl step_of; intros Hrun Hsrc Hder.
  - unfold cpu_step, get_default in *.
    rewrite (Hsrc "cpu") by (simpl; tauto).
    split_result; settle_eval n2 Hder.
  - eapply usage_step_again; try eassumption; try discriminate;
      apply Hsrc; simpl; tauto.
  - eapply usage_step_again; try eassumption; try discriminate;
      apply Hsrc; simpl; tauto.
  - unfold network_step, get_default in *.
    rewrite (Hsrc "network") by (simpl; tauto).
    split_result; settle_eval n2 Hder.
  - unfold uptime_step, get_default in *. rewrite dict_mem_get in *.
    rewrite (Hsrc "uptime") by (simpl; tauto).
    split_result; settle_eval n2 Hder.
  - unfold load_step in *.
    rewrite (Hsrc "load") by (simpl; tauto).
    split_result; settle_eval n2 Hder.
Qed.

Lemma run_steps_again ms :
  forall node n1 n2,
    run_steps ms node = Ok n1 ->
    steps_disjoint ms ->
    (forall k, In k source_keys -> dict_get k n2 = dict_get k n1) ->
    (forall m k, In m ms -> In k (derived_keys m) ->
                 dict_get k n2 = dict_get k n1) ->
    run_steps ms n2 = Ok n2.
Proof.
  induction ms as [|m rest IH]; intros node n1 n2 Hrun Hdis Hsrc Hder; simpl;
    [reflexivity|].
  simpl in Hrun, Hdis. destruct Hdis as [Hhead Hrest].
  destruct (step_of m node) as [nm|] eqn:Em; simpl in Hrun; [|discriminate].
  rewrite (step_again m node nm n2 Em).
  - simpl. apply (IH nm n1 n2 Hrun Hrest Hsrc).
    intros m' k Hm'. apply Hder. now right.
  - intros k Hk. rewrite (Hsrc k Hk).
    rewrite (run_steps_frame rest nm n1 k Hrun)
      by (intros; now apply source_not_derived).
    eapply step_frame; [eassumption|now apply source_not_derived].
  - intros k Hk. rewrite (Hder m k (or_introl eq_refl) Hk).
    apply (run_steps_frame rest nm n1 k Hrun).
    intros m' Hm'. now apply Hhead.
Qed.

(** X9: normalizing a record that has been normalized changes nothing:
    the steps read the same source fields and write the derived fields
    that are there already. *)
Theorem normalize_metrics_idempotent (node n1 : dict) :
  normalize_metrics node = Ok n1 -> normalize_metrics n1 = Ok n1.
Proof.
  rewrite !normalize_metrics_run. intros Hrun.
  apply (run_steps_again all_metrics node n1 n1 Hrun); try reflexivity.
  simpl. repeat split; try exact I;
    intros m' Hm' k Hk Hk'; simpl in Hm';
    repeat (destruct Hm' as [<-|Hm']; [simpl in Hk, Hk'|]);
    try contradiction;
    repeat (destruct Hk as [<-|Hk];
            [repeat (destruct Hk' as [Hk'|Hk']; [discriminate Hk'|]);
             contradiction|]);
    contradiction.
Qed.
End Again.

Lemma normalize_metrics_idempotent_witness :
  normalize_metrics (B := example_builtins)
    [("ram", PDict [("total", PInt 8589934592); ("used", PInt 4294967296)]);
     ("uptime", PInt 90000);
     ("ram_total_gb", PFloat (Float64.of_Z 8));
     ("ram_used_gb", PFloat (Float64.of_Z 4));
     ("ram_usage_percent", PFloat (Float64.of_Z 50));
     ("uptime_str", PStr "1天 1小时")]
  = Ok [("ram", PDict [("total", PInt 8589934592); ("used", PInt 4294967296)]);
        ("uptime", PInt 90000);
        ("ram_total_gb", PFloat (Float64.of_Z 8));
        ("ram_used_gb", PFloat (Float64.of_Z 4));
        ("ram_usage_percent", PFloat (Float64.of_Z 50));
        ("uptime_str", PStr "1天 1小时")].
Proof.
  exact (normalize_metrics_idempotent (B := example_builtins)
           [("ram", PDict [("total", PInt 8589934592);
                           ("used", PInt 4294967296)]);
            ("uptime", PInt 90000)] _ eq_refl).
Defined.

(** ** Disk (lines 322-330) *)

Section DiskFields.
Context `{B : Builtins}.

Lemma normalize_around_disk node node' :
  normalize_metrics node = Ok node' ->
  exists n2 n3,
    disk_step n2 = Ok n3
    /\ (forall k, In k source_keys -> dict_get k n2 = dict_get k node)
    /\ (forall k, In k (derived_keys Disk) -> dict_get k n2 = dict_get k node)
    /\ (forall k, In k (derived_keys Disk) -> dict_get k node' = dict_get k n3).
Proof.
  rewrite normalize_metrics_run. simpl run_steps. intros Hrun.
  destruct (cpu_step node) as [n1|] eqn:E1; simpl in Hrun; [|discriminate].
  destruct (ram_step n1) as [n2|] eqn:E2; simpl in Hrun; [|discriminate].
  destruct (disk_step n2) as [n3|] eqn:E3; simpl in Hrun; [|discriminate].
  exists n2, n3. split; [exact E3|].
  assert (Hfront : forall k,
             ~ In k (derived_keys Cpu) -> ~ In k (derived_keys Ram) ->
             dict_get k n2 = dict_get k node).
  { intros k Hc Hr.
    rewrite (step_frame Ram n1 n2 k E2 Hr). exact (step_frame Cpu node n1 k E1 Hc). }
  split; [|split].
  - intros k Hk. apply Hfront; now apply source_not_derived.
  - intros k Hk. apply Hfront; simpl in *; intros Hin;
      repeat (destruct Hk as [<-|Hk];
              [repeat (destruct Hin as [Hin|Hin]; [discriminate Hin|]);
               contradiction|]);
      contradiction.
  - intros k Hk.
    apply (run_steps_frame [Network; Uptime; Load] n3 node' k Hrun).
    intros m Hm Hin. simpl in Hm, Hk.
    repeat (destruct Hm as [<-|Hm];
            [simpl in Hin;
             repeat (destruct Hk as [<-|Hk];
                     [repeat (destruct Hin as [Hin|Hin]; [discriminate Hin|]);
                      contradiction|]);
             contradiction|]).
    contradiction.
Qed.

(** X10: the disk fields follow the pattern of the RAM fields.  When
    [disk] is a mapping whose [total] is a number above 0, a normalized
    record holds [disk_total_gb] and [disk_used_gb], each the byte count
    over 2^30 rounded to 2 decimals, and [disk_usage_percent], used over
    total times 100 rounded to 1 decimal; for ints these are the roundings
    of the correctly rounded quotients.  When [disk] is a mapping whose
    [total] is not above 0, the three fields are as they were, also when a
    flat [disk_total] exists. *)
Theorem disk_fields (node node' g : dict) :
  dict_get "disk" node = Some (PDict g) ->
  normalize_metrics node = Ok node' ->
  (py_gt (get_default "total" (PInt 0) g) 0 = Ok true ->
   exists qt qu q,
     py_truediv (get_default "total" (PInt 0) g) (PInt (2 ^ 30)) = Ok qt
     /\ py_truediv (get_default "used" (PInt 0) g) (PInt (2 ^ 30)) = Ok qu
     /\ py_truediv (get_default "used" (PInt 0) g)
          (get_default "total" (PInt 0) g) = Ok q
     /\ dict_get "disk_total_gb" node' = Some (PFloat (Float64.round qt 2))
     /\ dict_get "disk_used_gb" node' = Some (PFloat (Float64.round qu 2))
     /\ dict_get "disk_usage_percent" node'
        = Some (PFloat (Float64.round (Float64.mul q (Float64.of_Z 100)) 1)))
  /\ (forall t u,
        dict_get "total" g = Some (PInt t) ->
        dict_get "used" g = Some (PInt u) ->
        0 < t ->
        dict_get "disk_total_gb" node'
        = Some (PFloat (Float64.round (Float64.div_Z t (2 ^ 30)) 2))
        /\ dict_get "disk_used_gb" node'
           = Some (PFloat (Float64.round (Float64.div_Z u (2 ^ 30)) 2))
        /\ dict_get "disk_usage_percent" node'
           = Some (PFloat (Float64.round
                             (Float64.mul (Float64.div_Z u t)
                                (Float64.of_Z 100)) 1)))
  /\ (py_gt (get_default "total" (PInt 0) g) 0 = Ok false ->
      forall k, In k (derived_keys Disk) ->
                dict_get k node' = dict_get k node).
Proof.
  intros Hdisk Hrun.
  destruct (normalize_around_disk node node' Hrun)
    as (n2 & n3 & Hstep & Hsrc & Hold & Hnew).
  assert (Hdisk2 : dict_get "disk" n2 = Some (PDict g))
    by (rewrite Hsrc by (simpl; tauto); exact Hdisk).
  assert (Hpositive :
            py_gt (get_default "total" (PInt 0) g) 0 = Ok true ->
            exists qt qu q,
              py_truediv (get_default "total" (PInt 0) g) (PInt (2 ^ 30))
              = Ok qt
              /\ py_truediv (get_default "used" (PInt 0) g) (PInt (2 ^ 30))
                 = Ok qu
              /\ py_truediv (get_default "used" (PInt 0) g)
                   (get_default "total" (PInt 0) g) = Ok q
              /\ dict_get "disk_total_gb" node'
                 = Some (PFloat (Float64.round qt 2))
              /\ dict_get "disk_used_gb" node'
                 = Some (PFloat (Float64.round qu 2))
              /\ dict_get "disk_usage_percent" node'
                 = Some (PFloat (Float64.round
                                   (Float64.mul q (Float64.of_Z 100)) 1))).
  { intros Hpos.
    destruct (usage_step_positive_inv "disk" "disk_total" _ _ _ n2 n3 g
                Hdisk2 Hpos Hstep) as (qt & qu & q & Hqt & Hqu & Hq & ->).
    exists qt, qu, q.
    repeat split; try assumption; rewrite Hnew by (simpl; tauto).
    - rewrite !dict_get_set_frame by discriminate. apply dict_get_set_same.
    - rewrite dict_get_set_frame by discriminate. apply dict_get_set_same.
    - apply dict_get_set_same. }
  split; [exact Hpositive|]. split.
  - intros t u Ht Hu Htpos.
    assert (Htotal : get_default "total" (PInt 0) g = PInt t)
      by (unfold get_default; now rewrite Ht).
    assert (Hused : get_default "used" (PInt 0) g = PInt u)
      by (unfold get_default; now rewrite Hu).
    rewrite Htotal, Hused in Hpositive.
    destruct Hpositive as (qt & qu & q & Hqt & Hqu & Hq & H1 & H2 & H3).
    { unfold py_gt. simpl.
      destruct (0 <? t) eqn:E; [reflexivity|]. apply Z.ltb_ge in E. lia. }
    apply truediv_int_value in Hqt, Hqu, Hq. subst qt qu q. now repeat split.
  - intros Hpos. unfold disk_step, usage_step in Hstep.
    rewrite Hdisk2, Hpos in Hstep. simpl in Hstep.
    injection Hstep as <-. intros k Hk. rewrite (Hnew k Hk). now apply Hold.
Qed.
End DiskFields.

(** A disk of 500000000000 bytes with 123456789012 used: 465.66 GB (of
    465.6612...), 114.98 GB (of 114.9780...) and 24.7 percent (of
    24.6913...), whatever the flat [disk_total] says. *)
Lemma disk_fields_witness :
  exists node',
    normalize_metrics (B := example_builtins)
      [("disk", PDict [("total", PInt 500000000000);
                       ("used", PInt 123456789012)]);
       ("disk_total", PInt 1024); ("uptime", PInt 90000)]
    = Ok node'
    /\ dict_get "disk_total_gb" node'
       = Some (PFloat (S754_finite false 8191977353442755 (-44)))
    /\ dict_get "disk_used_gb" node'
       = Some (PFloat (S754_finite false 8090998205547807 (-46)))
    /\ dict_get "disk_usage_percent" node'
       = Some (PFloat (S754_finite false 6952431924753203 (-48))).
Proof.
  eexists. split; [reflexivity|].
  apply (fun node' Hrun =>
           proj1 (proj2 (disk_fields (B := example_builtins)
                           [("disk", PDict [("total", PInt 500000000000);
                                            ("used", PInt 123456789012)]);
                            ("disk_total", PInt 1024); ("uptime", PInt 90000)]
                           node'
                           [("total", PInt 500000000000);
                            ("used", PInt 123456789012)]
                           eq_refl Hrun))
             500000000000 123456789012 eq_refl eq_refl eq_refl).
  reflexivity.
Defined.

(** ** The requests (lines 87-107) *)

Lemma fetch_api_cases cfg komari_token endpoint http :
  match _fetch_api cfg komari_token endpoint http with
  | (data, Some e) => data = PNone /\ error_text (Some e) = Some e
  | (data, None) =>
      exists base,
        komari_url cfg = Some base /\ base <> EmptyString
        /\ http (rstrip_slash base ++ endpoint)%string (auth_headers komari_token)
           = HttpResponse 200 (inr data)
  end.
Proof.
  unfold _fetch_api.
  destruct (komari_url cfg) as [[|c base]|]; [now split| |now split].
  destruct (http _ _) as [e|status [e|data]] eqn:Eh; [now split| |].
  - destruct (status =? 200); now split.
  - destruct (status =? 200) eqn:Es; [|now split].
    apply Z.eqb_eq in Es. subst status. simpl.
    exists (String c base). repeat split; [discriminate|exact Eh].
Qed.

(** X11: a request gives an error or data, never both: an error comes
    with no data and is a non-empty text, so that the test [if error] of
    the callers sees it; data without an error is the decoded body of a
    response with status 200 to the configured address, without its
    trailing slashes, followed by the endpoint. *)
Theorem fetch_api_error_or_data (cfg : KomariConfig)
  (komari_token : option string) (endpoint : string) (http : http_get) :
  match _fetch_api cfg komari_token endpoint http with
  | (data, Some e) => data = PNone /\ error_text (Some e) = Some e
  | (data, None) =>
      exists base,
        komari_url cfg = Some base /\ base <> EmptyString
        /\ http (rstrip_slash base ++ endpoint)%string (auth_headers komari_token)
           = HttpResponse 200 (inr data)
  end.
Proof. apply fetch_api_cases. Qed.

Lemma rstrip_slash_app_slash (u : string) :
  rstrip_slash (u ++ "/") = rstrip_slash u.
Proof.
  induction u as [|c u IH]; simpl; [reflexivity|]. now rewrite IH.
Qed.

(** X12: a trailing slash of the configured address makes no difference
    to the requests and to the address of the stream. *)
Theorem trailing_slash_ignored (u : string) (image : bool)
  (komari_token : option string) (endpoint : string) (http : http_get) :
  u <> EmptyString ->
  _fetch_api {| komari_url := Some (u ++ "/")%string; image_output := image |}
    komari_token endpoint http
  = _fetch_api {| komari_url := Some u; image_output := image |}
      komari_token endpoint http
  /\ ws_url (u ++ "/") = ws_url u.
Proof.
  intros Hu. split.
  - unfold _fetch_api. simpl komari_url.
    destruct u as [|c u]; [contradiction|]. simpl append.
    change (String c (u ++ "/")%string) with (String c u ++ "/")%string.
    now rewrite rstrip_slash_app_slash.
  - unfold ws_url. now rewrite rstrip_slash_app_slash.
Qed.

Lemma trailing_slash_ignored_witness :
  ws_url "https://status.example.com/" = ws_url "https://status.example.com".
Proof.
  exact (proj2 (trailing_slash_ignored "https://status.example.com" false None
                  "/api/nodes" (fun _ _ => HttpRaises "down")
                  ltac:(discriminate))).
Defined.

Lemma replace_absent old new :
  forall s, is_substring old s = false -> replace_from old new 0 s = s.
Proof.
  induction s as [|c s IH]; intros Hs; [reflexivity|].
  cbn [is_substring] in Hs. apply orb_false_elim in Hs as [Hp Hrest].
  cbn [replace_from]. rewrite Hp. now rewrite IH.
Qed.

Lemma rstrip_slash_app (p h : string) :
  rstrip_slash h <> EmptyString ->
  rstrip_slash (p ++ h) = (p ++ rstrip_slash h)%string.
Proof.
  intros Hh. induction p as [|c p IH]; simpl; [reflexivity|].
  rewrite IH. destruct (p ++ rstrip_slash h)%string eqn:E; [|reflexivity].
  destruct p; simpl in E; [contradiction|discriminate].
Qed.

(** X13: for an address that consists of the scheme [https://] (or
    [http://]) and a host part in which neither scheme occurs again, the
    address of the stream is [wss://] (or [ws://]), the host part without
    its trailing slashes, and [/api/clients]. *)
Theorem ws_url_scheme (host : string) :
  rstrip_slash host <> EmptyString ->
  is_substring "http://" (rstrip_slash host) = false ->
  is_substring "https://" (rstrip_slash host) = false ->
  ws_url ("https://" ++ host) = ("wss://" ++ rstrip_slash host ++ "/api/clients")%string
  /\ ws_url ("http://" ++ host) = ("ws://" ++ rstrip_slash host ++ "/api/clients")%string.
Proof.
  intros Hne Hhttp Hhttps. unfold ws_url, str_replace.
  rewrite !rstrip_slash_app by assumption.
  set (h := rstrip_slash host) in *.
  assert (Hnil : forall s, String.prefix EmptyString s = true)
    by (now destruct s).
  split.
  - cbn. rewrite Hnil. cbn.
    rewrite (replace_absent "https://" "wss://" h Hhttps).
    cbn. now rewrite (replace_absent "http://" "ws://" h Hhttp).
  - cbn. rewrite (replace_absent "https://" "wss://" h Hhttps).
    cbn. rewrite Hnil. cbn.
    now rewrite (replace_absent "http://" "ws://" h Hhttp).
Qed.

Lemma ws_url_scheme_witness :
  ws_url "https://status.example.com/" = "wss://status.example.com/api/clients".
Proof.
  exact (proj1 (ws_url_scheme "status.example.com/"
                  ltac:(discriminate) eq_refl eq_refl)).
Defined.

(** ** The commands (lines 47-56, 109-147 and 434-494) *)

Lemma eq_str_true v lit : eq_str v lit = true <-> v = PStr lit.
Proof.
  unfold eq_str. destruct v; try (split; discriminate).
  rewrite String.eqb_eq. split; [now intros ->|now intros [= ->]].
Qed.

Lemma fetch_api_ok cfg komari_token endpoint http data :
  _fetch_api cfg komari_token endpoint http = (data, None)
  <-> exists base,
        komari_url cfg = Some base /\ base <> EmptyString
        /\ http (rstrip_slash base ++ endpoint)%string (auth_headers komari_token)
           = HttpResponse 200 (inr data).
Proof.
  split.
  - intros Hf. pose proof (fetch_api_cases cfg komari_token endpoint http) as Hc.
    now rewrite Hf in Hc.
  - intros (base & Hurl & Hne & Hhttp). unfold _fetch_api. rewrite Hurl.
    destruct base; [contradiction|]. now rewrite Hhttp.
Qed.

Lemma fetch_api_error_text cfg komari_token endpoint http :
  error_text (snd (_fetch_api cfg komari_token endpoint http))
  = snd (_fetch_api cfg komari_token endpoint http).
Proof.
  pose proof (fetch_api_cases cfg komari_token endpoint http) as Hc.
  destruct (_fetch_api cfg komari_token endpoint http) as [data [e|]];
    [apply Hc|reflexivity].
Qed.

(** What the node command needs to reach its output: a response with
    status 200 to the inventory request whose body is a mapping with
    [status] equal to "success" and a [data] that is not empty. *)
Lemma komari_nodes_handoff cfg komari_token http env base d :
  komari_url cfg = Some base -> base <> EmptyString ->
  http (rstrip_slash base ++ "/api/nodes")%string (auth_headers komari_token)
  = HttpResponse 200 (inr (PDict d)) ->
  get "status" d = PStr "success" ->
  truthy (get_default "data" (PList []) d) = true ->
  komari_nodes cfg komari_token http env
  = if image_output cfg
    then _handle_image_output env (get_default "data" (PList []) d)
    else _handle_text_output (get_default "data" (PList []) d).
Proof.
  intros Hurl Hne Hhttp Hs Ht. unfold komari_nodes.
  rewrite (proj2 (fetch_api_ok cfg komari_token "/api/nodes" http (PDict d)))
    by (exists base; repeat split; assumption).
  simpl. rewrite (proj2 (eq_str_true _ _) Hs). simpl. now rewrite Ht.
Qed.

Lemma komari_nodes_handoff_inv cfg komari_token http env r :
  komari_nodes cfg komari_token http env = r ->
  (forall e, r <> Plain e) -> (forall m, r <> ApiFailed m) ->
  r <> Fault AttributeError ->
  exists base d,
    komari_url cfg = Some base /\ base <> EmptyString
    /\ http (rstrip_slash base ++ "/api/nodes")%string
         (auth_headers komari_token)
       = HttpResponse 200 (inr (PDict d))
    /\ get "status" d = PStr "success"
    /\ truthy (get_default "data" (PList []) d) = true.
Proof.
  unfold komari_nodes.
  pose proof (fetch_api_error_text cfg komari_token "/api/nodes" http) as Herr.
  pose proof (fetch_api_ok cfg komari_token "/api/nodes" http) as Hok.
  destruct (_fetch_api cfg komari_token "/api/nodes" http) as [data error].
  simpl in Herr. rewrite Herr. intros Hr Hplain Hfailed Hfault.
  destruct error as [e|]; [now elim (Hplain e)|].
  destruct data as [| | | | | |d]; try (now elim Hfault).
  destruct (eq_str (get "status" d) "success") eqn:Es; simpl in Hr;
    [|now elim (Hfailed (get_default "message" (PStr "未知错误") d))].
  destruct (truthy (get_default "data" (PList []) d)) eqn:Et; simpl in Hr;
    [|now elim (Hplain "未找到任何节点。")].
  destruct (proj1 (Hok (PDict d)) eq_refl) as (base & Hurl & Hne & Hhttp).
  exists base, d. apply eq_str_true in Es. repeat split; assumption.
Qed.

Lemma text_output_no_image nodes img_url :
  _handle_text_output nodes <> ImageReply img_url.
Proof.
  unfold _handle_text_output.
  now destruct (do elems <- py_iter nodes; node_texts elems).
Qed.

(** X14: the node command answers with the rendered image exactly when
    [image_output] is set, a template is loaded, the inventory request
    gives a response with status 200 whose body is a mapping with [status]
    equal to "success" and a [data] that is not empty and has a length,
    the rendering of the template with these nodes and the [dark_theme]
    setting gives an address that is not empty, and [Image.fromURL]
    accepts it.  In every other case the answer is a text or an
    exception. *)
Theorem komari_nodes_image (cfg : KomariConfig) (komari_token : option string)
  (http : http_get) (env : renderer) (img_url : string) :
  komari_nodes cfg komari_token http env = ImageReply img_url
  <-> image_output cfg = true
      /\ template_str env <> EmptyString
      /\ exists base d n,
           komari_url cfg = Some base /\ base <> EmptyString
           /\ http (rstrip_slash base ++ "/api/nodes")%string
                (auth_headers komari_token)
              = HttpResponse 200 (inr (PDict d))
           /\ get "status" d = PStr "success"
           /\ truthy (get_default "data" (PList []) d) = true
           /\ py_len (get_default "data" (PList []) d) = Ok n
           /\ html_render env (template_str env)
                (PDict [("nodes", get_default "data" (PList []) d);
                        ("dark_theme", PBool (dark_theme env))])
              = Some img_url
           /\ img_url <> EmptyString
           /\ image_from_url env img_url = true.
Proof.
  split.
  - intros Hr.
    destruct (komari_nodes_handoff_inv cfg komari_token http env _ Hr)
      as (base & d & Hurl & Hne & Hhttp & Hs & Ht); try discriminate.
    rewrite (komari_nodes_handoff cfg komari_token http env base d
               Hurl Hne Hhttp Hs Ht) in Hr.
    destruct (image_output cfg);
      [|now elim (text_output_no_image _ _ Hr)].
    split; [reflexivity|]. unfold _handle_image_output in Hr.
    destruct (template_str env) as [|c t] eqn:Etpl; [discriminate|].
    split; [discriminate|].
    destruct (py_len (get_default "data" (PList []) d)) as [n|] eqn:El;
      [|now elim (text_output_no_image _ _ Hr)].
    destruct (html_render env (String c t) _) as [[|c' u]|] eqn:Eh;
      [discriminate| |now elim (text_output_no_image _ _ Hr)].
    destruct (image_from_url env (String c' u)) eqn:Ei;
      [|now elim (text_output_no_image _ _ Hr)].
    injection Hr as <-. exists base, d, n.
    repeat split; try assumption. discriminate.
  - intros (Himg & Htpl & base & d & n & Hurl & Hne & Hhttp & Hs & Ht & Hl
            & Hh & Hu & Hi).
    rewrite (komari_nodes_handoff cfg komari_token http env base d
               Hurl Hne Hhttp Hs Ht), Himg.
    unfold _handle_image_output.
    destruct (template_str env) as [|c t]; [contradiction|].
    rewrite Hl, Hh. destruct img_url as [|c' u]; [contradiction|].
    now rewrite Hi.
Qed.

Lemma komari_nodes_image_witness :
  komari_nodes {| komari_url := Some "https://status.example.com";
                  image_output := true |} None
    (fun _ _ => HttpResponse 200 (inr (PDict two_boxes)))
    {| template_str := "<html></html>"; dark_theme := true;
       html_render := fun _ _ => Some "https://img.example.com/1.jpg";
       image_from_url := fun _ => true |}
  = ImageReply "https://img.example.com/1.jpg".
Proof.
  apply (proj2 (komari_nodes_image
                  {| komari_url := Some "https://status.example.com";
                     image_output := true |} None
                  (fun _ _ => HttpResponse 200 (inr (PDict two_boxes)))
                  {| template_str := "<html></html>"; dark_theme := true;
                     html_render := fun _ _ => Some "https://img.example.com/1.jpg";
                     image_from_url := fun _ => true |}
                  "https://img.example.com/1.jpg")).
  split; [reflexivity|]. split; [discriminate|].
  exists "https://status.example.com", two_boxes, 2%nat.
  repeat split; try reflexivity; discriminate.
Defined.

Lemma node_texts_raises elems x e :
  In x elems -> node_text_of x = Raise e ->
  exists e', node_texts elems = Raise e'.
Proof.
  induction elems as [|y elems IH]; intros Hin Hx; [contradiction|]. simpl.
  destruct Hin as [->|Hin].
  - rewrite Hx. simpl. eauto.
  - destruct (node_text_of y); simpl; [|eauto].
    destruct (IH Hin Hx) as (e' & ->). simpl. eauto.
Qed.

Lemma bytes_to_gb_not_number v :
  not_number v = true -> bytes_to_gb v = Raise TypeError.
Proof.
  intros Hv. unfold bytes_to_gb, py_truediv. unfold not_number in Hv.
  now destruct (as_num v).
Qed.

(** X18: the text report of the node command is all or nothing.  With
    [image_output] unset, one listed node that is no mapping, or whose
    [mem_total] or [disk_total] is no number (null, say), makes the
    command end in an unhandled exception instead of a report of the other
    nodes. *)
Theorem komari_nodes_bad_node (cfg : KomariConfig)
  (komari_token : option string) (http : http_get) (env : renderer)
  (base : string) (d : dict) (elems : list pyval) (x : pyval) :
  image_output cfg = false ->
  komari_url cfg = Some base -> base <> EmptyString ->
  http (rstrip_slash base ++ "/api/nodes")%string (auth_headers komari_token)
  = HttpResponse 200 (inr (PDict d)) ->
  get "status" d = PStr "success" ->
  dict_get "data" d = Some (PList elems) ->
  In x elems ->
  is_dict x = false
  \/ (exists node,
        x = PDict node
        /\ (not_number (get_default "mem_total" (PInt 0) node) = true
            \/ not_number (get_default "disk_total" (PInt 0) node) = true)) ->
  exists e, komari_nodes cfg komari_token http env = Fault e.
Proof.
  intros Himg Hurl Hne Hhttp Hs Hdata Hin Hbad.
  assert (Hnodes : get_default "data" (PList []) d = PList elems)
    by (unfold get_default; now rewrite Hdata).
  assert (Ht : truthy (get_default "data" (PList []) d) = true).
  { rewrite Hnodes. destruct elems; [contradiction|reflexivity]. }
  rewrite (komari_nodes_handoff cfg komari_token http env base d
             Hurl Hne Hhttp Hs Ht), Himg, Hnodes.
  assert (Hx : exists e, node_text_of x = Raise e).
  { destruct Hbad as [Hnd|(node & -> & [Hm|Hd])].
    - exists AttributeError. destruct x; try reflexivity. discriminate.
    - exists TypeError. simpl. now rewrite (bytes_to_gb_not_number _ Hm).
    - simpl. rewrite (bytes_to_gb_not_number _ Hd).
      destruct (bytes_to_gb (get_default "mem_total" (PInt 0) node));
        simpl; eauto. }
  destruct Hx as (e & He).
  destruct (node_texts_raises elems x e Hin He) as (e' & He').
  exists e'. unfold _handle_text_output. simpl. now rewrite He'.
Qed.

(** The second node reports a null [mem_total]. *)
Lemma komari_nodes_bad_node_witness :
  exists e,
    komari_nodes text_config None
      (fun _ _ =>
         HttpResponse 200
           (inr (PDict [("status", PStr "success");
                        ("data",
                         PList [PDict [("name", PStr "a");
                                       ("mem_total", PInt 1024)];
                                PDict [("name", PStr "b");
                                       ("mem_total", PNone)]])])))
      {| template_str := EmptyString; dark_theme := true;
         html_render := fun _ _ => None;
         image_from_url := fun _ => false |}
    = Fault e.
Proof.
  apply (komari_nodes_bad_node text_config None _ _
           "https://status.example.com"
           [("status", PStr "success");
            ("data",
             PList [PDict [("name", PStr "a"); ("mem_total", PInt 1024)];
                    PDict [("name", PStr "b"); ("mem_total", PNone)]])]
           [PDict [("name", PStr "a"); ("mem_total", PInt 1024)];
            PDict [("name", PStr "b"); ("mem_total", PNone)]]
           (PDict [("name", PStr "b"); ("mem_total", PNone)])
           eq_refl eq_refl);
    try reflexivity; try discriminate.
  - right. now left.
  - right. eexists. split; [reflexivity|]. left. reflexivity.
Defined.




Section Inventory.
Context `{B : Builtins}.

(** X16: a failed inventory request is not fatal to the realtime
    command: it goes on as with an empty inventory, connecting to the
    stream address with the same headers. *)
Theorem inventory_failure_not_fatal (cfg : KomariConfig)
  (komari_token : option string) (http : http_get)
  (connect : string -> list (string * string) -> stream) (url e : string) :
  komari_url cfg = Some url -> url <> EmptyString ->
  snd (_fetch_api cfg komari_token "/api/nodes" http) = Some e ->
  build_static_nodes (fst (_fetch_api cfg komari_token "/api/nodes" http)) = []
  /\ komari_realtime_command cfg komari_token http connect
     = komari_realtime cfg PNone
         (connect (ws_url url) (auth_headers komari_token)).
Proof.
  intros Hurl Hne Herr. unfold komari_realtime_command. rewrite Hurl.
  pose proof (fetch_api_cases cfg komari_token "/api/nodes" http) as Hc.
  destruct (_fetch_api cfg komari_token "/api/nodes" http) as [data error].
  simpl in Herr. subst error. destruct Hc as [-> _].
  split; [reflexivity|].
  destruct url; [contradiction|reflexivity].
Qed.
End Inventory.

Lemma inventory_failure_not_fatal_witness :
  komari_realtime_command (B := example_builtins) text_config None
    (fun _ _ => HttpResponse 500 (inl "no body"))
    (fun _ _ => Connected (frames [text_frame text_one_node]))
  = Presented false [[("name", PStr "n1")]].
Proof.
  refine (eq_trans
            (proj2 (inventory_failure_not_fatal (B := example_builtins)
                      text_config None
                      (fun _ _ => HttpResponse 500 (inl "no body"))
                      (fun _ _ => Connected (frames [text_frame text_one_node]))
                      "https://status.example.com" "API 请求错误: 500"
                      eq_refl _ eq_refl))
            eq_refl).
  discriminate.
Defined.

(** ** Metric values of ordinary size *)

Lemma small_int_cases v :
  small_int v = true ->
  exists z, as_num v = Some (NInt z) /\ Z.abs z < 2 ^ 1000.
Proof.
  unfold small_int. destruct (as_num v) as [[z|f]|]; try discriminate.
  intros Hz. apply Z.ltb_lt in Hz. eauto.
Qed.

Lemma field_ok_default k g :
  field_ok k g = true -> small_int (get_default k (PInt 0) g) = true.
Proof.
  unfold field_ok, get_default. now destruct (dict_get k g).
Qed.

Lemma truediv_small a b y :
  small_int a = true -> as_num b = Some (NInt y) -> y <> 0 ->
  exists q, py_truediv a b = Ok q.
Proof.
  intros Ha Hb Hy. destruct (small_int_cases a Ha) as (x & Hx & Hlt).
  unfold py_truediv. rewrite Hx, Hb. simpl.
  destruct (y =? 0) eqn:E; [apply Z.eqb_eq in E; contradiction|].
  rewrite (div_Z_finite x y Hlt). eauto.
Qed.

Lemma to_gb_small v : small_int v = true -> exists t, to_gb v = Ok t.
Proof.
  intros Hv. unfold to_gb.
  destruct (truediv_small v (PInt GiB) GiB Hv eq_refl) as (q & ->);
    [discriminate|]. simpl. eauto.
Qed.

Lemma py_gt_small v c :
  small_int v = true ->
  exists z, as_num v = Some (NInt z) /\ py_gt v c = Ok (c <? z).
Proof.
  intros Hv. destruct (small_int_cases v Hv) as (z & Hz & _).
  exists z. unfold py_gt. now rewrite Hz.
Qed.

Lemma usage_step_total group flat out_total out_used out_percent node :
  usage_ok group flat node = true ->
  exists node', usage_step group flat out_total out_used out_percent node = Ok node'.
Proof.
  unfold usage_ok, usage_step. intros Hok.
  assert (Hflat : field_ok flat node = true ->
                  exists node',
                    (if dict_mem flat node
                     then do t <- to_gb (get_default flat (PInt 0) node);
                          Ok (dict_set out_total t node)
                     else Ok node) = Ok node').
  { intros Hf. destruct (dict_mem flat node); [|eauto].
    destruct (to_gb_small _ (field_ok_default flat node Hf)) as (t & ->).
    simpl. eauto. }
  destruct (dict_get group node) as [[| | | | | |g]|]; try now apply Hflat.
  apply andb_prop in Hok as [Ht Hu].
  apply field_ok_default in Ht, Hu.
  destruct (py_gt_small _ 0 Ht) as (z & Hz & ->). simpl.
  destruct (0 <? z) eqn:Epos; [|eauto]. apply Z.ltb_lt in Epos.
  destruct (to_gb_small _ Ht) as (t & ->). simpl.
  destruct (to_gb_small _ Hu) as (u & ->). simpl.
  destruct (truediv_small _ _ z Hu Hz) as (q & ->); [lia|]. simpl. eauto.
Qed.

Lemma truediv_float_1024 q :
  py_truediv (PFloat q) (PInt 1024) = Ok (Float64.div q (Float64.of_Z 1024)).
Proof. reflexivity. Qed.

Lemma fmt_speed_total b : small_int b = true -> exists s, fmt_speed b = Ok s.
Proof.
  intros Hb. unfold fmt_speed.
  destruct (py_gt_small b (1024 * 1024) Hb) as (z & Hz & ->).
  destruct (truediv_small b (PInt 1024) 1024 Hb eq_refl) as (q & Hq);
    [discriminate|].
  cbv beta iota delta [bind]. rewrite Hq.
  destruct (1024 * 1024 <? z); [rewrite truediv_float_1024|]; eauto.
Qed.

Lemma fmt_traffic_total b : small_int b = true -> exists s, fmt_traffic b = Ok s.
Proof.
  intros Hb. unfold fmt_traffic.
  destruct (py_gt_small b (1024 ^ 3) Hb) as (z & Hz & ->).
  cbv beta iota delta [bind].
  destruct (1024 ^ 3 <? z).
  - destruct (truediv_small b (PInt (1024 ^ 3)) (1024 ^ 3) Hb eq_refl)
      as (q & ->); [discriminate|]. eauto.
  - destruct (truediv_small b (PInt (1024 ^ 2)) (1024 ^ 2) Hb eq_refl)
      as (q & ->); [discriminate|]. eauto.
Qed.

Section Totality.
Context `{B : Builtins}.

Lemma py_float_small v : small_int v = true -> exists f, py_float v = Ok f.
Proof.
  intros Hv. destruct (small_int_cases v Hv) as (x & Hx & Hlt).
  unfold py_float. destruct v; try discriminate Hx; rewrite Hx;
    unfold num_to_float; rewrite (of_Z_finite x Hlt); eauto.
Qed.

Lemma cpu_step_total node : cpu_ok node = true -> exists node', cpu_step node = Ok node'.
Proof.
  unfold cpu_ok, cpu_step, get_default. intros Hok.
  destruct (dict_get "cpu" node) as [[| | | | | |g]|]; eauto.
  assert (Hf : forall v, small_int v = true ->
                 exists node',
                   (do f <- py_float v;
                    Ok (dict_set "cpu_usage_percent"
                          (PFloat (Float64.round f 2)) node)) = Ok node').
  { intros v Hv. destruct (py_float_small v Hv) as (f & ->). simpl. eauto. }
  destruct (dict_get "usage" g) as [v|]; [|now apply Hf].
  destruct v; eauto; now apply Hf.
Qed.

Lemma network_step_total node :
  network_ok node = true -> exists node', network_step node = Ok node'.
Proof.
  unfold network_ok, network_step. intros Hok.
  destruct (dict_get "network" node) as [[| | | | | |g]|]; eauto.
  apply andb_prop in Hok as [Hok Htd]. apply andb_prop in Hok as [Hok Htu].
  apply andb_prop in Hok as [Hup Hdown].
  apply field_ok_default in Hup, Hdown, Htu, Htd.
  destruct (fmt_speed_total _ Hup) as (s1 & ->).
  destruct (fmt_speed_total _ Hdown) as (s2 & ->).
  destruct (fmt_traffic_total _ Htu) as (s3 & ->).
  destruct (fmt_traffic_total _ Htd) as (s4 & ->).
  simpl. eauto.
Qed.

Lemma uptime_step_total node :
  uptime_ok node = true -> exists node', uptime_step node = Ok node'.
Proof.
  unfold uptime_ok, uptime_step, get_default. rewrite dict_mem_get. intros Hok.
  destruct (dict_get "uptime" node) as [v|]; eauto.
  unfold py_floordiv, py_mod. destruct (as_num v); [|discriminate].
  simpl. eauto.
Qed.

Lemma load_step_total node : exists node', load_step node = Ok node'.
Proof.
  unfold load_step. destruct (dict_get "load" node) as [[]|]; eauto.
Qed.

Lemma metrics_ok_sources node node' :
  (forall k, In k source_keys -> dict_get k node' = dict_get k node) ->
  metrics_ok node' = metrics_ok node.
Proof.
  intros Hget.
  unfold metrics_ok, cpu_ok, usage_ok, network_ok, uptime_ok, field_ok.
  rewrite !Hget by (simpl; tauto). reflexivity.
Qed.

Lemma step_total m node :
  metrics_ok node = true -> exists node', step_of m node = Ok node'.
Proof.
  unfold metrics_ok. intros Hok.
  apply andb_prop in Hok as [Hok Hup]. apply andb_prop in Hok as [Hok Hnet].
  apply andb_prop in Hok as [Hok Hdisk]. apply andb_prop in Hok as [Hcpu Hram].
  destruct m; simpl step_of.
  - now apply cpu_step_total.
  - now apply usage_step_total.
  - now apply usage_step_total.
  - now apply network_step_total.
  - now apply uptime_step_total.
  - apply load_step_total.
Qed.

Lemma run_steps_total ms :
  forall node, metrics_ok node = true -> exists node', run_steps ms node = Ok node'.
Proof.
  induction ms as [|m rest IH]; intros node Hok; simpl; [eauto|].
  destruct (step_total m node Hok) as (n1 & E). rewrite E. simpl.
  apply IH. rewrite (metrics_ok_sources node n1); [exact Hok|].
  intros k Hk. eapply step_frame; [exact E|now apply source_not_derived].
Qed.

(** X17: the metric steps raise nothing on a record whose metric values
    are numbers of ordinary size: when the groups that are mappings, and
    the flat totals, hold ints below 2^1000 in magnitude (or nothing), the
    CPU usage is such an int, null or absent, and the uptime is any number
    (or absent), normalization returns a record. *)
Theorem normalize_metrics_total (node : dict) :
  metrics_ok node = true -> exists node', normalize_metrics node = Ok node'.
Proof.
  intros Hok. rewrite normalize_metrics_run. now apply run_steps_total.
Qed.
End Totality.

Lemma normalize_metrics_total_witness :
  exists node',
    normalize_metrics (B := example_builtins)
      [("cpu", PDict [("usage", PInt 3)]);
       ("ram", PDict [("total", PInt 8589934592); ("used", PInt 4294967296)]);
       ("network", PDict [("up", PInt 2097152)]);
       ("uptime", PInt 90000)]
    = Ok node'.
Proof.
  apply (normalize_metrics_total (B := example_builtins)). reflexivity.
Defined.
